(** * The OpenSSL crypto backend of cryptsetup (lib/crypto_backend/crypto_openssl.c)

    A shallow embedding of the hash, HMAC, PBKDF and cipher wrappers, and
    proofs about them.

    The C functions are state-passing computations over a heap of allocated
    objects, in which an allocation may fail and an access through a dead
    pointer is a fault.  The OpenSSL primitives they call are an interface,
    [openssl]: each primitive is a transition on an abstract context state
    and may return whatever an [int] result allows.  What is proved of the
    error paths, of teardown and of out-parameters holds for every such
    backend.  What is proved of the values computed (digests, MACs,
    ciphertexts) holds for every backend that keeps the part of OpenSSL's
    documented behaviour written down in [digest_contract], [hmac_contract]
    and [cipher_contract]; the module [Ref] is a small executable backend
    that keeps it, on which the wrappers are run.  The round trip through a
    cipher session is proved over [cipher_promise], which promises a key
    set-up and an update only for the keys and lengths OpenSSL accepts;
    [xts_strict] is an executable backend that refuses some.

    The input and the output buffer of a cipher call are separate objects
    here; the source does not say whether they may be the same. *)

From Stdlib Require Import ZArith Lia String Ascii.
From Stdlib.Strings Require Import Byte.
From stdpp Require Import base option list gmap strings.

Local Open Scope Z_scope.

(** ** The C library *)

(** <errno.h>, Linux values.  The wrappers return the negated code. *)
Definition ENOMEM : Z := 12.
Definition EINVAL : Z := 22.
Definition ENOTSUP : Z := 95.

(** <openssl/evp.h> *)
Definition EVP_MAX_MD_SIZE : Z := 64.

(** Conversion of an integer value to [int] (32 bits, two's complement) and
    to [size_t] (64 bits), as the implicit and explicit casts of the source
    perform them. *)
Definition INT_MAX : Z := 2147483647.
Definition to_int (z : Z) : Z := (z + 2 ^ 31) mod 2 ^ 32 - 2 ^ 31.
Definition to_size_t (z : Z) : Z := z mod 2 ^ 64.

(** A C string is the characters up to the first NUL. *)
Definition uchar (c : ascii) : Z := Z.of_N (N_of_ascii c).

Fixpoint c_str (s : string) : string :=
  match s with
  | EmptyString => EmptyString
  | String c r => if uchar c =? 0 then EmptyString else String c (c_str r)
  end.

Fixpoint strcmp (s1 s2 : string) : Z :=
  match s1, s2 with
  | EmptyString, EmptyString => 0
  | EmptyString, String c2 _ => 0 - uchar c2
  | String c1 _, EmptyString => uchar c1
  | String c1 r1, String c2 r2 =>
      if uchar c1 =? uchar c2
      then (if uchar c1 =? 0 then 0 else strcmp r1 r2)
      else uchar c1 - uchar c2
  end.

Fixpoint strncmp (s1 s2 : string) (n : nat) {struct n} : Z :=
  match n with
  | O => 0
  | S n' =>
      match s1, s2 with
      | EmptyString, EmptyString => 0
      | EmptyString, String c2 _ => 0 - uchar c2
      | String c1 _, EmptyString => uchar c1
      | String c1 r1, String c2 r2 =>
          if uchar c1 =? uchar c2
          then (if uchar c1 =? 0 then 0 else strncmp r1 r2 n')
          else uchar c1 - uchar c2
      end
  end.

(** [memcpy(dst, src, n)]: the first [n] bytes of [dst] become those of
    [src]; reading or writing past the end of either object is undefined
    behaviour, [None]. *)
Definition memcpy (dst src : list byte) (n : Z) : option (list byte) :=
  if (0 <=? n) && (n <=? Z.of_nat (List.length src)) && (n <=? Z.of_nat (List.length dst))
  then Some (take (Z.to_nat n) src ++ drop (Z.to_nat n) dst)
  else None.

(** [sizeof] of a byte array. *)
Definition sizeof (a : list byte) : Z := Z.of_nat (List.length a).

(** Modelled from the spec: [crypt_backend_memzero] is declared in
    crypto_backend.h and defined outside this file; the spec has it zero the
    scratch it is given ("zeroes the internal full-size scratch").  The
    first [n] bytes of the buffer become zero. *)
Definition crypt_backend_memzero (buf : list byte) (n : Z) : list byte :=
  replicate (Z.to_nat n `min` List.length buf) x00 ++ drop (Z.to_nat n) buf.

(** ** The OpenSSL interface *)

(** The cipher constructions the source asks OpenSSL for. *)
Inductive EVP_CIPHER : Type :=
  | EVP_aes_128_xts | EVP_aes_256_xts
  | EVP_aes_128_cbc | EVP_aes_192_cbc | EVP_aes_256_cbc
  | EVP_aes_128_ecb | EVP_aes_192_ecb | EVP_aes_256_ecb.

(** Key, IV and block sizes of these constructions, in bytes. *)
Definition EVP_CIPHER_key_length (t : EVP_CIPHER) : Z :=
  match t with
  | EVP_aes_128_xts => 32 | EVP_aes_256_xts => 64
  | EVP_aes_128_cbc | EVP_aes_128_ecb => 16
  | EVP_aes_192_cbc | EVP_aes_192_ecb => 24
  | EVP_aes_256_cbc | EVP_aes_256_ecb => 32
  end.

Definition EVP_CIPHER_iv_length (t : EVP_CIPHER) : Z :=
  match t with
  | EVP_aes_128_ecb | EVP_aes_192_ecb | EVP_aes_256_ecb => 0
  | _ => 16
  end.

Definition AES_BLOCK_SIZE : Z := 16.

(** What the wrappers use of OpenSSL.  A context object is a value of an
    abstract state type; each primitive is a transition on it that yields
    the [int] the C function returns (1 is success) and, where the C
    function writes through a pointer, the new contents of that buffer and
    of the length variable.  A [NULL] argument is [None].  The [ENGINE]
    argument, always [NULL] in the source, is left out. *)
Class openssl : Type := {
  EVP_MD : Type;
  EVP_MD_CTX : Type;
  HMAC_CTX : Type;
  EVP_CIPHER_CTX : Type;
  (* digests *)
  EVP_get_digestbyname : string -> option EVP_MD;
  EVP_MD_size : EVP_MD -> Z;
  md_ctx_new : EVP_MD_CTX;
  digest_init : EVP_MD_CTX -> option EVP_MD -> Z * EVP_MD_CTX;
  digest_update : EVP_MD_CTX -> list byte -> Z -> Z * EVP_MD_CTX;
  digest_final : EVP_MD_CTX -> list byte -> Z * EVP_MD_CTX * list byte * Z;
  (* HMAC *)
  hmac_ctx_new : HMAC_CTX;
  hmac_init : HMAC_CTX -> option (list byte) -> Z -> option EVP_MD -> Z * HMAC_CTX;
  hmac_update : HMAC_CTX -> list byte -> Z -> Z * HMAC_CTX;
  hmac_final : HMAC_CTX -> list byte -> Z * HMAC_CTX * list byte * Z;
  (* ciphers *)
  cipher_ctx_new : EVP_CIPHER_CTX;
  encrypt_init : EVP_CIPHER_CTX -> option EVP_CIPHER -> option (list byte) ->
                 option (list byte) -> Z * EVP_CIPHER_CTX;
  decrypt_init : EVP_CIPHER_CTX -> option EVP_CIPHER -> option (list byte) ->
                 option (list byte) -> Z * EVP_CIPHER_CTX;
  set_padding : EVP_CIPHER_CTX -> Z -> Z * EVP_CIPHER_CTX;
  encrypt_update : EVP_CIPHER_CTX -> list byte -> list byte -> Z ->
                   Z * EVP_CIPHER_CTX * list byte * Z;
  decrypt_update : EVP_CIPHER_CTX -> list byte -> list byte -> Z ->
                   Z * EVP_CIPHER_CTX * list byte * Z;
  encrypt_final : EVP_CIPHER_CTX -> list byte -> Z * EVP_CIPHER_CTX * list byte * Z;
  decrypt_final : EVP_CIPHER_CTX -> list byte -> Z * EVP_CIPHER_CTX * list byte * Z;
  (* key derivation: the return value and the new contents of [out] *)
  PKCS5_PBKDF2_HMAC : list byte -> Z -> list byte -> Z -> Z -> EVP_MD -> Z ->
                      list byte -> Z * list byte;
  argon2 : string -> list byte -> Z -> list byte -> Z -> list byte -> Z ->
           Z -> Z -> Z -> Z * list byte;
}.

(** ** Memory *)

Abbreviation loc := positive.
(** A pointer: [None] is [NULL]. *)
Abbreviation ptr := (option positive).

Section Wrappers.
Context {B : openssl}.

(** The three structs of the source.  The fields of [crypt_hmac] carry a
    prefix, the names being taken by [crypt_hash]. *)
Record crypt_hash : Type := {
  md : ptr;                       (* EVP_MD_CTX *md *)
  hash_id : option EVP_MD;        (* const EVP_MD *hash_id *)
  hash_len : Z;                   (* int hash_len *)
}.

Record crypt_hmac : Type := {
  hmac_md : ptr;                  (* HMAC_CTX *md *)
  hmac_hash_id : option EVP_MD;
  hmac_hash_len : Z;
}.

Record crypt_cipher : Type := {
  hd_enc : ptr;                   (* EVP_CIPHER_CTX *hd_enc *)
  hd_dec : ptr;
}.

(** What an allocated address holds: one of the structs, one of OpenSSL's
    context objects, or a pointer variable of the caller (the target of an
    out-parameter [struct crypt_hash **ctx]). *)
Inductive cell : Type :=
  | Chash (h : crypt_hash)
  | Chmac (h : crypt_hmac)
  | Ccipher (h : crypt_cipher)
  | Cmd (c : EVP_MD_CTX)
  | Cmac (c : HMAC_CTX)
  | Cenc (c : EVP_CIPHER_CTX)
  | Cslot (p : ptr).

(** The heap, and for each allocation still to come whether it succeeds
    ([malloc] and the [_new] functions may return [NULL]); an empty plan
    lets every allocation succeed. *)
Record world : Type := World {
  heap : gmap loc cell;
  alloc_plan : list bool;
}.

(** Computations on the world; [None] is undefined behaviour (access
    through [NULL] or a dangling pointer, an out-of-bounds copy). *)
Definition M (A : Type) : Type := world -> option (A * world).

#[export] Instance M_ret : MRet M := fun A a w => Some (a, w).
#[export] Instance M_bind : MBind M := fun A A' f m w =>
  match m w with
  | Some (a, w') => f a w'
  | None => None
  end.

Definition fault {A : Type} : M A := fun _ => None.

Definition lift {A : Type} (o : option A) : M A :=
  match o with Some a => mret a | None => fault end.

Definition alloc (c : cell) : M ptr := fun w =>
  match alloc_plan w with
  | false :: plan => Some (None, World (heap w) plan)
  | _ =>
      let l := fresh (dom (heap w)) in
      Some (Some l, World (<[l:=c]> (heap w)) (tail (alloc_plan w)))
  end.

Definition load (p : ptr) : M cell := fun w =>
  match p with
  | Some l => match heap w !! l with Some c => Some (c, w) | None => None end
  | None => None
  end.

Definition store (p : ptr) (c : cell) : M unit := fun w =>
  match p with
  | Some l =>
      match heap w !! l with
      | Some _ => Some (tt, World (<[l:=c]> (heap w)) (alloc_plan w))
      | None => None
      end
  | None => None
  end.

(** [free(p)]: nothing for [NULL], undefined on a pointer that is not live. *)
Definition free (p : ptr) : M unit := fun w =>
  match p with
  | Some l =>
      match heap w !! l with
      | Some _ => Some (tt, World (delete l (heap w)) (alloc_plan w))
      | None => None
      end
  | None => Some (tt, w)
  end.

(** Typed reads: [ctx->...] on a pointer to a struct, and the object
    behind an OpenSSL context pointer. *)
Definition hash_at (p : ptr) : M crypt_hash :=
  c ← load p; match c with Chash h => mret h | _ => fault end.
Definition hmac_at (p : ptr) : M crypt_hmac :=
  c ← load p; match c with Chmac h => mret h | _ => fault end.
Definition cipher_at (p : ptr) : M crypt_cipher :=
  c ← load p; match c with Ccipher h => mret h | _ => fault end.
Definition md_at (p : ptr) : M EVP_MD_CTX :=
  c ← load p; match c with Cmd x => mret x | _ => fault end.
Definition mac_at (p : ptr) : M HMAC_CTX :=
  c ← load p; match c with Cmac x => mret x | _ => fault end.
Definition enc_at (p : ptr) : M EVP_CIPHER_CTX :=
  c ← load p; match c with Cenc x => mret x | _ => fault end.

(** [*ctx = h] through an out-parameter [ctx]. *)
Definition set_slot (ctx : ptr) (h : ptr) : M unit :=
  c ← load ctx; match c with Cslot _ => store ctx (Cslot h) | _ => fault end.

(** The contents of a struct just returned by [malloc] are indeterminate;
    no field is read before it is assigned, and the model starts them at
    [NULL] and 0. *)
Definition malloc_crypt_hash : M ptr := alloc (Chash {| md := None; hash_id := None; hash_len := 0 |}).
Definition malloc_crypt_hmac : M ptr :=
  alloc (Chmac {| hmac_md := None; hmac_hash_id := None; hmac_hash_len := 0 |}).
Definition malloc_crypt_cipher : M ptr := alloc (Ccipher {| hd_enc := None; hd_dec := None |}).

(** ** OpenSSL's functions on context pointers *)

Definition EVP_MD_CTX_new : M ptr := alloc (Cmd md_ctx_new).
Definition HMAC_CTX_new : M ptr := alloc (Cmac hmac_ctx_new).
Definition EVP_CIPHER_CTX_new : M ptr := alloc (Cenc cipher_ctx_new).

Definition EVP_MD_CTX_free (p : ptr) : M unit := _ ← md_at p; free p.
Definition HMAC_CTX_free (p : ptr) : M unit := _ ← mac_at p; free p.
(** [EVP_CIPHER_CTX_free(NULL)] does nothing. *)
Definition EVP_CIPHER_CTX_free (p : ptr) : M unit :=
  match p with
  | None => mret tt
  | Some _ => _ ← enc_at p; free p
  end.

Definition EVP_DigestInit_ex (p : ptr) (type : option EVP_MD) : M Z :=
  c ← md_at p;
  let '(r, c') := digest_init c type in
  _ ← store p (Cmd c'); mret r.

Definition EVP_DigestUpdate (p : ptr) (d : list byte) (cnt : Z) : M Z :=
  c ← md_at p;
  let '(r, c') := digest_update c d cnt in
  _ ← store p (Cmd c'); mret r.

(** The result, the new contents of the output array and of [*s]. *)
Definition EVP_DigestFinal_ex (p : ptr) (out : list byte) : M (Z * list byte * Z) :=
  c ← md_at p;
  let '(r, c', out', s) := digest_final c out in
  _ ← store p (Cmd c'); mret (r, out', s).

Definition HMAC_Init_ex (p : ptr) (key : option (list byte)) (len : Z)
    (type : option EVP_MD) : M Z :=
  c ← mac_at p;
  let '(r, c') := hmac_init c key len type in
  _ ← store p (Cmac c'); mret r.

Definition HMAC_Update (p : ptr) (d : list byte) (len : Z) : M Z :=
  c ← mac_at p;
  let '(r, c') := hmac_update c d len in
  _ ← store p (Cmac c'); mret r.

Definition HMAC_Final (p : ptr) (out : list byte) : M (Z * list byte * Z) :=
  c ← mac_at p;
  let '(r, c', out', s) := hmac_final c out in
  _ ← store p (Cmac c'); mret (r, out', s).

Definition EVP_EncryptInit_ex (p : ptr) (type : option EVP_CIPHER)
    (key iv : option (list byte)) : M Z :=
  c ← enc_at p;
  let '(r, c') := encrypt_init c type key iv in
  _ ← store p (Cenc c'); mret r.

Definition EVP_DecryptInit_ex (p : ptr) (type : option EVP_CIPHER)
    (key iv : option (list byte)) : M Z :=
  c ← enc_at p;
  let '(r, c') := decrypt_init c type key iv in
  _ ← store p (Cenc c'); mret r.

Definition EVP_CIPHER_CTX_set_padding (p : ptr) (pad : Z) : M Z :=
  c ← enc_at p;
  let '(r, c') := set_padding c pad in
  _ ← store p (Cenc c'); mret r.

Definition EVP_EncryptUpdate (p : ptr) (out inp : list byte) (inl : Z) :
    M (Z * list byte * Z) :=
  c ← enc_at p;
  let '(r, c', out', outl) := encrypt_update c out inp inl in
  _ ← store p (Cenc c'); mret (r, out', outl).

Definition EVP_DecryptUpdate (p : ptr) (out inp : list byte) (inl : Z) :
    M (Z * list byte * Z) :=
  c ← enc_at p;
  let '(r, c', out', outl) := decrypt_update c out inp inl in
  _ ← store p (Cenc c'); mret (r, out', outl).

(** [EVP_EncryptFinal(ctx, out + off, &len)]: the primitive is handed the
    part of [out] from offset [off] on; a pointer outside the array is
    undefined. *)
Definition EVP_EncryptFinal (p : ptr) (out : list byte) (off : Z) :
    M (Z * list byte * Z) :=
  c ← enc_at p;
  if (0 <=? off) && (off <=? Z.of_nat (List.length out)) then
    let '(r, c', rest, outl) := encrypt_final c (drop (Z.to_nat off) out) in
    _ ← store p (Cenc c'); mret (r, take (Z.to_nat off) out ++ rest, outl)
  else fault.

Definition EVP_DecryptFinal (p : ptr) (out : list byte) (off : Z) :
    M (Z * list byte * Z) :=
  c ← enc_at p;
  if (0 <=? off) && (off <=? Z.of_nat (List.length out)) then
    let '(r, c', rest, outl) := decrypt_final c (drop (Z.to_nat off) out) in
    _ ← store p (Cenc c'); mret (r, take (Z.to_nat off) out ++ rest, outl)
  else fault.

(** ** HASH *)

Definition crypt_hash_size (name : string) : Z :=
  match EVP_get_digestbyname name with
  | None => - EINVAL
  | Some hash_id => EVP_MD_size hash_id
  end.

(** Assignments to the fields of [*h]. *)
Definition set_md (h : ptr) (v : ptr) : M unit :=
  s ← hash_at h; store h (Chash {| md := v; hash_id := hash_id s; hash_len := hash_len s |}).
Definition set_hash_id (h : ptr) (v : option EVP_MD) : M unit :=
  s ← hash_at h; store h (Chash {| md := md s; hash_id := v; hash_len := hash_len s |}).
Definition set_hash_len (h : ptr) (v : Z) : M unit :=
  s ← hash_at h; store h (Chash {| md := md s; hash_id := hash_id s; hash_len := v |}).

(** [ctx] is the address of the caller's pointer variable. *)
Definition crypt_hash_init (ctx : ptr) (name : string) : M Z :=
  h ← malloc_crypt_hash;
  if h is None then mret (- ENOMEM) else
  m ← EVP_MD_CTX_new;
  _ ← set_md h m;
  if m is None then
    _ ← free h; mret (- ENOMEM)
  else
  let id := EVP_get_digestbyname name in
  _ ← set_hash_id h id;
  match id with
  | None => _ ← EVP_MD_CTX_free m; _ ← free h; mret (- EINVAL)
  | Some type =>
  r ← EVP_DigestInit_ex m id;
  if negb (r =? 1) then
    _ ← EVP_MD_CTX_free m; _ ← free h; mret (- EINVAL)
  else
  _ ← set_hash_len h (EVP_MD_size type);
  _ ← set_slot ctx h;
  mret 0
  end.

Definition crypt_hash_restart (ctx : ptr) : M Z :=
  s ← hash_at ctx;
  r ← EVP_DigestInit_ex (md s) (hash_id s);
  if negb (r =? 1) then mret (- EINVAL) else mret 0.

Definition crypt_hash_write (ctx : ptr) (buffer : list byte) (length : Z) : M Z :=
  s ← hash_at ctx;
  r ← EVP_DigestUpdate (md s) buffer length;
  if negb (r =? 1) then mret (- EINVAL) else mret 0.

(** [tmp] is the local array, given with the indeterminate contents it has
    on entry.  The result is the return value, the caller's buffer after
    the call and the contents of [tmp] at the return. *)
Definition crypt_hash_final (ctx : ptr) (buffer : list byte) (length : Z)
    (tmp : list byte) : M (Z * list byte * list byte) :=
  s ← hash_at ctx;
  if length >? to_size_t (hash_len s) then mret (- EINVAL, buffer, tmp) else
  '(r, tmp, tmp_len) ← EVP_DigestFinal_ex (md s) tmp;
  if negb (r =? 1) then mret (- EINVAL, buffer, tmp) else
  buffer ← lift (memcpy buffer tmp length);
  let tmp := crypt_backend_memzero tmp (sizeof tmp) in
  if tmp_len <? length then mret (- EINVAL, buffer, tmp) else
  r ← crypt_hash_restart ctx;
  if negb (r =? 0) then mret (- EINVAL, buffer, tmp) else
  mret (0, buffer, tmp).

Definition crypt_hash_destroy (ctx : ptr) : M unit :=
  s ← hash_at ctx;
  _ ← EVP_MD_CTX_free (md s);
  _ ← store ctx (Chash {| md := None; hash_id := None; hash_len := 0 |});
  free ctx.

(** ** HMAC *)

Definition crypt_hmac_size (name : string) : Z := crypt_hash_size name.

Definition set_hmac_md (h : ptr) (v : ptr) : M unit :=
  s ← hmac_at h;
  store h (Chmac {| hmac_md := v; hmac_hash_id := hmac_hash_id s; hmac_hash_len := hmac_hash_len s |}).
Definition set_hmac_hash_id (h : ptr) (v : option EVP_MD) : M unit :=
  s ← hmac_at h;
  store h (Chmac {| hmac_md := hmac_md s; hmac_hash_id := v; hmac_hash_len := hmac_hash_len s |}).
Definition set_hmac_hash_len (h : ptr) (v : Z) : M unit :=
  s ← hmac_at h;
  store h (Chmac {| hmac_md := hmac_md s; hmac_hash_id := hmac_hash_id s; hmac_hash_len := v |}).

(** [HMAC_Init_ex] takes the key length as an [int]; its result is not
    looked at. *)
Definition crypt_hmac_init (ctx : ptr) (name : string) (key : option (list byte))
    (key_length : Z) : M Z :=
  h ← malloc_crypt_hmac;
  if h is None then mret (- ENOMEM) else
  m ← HMAC_CTX_new;
  _ ← set_hmac_md h m;
  if m is None then
    _ ← free h; mret (- ENOMEM)
  else
  let id := EVP_get_digestbyname name in
  _ ← set_hmac_hash_id h id;
  match id with
  | None => _ ← HMAC_CTX_free m; _ ← free h; mret (- EINVAL)
  | Some type =>
  _ ← HMAC_Init_ex m key (to_int key_length) id;
  _ ← set_hmac_hash_len h (EVP_MD_size type);
  _ ← set_slot ctx h;
  mret 0
  end.

Definition crypt_hmac_restart (ctx : ptr) : M unit :=
  s ← hmac_at ctx;
  _ ← HMAC_Init_ex (hmac_md s) None 0 (hmac_hash_id s);
  mret tt.

Definition crypt_hmac_write (ctx : ptr) (buffer : list byte) (length : Z) : M Z :=
  s ← hmac_at ctx;
  _ ← HMAC_Update (hmac_md s) buffer length;
  mret 0.

Definition crypt_hmac_final (ctx : ptr) (buffer : list byte) (length : Z)
    (tmp : list byte) : M (Z * list byte * list byte) :=
  s ← hmac_at ctx;
  if length >? to_size_t (hmac_hash_len s) then mret (- EINVAL, buffer, tmp) else
  '(_, tmp, tmp_len) ← HMAC_Final (hmac_md s) tmp;
  buffer ← lift (memcpy buffer tmp length);
  let tmp := crypt_backend_memzero tmp (sizeof tmp) in
  if tmp_len <? length then mret (- EINVAL, buffer, tmp) else
  _ ← crypt_hmac_restart ctx;
  mret (0, buffer, tmp).

Definition crypt_hmac_destroy (ctx : ptr) : M unit :=
  s ← hmac_at ctx;
  _ ← HMAC_CTX_free (hmac_md s);
  _ ← store ctx (Chmac {| hmac_md := None; hmac_hash_id := None; hmac_hash_len := 0 |});
  free ctx.

(** ** PBKDF *)

(** [kdf] may be [NULL].  The result is the return value and the caller's
    key buffer after the call.  [PKCS5_PBKDF2_HMAC] takes its lengths and
    the iteration count as [int]. *)
Definition crypt_pbkdf (kdf : option string) (hash : string)
    (password : list byte) (password_length : Z)
    (salt : list byte) (salt_length : Z)
    (key : list byte) (key_length : Z)
    (iterations memory parallel : Z) : Z * list byte :=
  match kdf with
  | None => (- EINVAL, key)
  | Some kdf =>
      if strcmp kdf "pbkdf2" =? 0 then
        match EVP_get_digestbyname hash with
        | None => (- EINVAL, key)
        | Some hash_id =>
            let '(r, key) :=
              PKCS5_PBKDF2_HMAC password (to_int password_length)
                salt (to_int salt_length) (to_int iterations) hash_id
                (to_int key_length) key in
            if r =? 0 then (- EINVAL, key) else (0, key)
        end
      else if strncmp kdf "argon2" 6 =? 0 then
        argon2 kdf password password_length salt salt_length
               key key_length iterations memory parallel
      else (- EINVAL, key)
  end.

(** ** Ciphers *)

(** The first part of [crypt_cipher_init], up to [if (!type) return -EINVAL]:
    the choice of the construction from the cipher name, the mode and the
    key length.  [inl] is an early return with that value. *)
Definition crypt_cipher_init_type (name mode : string) (key_length : Z) : Z + EVP_CIPHER :=
  if negb (strcmp name "aes" =? 0) then inl (- ENOTSUP) else
  let type : Z + option EVP_CIPHER :=
    if strcmp mode "xts" =? 0 then
      inr (if key_length =? 32 then Some EVP_aes_128_xts
           else if key_length =? 64 then Some EVP_aes_256_xts
           else None)
    else if strcmp mode "cbc" =? 0 then
      inr (if key_length =? 16 then Some EVP_aes_128_cbc
           else if key_length =? 24 then Some EVP_aes_192_cbc
           else if key_length =? 32 then Some EVP_aes_256_cbc
           else None)
    else if strcmp mode "ecb" =? 0 then
      inr (if key_length =? 16 then Some EVP_aes_128_ecb
           else if key_length =? 24 then Some EVP_aes_192_ecb
           else if key_length =? 32 then Some EVP_aes_256_ecb
           else None)
    else inl (- ENOTSUP) in
  match type with
  | inl r => inl r
  | inr None => inl (- EINVAL)
  | inr (Some t) => inr t
  end.

Definition set_hd_enc (h : ptr) (v : ptr) : M unit :=
  s ← cipher_at h; store h (Ccipher {| hd_enc := v; hd_dec := hd_dec s |}).
Definition set_hd_dec (h : ptr) (v : ptr) : M unit :=
  s ← cipher_at h; store h (Ccipher {| hd_enc := hd_enc s; hd_dec := v |}).

Definition crypt_cipher_destroy (ctx : ptr) : M unit :=
  if ctx is None then mret tt else
  s ← cipher_at ctx;
  _ ← EVP_CIPHER_CTX_free (hd_enc s);
  s ← cipher_at ctx;
  _ ← EVP_CIPHER_CTX_free (hd_dec s);
  free ctx.

Definition crypt_cipher_init (ctx : ptr) (name mode : string)
    (key : option (list byte)) (key_length : Z) : M Z :=
  match crypt_cipher_init_type name mode key_length with
  | inl r => mret r
  | inr type =>
  h ← malloc_crypt_cipher;
  if h is None then mret (- ENOMEM) else
  _ ← store h (Ccipher {| hd_enc := None; hd_dec := None |});
  e ← EVP_CIPHER_CTX_new;
  _ ← set_hd_enc h e;
  d ← EVP_CIPHER_CTX_new;
  _ ← set_hd_dec h d;
  if bool_decide (e = None) || bool_decide (d = None) then
    _ ← crypt_cipher_destroy h; mret (- EINVAL)
  else
  r ← EVP_EncryptInit_ex e (Some type) key None;
  if negb (r =? 1) then
    _ ← crypt_cipher_destroy h; mret (- EINVAL)
  else
  r ← EVP_DecryptInit_ex d (Some type) key None;
  if negb (r =? 1) then
    _ ← crypt_cipher_destroy h; mret (- EINVAL)
  else
  r ← EVP_CIPHER_CTX_set_padding e 0;
  if negb (r =? 1) then
    _ ← crypt_cipher_destroy h; mret (- EINVAL)
  else
  r ← EVP_CIPHER_CTX_set_padding d 0;
  if negb (r =? 1) then
    _ ← crypt_cipher_destroy h; mret (- EINVAL)
  else
  _ ← set_slot ctx h;
  mret 0
  end.

(** The result is the return value and the contents of [out] after the
    call.  [iv_length] is not used; [EVP_EncryptUpdate] takes the input
    length as an [int].  The local [len] is assigned by the update before
    it is read. *)
Definition crypt_cipher_encrypt (ctx : ptr) (inp out : list byte) (length : Z)
    (iv : option (list byte)) (iv_length : Z) : M (Z * list byte) :=
  s ← cipher_at ctx;
  r ← EVP_EncryptInit_ex (hd_enc s) None None iv;
  if negb (r =? 1) then mret (- EINVAL, out) else
  '(r, out, len) ← EVP_EncryptUpdate (hd_enc s) out inp (to_int length);
  if negb (r =? 1) then mret (- EINVAL, out) else
  '(r, out, len) ← EVP_EncryptFinal (hd_enc s) out len;
  if negb (r =? 1) then mret (- EINVAL, out) else
  mret (0, out).

Definition crypt_cipher_decrypt (ctx : ptr) (inp out : list byte) (length : Z)
    (iv : option (list byte)) (iv_length : Z) : M (Z * list byte) :=
  s ← cipher_at ctx;
  r ← EVP_DecryptInit_ex (hd_dec s) None None iv;
  if negb (r =? 1) then mret (- EINVAL, out) else
  '(r, out, len) ← EVP_DecryptUpdate (hd_dec s) out inp (to_int length);
  if negb (r =? 1) then mret (- EINVAL, out) else
  '(r, out, len) ← EVP_DecryptFinal (hd_dec s) out len;
  if negb (r =? 1) then mret (- EINVAL, out) else
  mret (0, out).

End Wrappers.

(** ** What OpenSSL promises *)

(** The parts of OpenSSL's documented behaviour that the properties of a
    correct run rest on, each stated against a mathematical function: the
    hash, the MAC, the block transformation. *)

(** Digests.  [md_absorbed t m] is the state of a context of digest [t]
    that has been fed the message [m] since its last initialisation. *)
Class digest_contract `{B : openssl} : Type := {
  digest_of : EVP_MD -> list byte -> list byte;
  md_absorbed : EVP_MD -> list byte -> EVP_MD_CTX;
  digest_size_range : forall t, 0 <= EVP_MD_size t <= EVP_MAX_MD_SIZE;
  digest_of_length : forall t m, Z.of_nat (List.length (digest_of t m)) = EVP_MD_size t;
  digest_init_ok : forall c t, digest_init c (Some t) = (1, md_absorbed t []);
  digest_update_ok : forall t m d n,
    0 <= n <= Z.of_nat (List.length d) ->
    digest_update (md_absorbed t m) d n = (1, md_absorbed t (m ++ take (Z.to_nat n) d));
  digest_final_ok : forall t m out,
    EVP_MD_size t <= Z.of_nat (List.length out) ->
    exists c, digest_final (md_absorbed t m) out =
      (1, c, digest_of t m ++ drop (Z.to_nat (EVP_MD_size t)) out, EVP_MD_size t);
}.

(** HMAC.  [mac_absorbed t k m] is the state of a context keyed with [k]
    for digest [t] that has been fed [m].  A [NULL] key with the digest
    unchanged re-arms the context with the key it has, also after
    [HMAC_Final]. *)
Class hmac_contract `{B : openssl} : Type := {
  hmac_of : EVP_MD -> list byte -> list byte -> list byte;
  mac_absorbed : EVP_MD -> list byte -> list byte -> HMAC_CTX;
  hmac_size_range : forall t, 0 <= EVP_MD_size t <= EVP_MAX_MD_SIZE;
  hmac_of_length : forall t k m, Z.of_nat (List.length (hmac_of t k m)) = EVP_MD_size t;
  hmac_init_ok : forall c t k len,
    0 <= len <= Z.of_nat (List.length k) ->
    hmac_init c (Some k) len (Some t) = (1, mac_absorbed t (take (Z.to_nat len) k) []);
  hmac_update_ok : forall t k m d n,
    0 <= n <= Z.of_nat (List.length d) ->
    hmac_update (mac_absorbed t k m) d n = (1, mac_absorbed t k (m ++ take (Z.to_nat n) d));
  hmac_final_ok : forall t k m out,
    EVP_MD_size t <= Z.of_nat (List.length out) ->
    exists c, hmac_final (mac_absorbed t k m) out =
      (1, c, hmac_of t k m ++ drop (Z.to_nat (EVP_MD_size t)) out, EVP_MD_size t)
      /\ hmac_init c None 0 (Some t) = (1, mac_absorbed t k []);
}.

(** Ciphers.  [keyed dec t k pad c]: the context [c] holds the construction
    [t] and the key [k] for encryption ([dec = false]) or decryption, with
    padding on or off, and no input pending.  [primed dec t k iv c]: it has
    in addition just been given the IV, with padding off.  An update of a
    primed context with whole blocks transforms them all; the final step of
    a context without pending input and without padding writes nothing. *)
Class cipher_contract `{B : openssl} : Type := {
  cipher_enc : EVP_CIPHER -> list byte -> list byte -> list byte -> list byte;
  cipher_dec : EVP_CIPHER -> list byte -> list byte -> list byte -> list byte;
  keyed : bool -> EVP_CIPHER -> list byte -> bool -> EVP_CIPHER_CTX -> Prop;
  primed : bool -> EVP_CIPHER -> list byte -> list byte -> EVP_CIPHER_CTX -> Prop;
  cipher_enc_length : forall t k iv p, List.length (cipher_enc t k iv p) = List.length p;
  cipher_dec_length : forall t k iv p, List.length (cipher_dec t k iv p) = List.length p;
  cipher_dec_enc : forall t k iv p,
    (Z.of_nat (List.length p) mod AES_BLOCK_SIZE = 0) ->
    cipher_dec t k iv (cipher_enc t k iv p) = p;
  encrypt_init_key : forall c t k,
    EVP_CIPHER_key_length t <= Z.of_nat (List.length k) ->
    exists c', encrypt_init c (Some t) (Some k) None = (1, c')
      /\ keyed false t (take (Z.to_nat (EVP_CIPHER_key_length t)) k) true c';
  decrypt_init_key : forall c t k,
    EVP_CIPHER_key_length t <= Z.of_nat (List.length k) ->
    exists c', decrypt_init c (Some t) (Some k) None = (1, c')
      /\ keyed true t (take (Z.to_nat (EVP_CIPHER_key_length t)) k) true c';
  set_padding_off : forall dec t k pad c,
    keyed dec t k pad c ->
    exists c', set_padding c 0 = (1, c') /\ keyed dec t k false c';
  encrypt_init_iv : forall t k c iv,
    keyed false t k false c ->
    EVP_CIPHER_iv_length t <= Z.of_nat (List.length iv) ->
    exists c', encrypt_init c None None (Some iv) = (1, c')
      /\ primed false t k (take (Z.to_nat (EVP_CIPHER_iv_length t)) iv) c';
  decrypt_init_iv : forall t k c iv,
    keyed true t k false c ->
    EVP_CIPHER_iv_length t <= Z.of_nat (List.length iv) ->
    exists c', decrypt_init c None None (Some iv) = (1, c')
      /\ primed true t k (take (Z.to_nat (EVP_CIPHER_iv_length t)) iv) c';
  encrypt_update_blocks : forall t k iv c out inp n,
    primed false t k iv c ->
    0 <= n <= Z.of_nat (List.length inp) -> n <= Z.of_nat (List.length out) ->
    n mod AES_BLOCK_SIZE = 0 ->
    exists c', encrypt_update c out inp n =
      (1, c', cipher_enc t k iv (take (Z.to_nat n) inp) ++ drop (Z.to_nat n) out, n)
      /\ keyed false t k false c';
  decrypt_update_blocks : forall t k iv c out inp n,
    primed true t k iv c ->
    0 <= n <= Z.of_nat (List.length inp) -> n <= Z.of_nat (List.length out) ->
    n mod AES_BLOCK_SIZE = 0 ->
    exists c', decrypt_update c out inp n =
      (1, c', cipher_dec t k iv (take (Z.to_nat n) inp) ++ drop (Z.to_nat n) out, n)
      /\ keyed true t k false c';
  encrypt_final_empty : forall t k c rest,
    keyed false t k false c ->
    exists c', encrypt_final c rest = (1, c', rest, 0) /\ keyed false t k false c';
  decrypt_final_empty : forall t k c rest,
    keyed true t k false c ->
    exists c', decrypt_final c rest = (1, c', rest, 0) /\ keyed true t k false c';
}.

(** ** A small executable instance of the interface *)

(** Two digests and an additive stream transformation stand in for the
    real primitives, so that the wrappers can be run.  With [faulty] set,
    every primitive does its work and then reports failure. *)
Module Ref.

Inductive evp_md : Type := sha1 | sha256.

#[export] Instance md_eq_dec : EqDecision evp_md.
Proof. solve_decision. Defined.

Definition get_digestbyname (name : string) : option evp_md :=
  if String.eqb name "sha1" then Some sha1
  else if String.eqb name "sha256" then Some sha256
  else None.

Definition md_size (t : evp_md) : Z :=
  match t with sha1 => 20 | sha256 => 32 end.

Definition Z_of_byte (b : byte) : Z := Z.of_N (Byte.to_N b).
Definition byte_of_Z (z : Z) : byte := default x00 (Byte.of_N (Z.to_N (z mod 256))).

Definition checksum (l : list byte) : Z := foldr (fun b acc => Z_of_byte b + acc) 0 l.

Definition digest (t : evp_md) (m : list byte) : list byte :=
  let n := Z.to_nat (md_size t) in
  take n (byte_of_Z (checksum m) :: rev m ++ replicate n x00).

Definition hmac (t : evp_md) (k m : list byte) : list byte :=
  let n := Z.to_nat (md_size t) in
  take n (byte_of_Z (checksum (k ++ m)) :: rev m ++ replicate n x00).

Definition shift (t : EVP_CIPHER) (k iv : list byte) : Z := checksum (k ++ iv) + 1.
Definition enc (t : EVP_CIPHER) (k iv p : list byte) : list byte :=
  map (fun b => byte_of_Z (Z_of_byte b + shift t k iv)) p.
Definition dec (t : EVP_CIPHER) (k iv p : list byte) : list byte :=
  map (fun b => byte_of_Z (Z_of_byte b - shift t k iv)) p.

(** Digest contexts: the digest, and the message absorbed since the last
    initialisation ([None] before the first one and after a final). *)
Record md_ctx : Type := { m_md : option evp_md; m_data : option (list byte) }.

Record mac_ctx : Type := {
  h_md : option evp_md;
  h_key : option (list byte);
  h_data : option (list byte);
}.

Record cipher_ctx : Type := {
  c_type : option EVP_CIPHER;
  c_key : option (list byte);
  c_iv : list byte;
  c_dec : bool;
  c_pad : bool;
  c_pending : list byte;
}.

(** The states and the state properties that the contract of a correct
    OpenSSL speaks of, for this instance. *)
Definition md_absorbed (t : evp_md) (m : list byte) : md_ctx :=
  {| m_md := Some t; m_data := Some m |}.

Definition mac_absorbed (t : evp_md) (k m : list byte) : mac_ctx :=
  {| h_md := Some t; h_key := Some k; h_data := Some m |}.

Definition keyed (d : bool) (t : EVP_CIPHER) (k : list byte) (pad : bool)
    (c : cipher_ctx) : Prop :=
  c_type c = Some t /\ c_key c = Some k /\ c_dec c = d /\ c_pad c = pad
  /\ c_pending c = [].

Definition primed (d : bool) (t : EVP_CIPHER) (k iv : list byte) (c : cipher_ctx) : Prop :=
  keyed d t k false c /\ c_iv c = iv.

Section Backend.
Variable faulty : bool.

Definition code (r : Z) : Z := if faulty then 0 else r.

Definition md_init (c : md_ctx) (type : option evp_md) : Z * md_ctx :=
  match (if type is Some t then Some t else m_md c) with
  | Some t => (code 1, {| m_md := Some t; m_data := Some [] |})
  | None => (0, c)
  end.

Definition md_update (c : md_ctx) (d : list byte) (cnt : Z) : Z * md_ctx :=
  match m_data c with
  | Some m => (code 1, {| m_md := m_md c; m_data := Some (m ++ take (Z.to_nat cnt) d) |})
  | None => (0, c)
  end.

Definition md_final (c : md_ctx) (out : list byte) : Z * md_ctx * list byte * Z :=
  match m_md c, m_data c with
  | Some t, Some m =>
      (code 1, {| m_md := Some t; m_data := None |},
       digest t m ++ drop (Z.to_nat (md_size t)) out, md_size t)
  | _, _ => (0, c, out, 0)
  end.

Definition mac_init (c : mac_ctx) (key : option (list byte)) (len : Z)
    (type : option evp_md) : Z * mac_ctx :=
  match (if type is Some t then Some t else h_md c) with
  | None => (0, c)
  | Some t =>
      match key with
      | Some k =>
          (code 1, {| h_md := Some t; h_key := Some (take (Z.to_nat len) k);
                      h_data := Some [] |})
      | None =>
          (* without a key the digest must be the one the context has *)
          if bool_decide (h_md c = Some t) then
            match h_key c with
            | Some k => (code 1, {| h_md := Some t; h_key := Some k; h_data := Some [] |})
            | None => (0, c)
            end
          else (0, c)
      end
  end.

Definition mac_update (c : mac_ctx) (d : list byte) (len : Z) : Z * mac_ctx :=
  match h_data c with
  | Some m =>
      (code 1, {| h_md := h_md c; h_key := h_key c;
                  h_data := Some (m ++ take (Z.to_nat len) d) |})
  | None => (0, c)
  end.

Definition mac_final (c : mac_ctx) (out : list byte) : Z * mac_ctx * list byte * Z :=
  match h_md c, h_key c, h_data c with
  | Some t, Some k, Some m =>
      (code 1, {| h_md := Some t; h_key := Some k; h_data := None |},
       hmac t k m ++ drop (Z.to_nat (md_size t)) out, md_size t)
  | _, _, _ => (0, c, out, 0)
  end.

(** A new construction turns padding back on; a key or an IV that is
    [NULL] is kept from before. *)
Definition cipher_init (d : bool) (c : cipher_ctx) (type : option EVP_CIPHER)
    (key iv : option (list byte)) : Z * cipher_ctx :=
  match (if type is Some t then Some t else c_type c) with
  | None => (0, c)
  | Some t =>
      (code 1,
       {| c_type := Some t;
          c_key := if key is Some k
                   then Some (take (Z.to_nat (EVP_CIPHER_key_length t)) k) else c_key c;
          c_iv := if iv is Some v
                  then take (Z.to_nat (EVP_CIPHER_iv_length t)) v else c_iv c;
          c_dec := d;
          c_pad := if type is Some _ then true else c_pad c;
          c_pending := [] |})
  end.

Definition cipher_set_padding (c : cipher_ctx) (pad : Z) : Z * cipher_ctx :=
  (code 1,
   {| c_type := c_type c; c_key := c_key c; c_iv := c_iv c; c_dec := c_dec c;
      c_pad := negb (pad =? 0); c_pending := c_pending c |}).

(** Whole blocks of the pending and the new input are transformed and
    written to the front of [out]; the rest stays pending. *)
Definition cipher_update (d : bool) (c : cipher_ctx) (out inp : list byte) (inl : Z) :
    Z * cipher_ctx * list byte * Z :=
  match c_type c, c_key c with
  | Some t, Some k =>
      if (inl <? 0) || negb (bool_decide (c_dec c = d)) then (0, c, out, 0) else
      let data := c_pending c ++ take (Z.to_nat inl) inp in
      let n := (List.length data / 16 * 16)%nat in
      let body := (if d then dec else enc) t k (c_iv c) (take n data) in
      (code 1,
       {| c_type := c_type c; c_key := c_key c; c_iv := c_iv c; c_dec := c_dec c;
          c_pad := c_pad c; c_pending := drop n data |},
       body ++ drop n out, Z.of_nat n)
  | _, _ => (0, c, out, 0)
  end.

(** Only unpadded operation is implemented: the final step succeeds when
    padding is off and nothing is pending. *)
Definition cipher_final (d : bool) (c : cipher_ctx) (rest : list byte) :
    Z * cipher_ctx * list byte * Z :=
  if negb (c_pad c) && bool_decide (c_pending c = []) && bool_decide (c_dec c = d)
  then (code 1, c, rest, 0)
  else (0, c, rest, 0).

Definition pbkdf2 (pass : list byte) (passlen : Z) (salt : list byte) (saltlen : Z)
    (iter : Z) (digest : evp_md) (keylen : Z) (out : list byte) : Z * list byte :=
  if (iter <? 1) || (keylen <? 0) || (Z.of_nat (List.length out) <? keylen) then (0, out) else
  (code 1,
   replicate (Z.to_nat keylen)
     (byte_of_Z (checksum (take (Z.to_nat passlen) pass ++ take (Z.to_nat saltlen) salt)
                 + iter + md_size digest))
   ++ drop (Z.to_nat keylen) out).

Definition argon2_ref (type : string) (password : list byte) (password_length : Z)
    (salt : list byte) (salt_length : Z) (key : list byte) (key_length : Z)
    (iterations memory parallel : Z) : Z * list byte :=
  if (memory <? 8 * parallel) || (parallel <? 1) || (Z.of_nat (List.length key) <? key_length)
  then (- EINVAL, key) else
  (if faulty then - EINVAL else 0,
   replicate (Z.to_nat key_length)
     (byte_of_Z (checksum (take (Z.to_nat password_length) password
                           ++ take (Z.to_nat salt_length) salt)
                 + iterations + memory + parallel + Z.of_nat (String.length type)))
   ++ drop (Z.to_nat key_length) key).

Definition backend : openssl := {|
  EVP_MD := evp_md;
  EVP_MD_CTX := md_ctx;
  HMAC_CTX := mac_ctx;
  EVP_CIPHER_CTX := cipher_ctx;
  EVP_get_digestbyname := get_digestbyname;
  EVP_MD_size := md_size;
  md_ctx_new := {| m_md := None; m_data := None |};
  digest_init := md_init;
  digest_update := md_update;
  digest_final := md_final;
  hmac_ctx_new := {| h_md := None; h_key := None; h_data := None |};
  hmac_init := mac_init;
  hmac_update := mac_update;
  hmac_final := mac_final;
  cipher_ctx_new :=
    {| c_type := None; c_key := None; c_iv := []; c_dec := false; c_pad := true;
       c_pending := [] |};
  encrypt_init := cipher_init false;
  decrypt_init := cipher_init true;
  set_padding := cipher_set_padding;
  encrypt_update := cipher_update false;
  decrypt_update := cipher_update true;
  encrypt_final := cipher_final false;
  decrypt_final := cipher_final true;
  PKCS5_PBKDF2_HMAC := pbkdf2;
  argon2 := argon2_ref;
|}.

(** Worlds to run the wrappers in: one pointer variable of the caller at
    address 1, holding [NULL]; a hash and an HMAC context as the init
    functions lay them out, the struct at address 2 and OpenSSL's context at
    address 3, having absorbed [msg]. *)
Definition slot_world (plan : list bool) : @world backend :=
  World (<[1%positive := Cslot None]> ∅) plan.

Definition hash_world_of (c : md_ctx) : @world backend :=
  World (<[2%positive := Chash (@Build_crypt_hash backend (Some 3%positive) (Some sha1) 20)]>
           (<[3%positive := @Cmd backend c]> ∅))
        [].

Definition hash_world (msg : list byte) : @world backend :=
  hash_world_of (md_absorbed sha1 msg).

Definition hmac_world_of (c : mac_ctx) : @world backend :=
  World (<[2%positive := Chmac (@Build_crypt_hmac backend (Some 3%positive) (Some sha1) 20)]>
           (<[3%positive := @Cmac backend c]> ∅))
        [].

Definition hmac_world (key msg : list byte) : @world backend :=
  hmac_world_of (mac_absorbed sha1 key msg).

(** A cipher session as [crypt_cipher_init] lays it out: the struct at
    address 2, the encrypt context at 3, the decrypt context at 4. *)
Definition session_world (t : EVP_CIPHER) (key : list byte) : @world backend :=
  World (<[2%positive := Ccipher {| hd_enc := Some 3%positive; hd_dec := Some 4%positive |}]>
           (<[3%positive := @Cenc backend
                {| c_type := Some t; c_key := Some key; c_iv := []; c_dec := false;
                   c_pad := false; c_pending := [] |}]>
              (<[4%positive := @Cenc backend
                   {| c_type := Some t; c_key := Some key; c_iv := []; c_dec := true;
                      c_pad := false; c_pending := [] |}]> ∅)))
        [].

(** A world with, in addition, the caller's pointer variable at address 1. *)
Definition with_slot (p : ptr) (w : @world backend) : @world backend :=
  World (<[1%positive := Cslot p]> (heap w)) (alloc_plan w).

(** A session whose decrypt context was never allocated. *)
Definition partial_session_world : @world backend :=
  World (<[2%positive := Ccipher {| hd_enc := Some 3%positive; hd_dec := None |}]>
           (<[3%positive := @Cenc backend cipher_ctx_new]> ∅))
        [].

End Backend.
End Ref.

(** ** Vocabulary of the properties *)

(** The spec's table of modes and key lengths (section 4.1). *)
Definition valid_key_lengths (mode : string) : list Z :=
  if String.eqb mode "xts" then [32; 64]
  else if String.eqb mode "cbc" || String.eqb mode "ecb" then [16; 24; 32]
  else [].

Definition valid_key_length (mode : string) (key_length : Z) : bool :=
  bool_decide (key_length ∈ valid_key_lengths mode).

Definition known_mode (mode : string) : bool :=
  String.eqb mode "xts" || String.eqb mode "cbc" || String.eqb mode "ecb".

(** Resolution as the spec words it, for two result values standing for
    UnsupportedAlgorithm and UnsupportedParameters: any name but "aes"
    gives the first; "aes" with a listed mode and key length resolves; "aes"
    with anything else gives the second. *)
Definition resolution_as_stated (unsupported_algorithm unsupported_parameters : Z) : Prop :=
  forall (name mode : string) (key_length : Z),
    (c_str name ≠ "aes"%string ->
       crypt_cipher_init_type name mode key_length = inl unsupported_algorithm)
    /\ (c_str name = "aes"%string -> valid_key_length (c_str mode) key_length = true ->
          exists t, crypt_cipher_init_type name mode key_length = inr t)
    /\ (c_str name = "aes"%string -> valid_key_length (c_str mode) key_length = false ->
          crypt_cipher_init_type name mode key_length = inl unsupported_parameters).

Definition all_zero (l : list byte) : Prop := l = replicate (List.length l) x00.

Section Vocabulary.
Context {B : openssl}.

Definition delete_ptr (p : ptr) (h : gmap loc cell) : gmap loc cell :=
  match p with Some l => delete l h | None => h end.

(** [p] is [NULL] or points to a live cipher context. *)
Definition cipher_ctx_or_null (w : world) (p : ptr) : Prop :=
  match p with
  | None => True
  | Some l => exists c, heap w !! l = Some (Cenc c)
  end.

(** [h] points to a hash struct [s] whose [md] points to a live digest
    context in state [c]; likewise for HMAC. *)
Definition hash_ctx (w : world) (h m : loc) (s : crypt_hash) (c : EVP_MD_CTX) : Prop :=
  heap w !! h = Some (Chash s) /\ md s = Some m /\ heap w !! m = Some (Cmd c).

Definition hmac_ctx (w : world) (h m : loc) (s : crypt_hmac) (c : HMAC_CTX) : Prop :=
  heap w !! h = Some (Chmac s) /\ hmac_md s = Some m /\ heap w !! m = Some (Cmac c).

(** The final primitives write within an array of [EVP_MAX_MD_SIZE] bytes:
    what comes back has the size of what went in. *)
Definition finals_in_place : Prop :=
  (forall c out, sizeof out = EVP_MAX_MD_SIZE ->
     List.length (digest_final c out).1.2 = List.length out)
  /\ (forall c out, sizeof out = EVP_MAX_MD_SIZE ->
        List.length (hmac_final c out).1.2 = List.length out).


(** The context at [h] belongs to digest [t], with the digest size
    recorded, and has absorbed [msg]. *)
Definition hash_state `{!digest_contract} (w : world) (h : loc) (t : EVP_MD)
    (msg : list byte) : Prop :=
  exists m,
    heap w !! h = Some (Chash {| md := Some m; hash_id := Some t; hash_len := EVP_MD_size t |})
    /\ heap w !! m = Some (Cmd (md_absorbed t msg)).


(** The session at [h] holds two distinct live contexts, keyed with [k] for
    the construction [t], one for each direction, padding off. *)
Definition cipher_session `{!cipher_contract} (w : world) (h : loc) (t : EVP_CIPHER)
    (k : list byte) : Prop :=
  exists e d ce cd,
    heap w !! h = Some (Ccipher {| hd_enc := Some e; hd_dec := Some d |})
    /\ e ≠ d
    /\ heap w !! e = Some (Cenc ce) /\ heap w !! d = Some (Cenc cd)
    /\ keyed false t k false ce /\ keyed true t k false cd.

End Vocabulary.

(** ** Backend lifecycle *)

(** The process-wide state of the file: the flag [crypto_backend_initialised]
    and, as a record of what [crypt_backend_init] has done, how many times
    [openssl_backend_init] has run (on OpenSSL before 1.1.0 each run is a
    call of [OpenSSL_add_all_algorithms]; on later versions it does
    nothing). *)
Record backend_state : Type := {
  crypto_backend_initialised : Z;
  openssl_backend_inits : nat;
}.

(** [static int crypto_backend_initialised = 0]. *)
Definition backend_state_start : backend_state :=
  {| crypto_backend_initialised := 0; openssl_backend_inits := 0 |}.

Definition openssl_backend_init (s : backend_state) : backend_state :=
  {| crypto_backend_initialised := crypto_backend_initialised s;
     openssl_backend_inits := S (openssl_backend_inits s) |}.

(** The argument [ctx] is not used. *)
Definition crypt_backend_init (ctx : ptr) (s : backend_state) : Z * backend_state :=
  if negb (crypto_backend_initialised s =? 0) then (0, s) else
  let s := openssl_backend_init s in
  (0, {| crypto_backend_initialised := 1;
         openssl_backend_inits := openssl_backend_inits s |}).

Definition crypt_backend_destroy (s : backend_state) : backend_state :=
  {| crypto_backend_initialised := 0;
     openssl_backend_inits := openssl_backend_inits s |}.

Definition crypt_backend_flags : Z := 0.

(** ** Vocabulary of further properties *)

(** The first [n] allocations to come all succeed. *)
Definition allocations_succeed (n : nat) (plan : list bool) : bool :=
  forallb id (take n plan).

Section Callers.
Context {B : openssl}.

(** From [w] to [w'] no object but the one at [m] has changed, none has
    been allocated or released, and no allocation has been asked for. *)
Definition only_changed (w w' : world) (m : loc) : Prop :=
  alloc_plan w' = alloc_plan w /\ forall i : loc, i ≠ m -> heap w' !! i = heap w !! i.

(** A caller feeding a message to a hash context in pieces. *)
Fixpoint crypt_hash_writes (ctx : ptr) (chunks : list (list byte)) : M Z :=
  match chunks with
  | [] => mret 0
  | d :: rest =>
      r ← crypt_hash_write ctx d (sizeof d);
      if r =? 0 then crypt_hash_writes ctx rest else mret r
  end.

(** The return value of [crypt_hash_init] as the source decides it: the two
    allocations, the lookup of the name, the first [EVP_DigestInit_ex]. *)
Definition crypt_hash_init_code (name : string) (plan : list bool) : Z :=
  if negb (allocations_succeed 2 plan) then - ENOMEM else
  match EVP_get_digestbyname name with
  | None => - EINVAL
  | Some t => if (digest_init md_ctx_new (Some t)).1 =? 1 then 0 else - EINVAL
  end.

(** That of [crypt_hmac_init]: neither the key nor what [HMAC_Init_ex]
    returns plays a part. *)
Definition crypt_hmac_init_code (name : string) (plan : list bool) : Z :=
  if negb (allocations_succeed 2 plan) then - ENOMEM else
  match EVP_get_digestbyname name with
  | None => - EINVAL
  | Some t => 0
  end.

(** That of [crypt_cipher_init] once a construction [t] is resolved: only
    the allocation of the struct gives -ENOMEM. *)
Definition crypt_cipher_init_code (t : EVP_CIPHER) (key : option (list byte))
    (plan : list bool) : Z :=
  if negb (allocations_succeed 1 plan) then - ENOMEM else
  if negb (allocations_succeed 3 plan) then - EINVAL else
  let e := encrypt_init cipher_ctx_new (Some t) key None in
  let d := decrypt_init cipher_ctx_new (Some t) key None in
  if (e.1 =? 1) && (d.1 =? 1) && ((set_padding e.2 0).1 =? 1)
     && ((set_padding d.2 0).1 =? 1)
  then 0 else - EINVAL.

End Callers.

(** The mode of a construction, as the table of [crypt_cipher_init] names it. *)
Definition mode_of (t : EVP_CIPHER) : string :=
  match t with
  | EVP_aes_128_xts | EVP_aes_256_xts => "xts"
  | EVP_aes_128_cbc | EVP_aes_192_cbc | EVP_aes_256_cbc => "cbc"
  | EVP_aes_128_ecb | EVP_aes_192_ecb | EVP_aes_256_ecb => "ecb"
  end.

(** Further states of the executable instance: a SHA-1 digest context that
    has been finalized and not restarted, and a hash context whose struct
    records 32 bytes over a SHA-1 digest context, which produces 20. *)
Definition finalized_md_ctx : Ref.md_ctx :=
  {| Ref.m_md := Some Ref.sha1; Ref.m_data := None |}.

Definition short_digest_world : @world (Ref.backend false) :=
  World (<[2%positive := Chash (@Build_crypt_hash (Ref.backend false) (Some 3%positive)
                                  (Some Ref.sha256) 32)]>
           (<[3%positive := @Cmd (Ref.backend false) (Ref.md_absorbed Ref.sha1 [])]> ∅))
        [].

(** ** What OpenSSL promises of the keys and lengths it accepts *)

(** OpenSSL does not take every key of the right size nor every whole
    number of blocks: of the xts constructions it refuses a key whose two
    halves are equal, and an update of less than one block or of more than
    2^20 blocks.  [key_accepted t k] and [length_accepted t n] stand for
    what it takes of a construction, in either direction.  A key set-up is
    promised to return 1 for an accepted key, and one that returned 1 has
    left the context holding the key; an update is promised for an accepted
    length only.  The rest is as in [cipher_contract]. *)
Class cipher_promise `{B : openssl} : Type := {
  enc_of : EVP_CIPHER -> list byte -> list byte -> list byte -> list byte;
  dec_of : EVP_CIPHER -> list byte -> list byte -> list byte -> list byte;
  holds_key : bool -> EVP_CIPHER -> list byte -> bool -> EVP_CIPHER_CTX -> Prop;
  holds_iv : bool -> EVP_CIPHER -> list byte -> list byte -> EVP_CIPHER_CTX -> Prop;
  key_accepted : EVP_CIPHER -> list byte -> Prop;
  length_accepted : EVP_CIPHER -> Z -> Prop;
  enc_of_length : forall t k iv p, List.length (enc_of t k iv p) = List.length p;
  dec_of_length : forall t k iv p, List.length (dec_of t k iv p) = List.length p;
  dec_of_enc_of : forall t k iv p,
    (Z.of_nat (List.length p) mod AES_BLOCK_SIZE = 0) ->
    dec_of t k iv (enc_of t k iv p) = p;
  encrypt_key_accepted : forall c t k,
    EVP_CIPHER_key_length t <= Z.of_nat (List.length k) ->
    key_accepted t (take (Z.to_nat (EVP_CIPHER_key_length t)) k) ->
    (encrypt_init c (Some t) (Some k) None).1 = 1;
  decrypt_key_accepted : forall c t k,
    EVP_CIPHER_key_length t <= Z.of_nat (List.length k) ->
    key_accepted t (take (Z.to_nat (EVP_CIPHER_key_length t)) k) ->
    (decrypt_init c (Some t) (Some k) None).1 = 1;
  encrypt_key_held : forall c t k c',
    EVP_CIPHER_key_length t <= Z.of_nat (List.length k) ->
    encrypt_init c (Some t) (Some k) None = (1, c') ->
    holds_key false t (take (Z.to_nat (EVP_CIPHER_key_length t)) k) true c';
  decrypt_key_held : forall c t k c',
    EVP_CIPHER_key_length t <= Z.of_nat (List.length k) ->
    decrypt_init c (Some t) (Some k) None = (1, c') ->
    holds_key true t (take (Z.to_nat (EVP_CIPHER_key_length t)) k) true c';
  padding_off : forall dec t k pad c,
    holds_key dec t k pad c ->
    exists c', set_padding c 0 = (1, c') /\ holds_key dec t k false c';
  encrypt_iv_held : forall t k c iv,
    holds_key false t k false c ->
    EVP_CIPHER_iv_length t <= Z.of_nat (List.length iv) ->
    exists c', encrypt_init c None None (Some iv) = (1, c')
      /\ holds_iv false t k (take (Z.to_nat (EVP_CIPHER_iv_length t)) iv) c';
  decrypt_iv_held : forall t k c iv,
    holds_key true t k false c ->
    EVP_CIPHER_iv_length t <= Z.of_nat (List.length iv) ->
    exists c', decrypt_init c None None (Some iv) = (1, c')
      /\ holds_iv true t k (take (Z.to_nat (EVP_CIPHER_iv_length t)) iv) c';
  encrypt_blocks : forall t k iv c out inp n,
    holds_iv false t k iv c ->
    0 <= n <= Z.of_nat (List.length inp) -> n <= Z.of_nat (List.length out) ->
    n mod AES_BLOCK_SIZE = 0 -> length_accepted t n ->
    exists c', encrypt_update c out inp n =
      (1, c', enc_of t k iv (take (Z.to_nat n) inp) ++ drop (Z.to_nat n) out, n)
      /\ holds_key false t k false c';
  decrypt_blocks : forall t k iv c out inp n,
    holds_iv true t k iv c ->
    0 <= n <= Z.of_nat (List.length inp) -> n <= Z.of_nat (List.length out) ->
    n mod AES_BLOCK_SIZE = 0 -> length_accepted t n ->
    exists c', decrypt_update c out inp n =
      (1, c', dec_of t k iv (take (Z.to_nat n) inp) ++ drop (Z.to_nat n) out, n)
      /\ holds_key true t k false c';
  encrypt_final_nothing : forall t k c rest,
    holds_key false t k false c ->
    exists c', encrypt_final c rest = (1, c', rest, 0) /\ holds_key false t k false c';
  decrypt_final_nothing : forall t k c rest,
    holds_key true t k false c ->
    exists c', decrypt_final c rest = (1, c', rest, 0) /\ holds_key true t k false c';
}.

(** The session at [h] holds two distinct live contexts, each holding the
    key [k] for the construction [t], one for each direction, padding off. *)
Definition accepted_session `{B : openssl} `{!cipher_promise} (w : world) (h : loc)
    (t : EVP_CIPHER) (k : list byte) : Prop :=
  exists e d ce cd,
    heap w !! h = Some (Ccipher {| hd_enc := Some e; hd_dec := Some d |})
    /\ e ≠ d
    /\ heap w !! e = Some (Cenc ce) /\ heap w !! d = Some (Cenc cd)
    /\ holds_key false t k false ce /\ holds_key true t k false cd.

(** An executable instance that refuses what OpenSSL refuses of the xts
    constructions; everything else is the instance above. *)
Definition is_xts (t : option EVP_CIPHER) : bool :=
  match t with
  | Some EVP_aes_128_xts | Some EVP_aes_256_xts => true
  | _ => false
  end.

Definition xts_duplicated_key (t : EVP_CIPHER) (key : list byte) : bool :=
  let n := Z.to_nat (EVP_CIPHER_key_length t / 2) in
  bool_decide (Ref.Z_of_byte <$> take n key = Ref.Z_of_byte <$> take n (drop n key)).

Definition xts_length_refused (c : Ref.cipher_ctx) (inl : Z) : bool :=
  is_xts (Ref.c_type c) && ((inl <? AES_BLOCK_SIZE) || (2 ^ 20 * AES_BLOCK_SIZE <? inl)).

Definition xts_strict : openssl := {|
  EVP_MD := Ref.evp_md;
  EVP_MD_CTX := Ref.md_ctx;
  HMAC_CTX := Ref.mac_ctx;
  EVP_CIPHER_CTX := Ref.cipher_ctx;
  EVP_get_digestbyname := Ref.get_digestbyname;
  EVP_MD_size := Ref.md_size;
  md_ctx_new := @md_ctx_new (Ref.backend false);
  digest_init := Ref.md_init false;
  digest_update := Ref.md_update false;
  digest_final := Ref.md_final false;
  hmac_ctx_new := @hmac_ctx_new (Ref.backend false);
  hmac_init := Ref.mac_init false;
  hmac_update := Ref.mac_update false;
  hmac_final := Ref.mac_final false;
  cipher_ctx_new := @cipher_ctx_new (Ref.backend false);
  encrypt_init := fun c type key iv =>
    match type, key with
    | Some t, Some k =>
        if is_xts type && xts_duplicated_key t k then (0, c)
        else Ref.cipher_init false false c type key iv
    | _, _ => Ref.cipher_init false false c type key iv
    end;
  decrypt_init := Ref.cipher_init false true;
  set_padding := Ref.cipher_set_padding false;
  encrypt_update := fun c out inp inl =>
    if xts_length_refused c inl then (0, c, out, 0)
    else Ref.cipher_update false false c out inp inl;
  decrypt_update := fun c out inp inl =>
    if xts_length_refused c inl then (0, c, out, 0)
    else Ref.cipher_update false true c out inp inl;
  encrypt_final := Ref.cipher_final false false;
  decrypt_final := Ref.cipher_final false true;
  PKCS5_PBKDF2_HMAC := Ref.pbkdf2 false;
  argon2 := Ref.argon2_ref false;
|}.

(** * Proofs *)

(** ** C strings *)

Lemma uchar_range c : 0 <= uchar c < 256.
Proof.
  unfold uchar. pose proof (N_ascii_bounded c). lia.
Qed.

Lemma uchar_inj c1 c2 : uchar c1 = uchar c2 -> c1 = c2.
Proof.
  unfold uchar. intros H. apply N2Z.inj in H.
  rewrite <- (ascii_N_embedding c1), <- (ascii_N_embedding c2). by rewrite H.
Qed.

Lemma strcmp_c_str s1 s2 : strcmp s1 s2 = 0 <-> c_str s1 = c_str s2.
Proof.
  revert s2. induction s1 as [|c1 r1 IH]; intros [|c2 r2]; simpl.
  - done.
  - destruct (Z.eqb_spec (uchar c2) 0); split; try done; lia.
  - destruct (Z.eqb_spec (uchar c1) 0); split; try done; lia.
  - destruct (Z.eqb_spec (uchar c1) (uchar c2)) as [E|E].
    + apply uchar_inj in E as ->.
      destruct (Z.eqb_spec (uchar c2) 0); first done.
      rewrite IH. split; [by intros -> | by intros [=] ].
    + destruct (Z.eqb_spec (uchar c1) 0), (Z.eqb_spec (uchar c2) 0);
        split; try done; try lia.
      intros [= -> _]. done.
Qed.

Lemma strcmp_eqb s lit :
  c_str lit = lit -> (strcmp s lit =? 0) = bool_decide (c_str s = lit).
Proof.
  intros Hlit. destruct (Z.eqb_spec (strcmp s lit) 0) as [E|E].
  - apply strcmp_c_str in E. rewrite Hlit in E. by rewrite bool_decide_eq_true_2.
  - rewrite bool_decide_eq_false_2; first done.
    intros E'. apply E, strcmp_c_str. by rewrite Hlit.
Qed.

Lemma prefix_cons a b p s :
  String.prefix (String a p) (String b s)
  = if ascii_dec a b then String.prefix p s else false.
Proof. reflexivity. Qed.

(** [strncmp] against a literal without NUL, over the literal's length,
    tests whether the literal starts the C string. *)
Lemma strncmp_prefix lit s :
  c_str lit = lit ->
  strncmp s lit (String.length lit) = 0 <-> String.prefix lit (c_str s) = true.
Proof.
  revert s. induction lit as [|c2 r2 IH]; intros s Hlit.
  - split; intros _; [by destruct (c_str s) | reflexivity].
  - simpl in Hlit. revert Hlit.
    destruct (Z.eqb_spec (uchar c2) 0) as [Z2|Z2]; first done.
    intros [= Hlit].
    destruct s as [|c1 r1]; simpl.
    + split; [lia | done].
    + destruct (Z.eqb_spec (uchar c1) (uchar c2)) as [E|E].
      * apply uchar_inj in E as ->.
        destruct (Z.eqb_spec (uchar c2) 0); first done.
        rewrite prefix_cons, IH by done. by destruct (ascii_dec c2 c2).
      * destruct (Z.eqb_spec (uchar c1) 0).
        -- split; [lia | done].
        -- rewrite prefix_cons. destruct (ascii_dec c2 c1) as [->|]; first done.
           split; [lia | done].
Qed.

Lemma to_int_id z : - 2 ^ 31 <= z <= INT_MAX -> to_int z = z.
Proof. unfold to_int, INT_MAX. intros. rewrite Z.mod_small; lia. Qed.

Lemma to_size_t_id z : 0 <= z < 2 ^ 64 -> to_size_t z = z.
Proof. unfold to_size_t. intros. by rewrite Z.mod_small. Qed.

Lemma to_int_period z a : to_int (z + 2 ^ 32 * a) = to_int z.
Proof.
  unfold to_int. f_equal.
  replace (z + 2 ^ 32 * a + 2 ^ 31) with (z + 2 ^ 31 + a * 2 ^ 32) by lia.
  apply Z_mod_plus_full.
Qed.

Lemma to_int_high z : INT_MAX < z < 2 ^ 32 -> to_int z = z - 2 ^ 32.
Proof.
  unfold to_int, INT_MAX. intros Hz.
  replace (z + 2 ^ 31) with (z - 2 ^ 31 + 1 * 2 ^ 32) by lia.
  rewrite Z_mod_plus_full, Z.mod_small by lia. lia.
Qed.

(** ** Cipher resolution *)

Lemma known_mode_cases mode :
  known_mode mode = true <-> mode = "xts"%string \/ mode = "cbc"%string \/ mode = "ecb"%string.
Proof.
  unfold known_mode. rewrite !orb_true_iff, !String.eqb_eq. tauto.
Qed.

Lemma valid_key_length_xts n : valid_key_length "xts" n = (n =? 32) || (n =? 64).
Proof.
  unfold valid_key_length. change (valid_key_lengths "xts") with [32; 64].
  destruct (Z.eqb_spec n 32) as [->|]; first done.
  destruct (Z.eqb_spec n 64) as [->|]; first done.
  apply bool_decide_eq_false_2. rewrite !elem_of_cons, elem_of_nil. lia.
Qed.

Lemma valid_key_length_cbc_ecb mode n :
  mode = "cbc"%string \/ mode = "ecb"%string ->
  valid_key_length mode n = (n =? 16) || (n =? 24) || (n =? 32).
Proof.
  unfold valid_key_length. intros Hm.
  assert (valid_key_lengths mode = [16; 24; 32]) as -> by (by destruct Hm as [-> | ->]).
  destruct (Z.eqb_spec n 16) as [->|]; first done.
  destruct (Z.eqb_spec n 24) as [->|]; first done.
  destruct (Z.eqb_spec n 32) as [->|]; first done.
  apply bool_decide_eq_false_2. rewrite !elem_of_cons, elem_of_nil. lia.
Qed.

Lemma valid_key_length_unknown mode n : known_mode mode = false -> valid_key_length mode n = false.
Proof.
  unfold known_mode, valid_key_length, valid_key_lengths.
  rewrite !orb_false_iff. intros [[-> ->] ->]. done.
Qed.

Lemma bool_decide_string (a b : string) : bool_decide (a = b) = String.eqb a b.
Proof.
  destruct (String.eqb_spec a b).
  - by apply bool_decide_eq_true_2.
  - by apply bool_decide_eq_false_2.
Qed.

(** The early part of [crypt_cipher_init] written by cases on the C strings. *)
Lemma crypt_cipher_init_type_cases name mode n :
  crypt_cipher_init_type name mode n =
    if bool_decide (c_str name = "aes"%string) then
      if known_mode (c_str mode) then
        if String.eqb (c_str mode) "xts" then
          (if n =? 32 then inr EVP_aes_128_xts
           else if n =? 64 then inr EVP_aes_256_xts else inl (- EINVAL))
        else if String.eqb (c_str mode) "cbc" then
          (if n =? 16 then inr EVP_aes_128_cbc
           else if n =? 24 then inr EVP_aes_192_cbc
           else if n =? 32 then inr EVP_aes_256_cbc else inl (- EINVAL))
        else
          (if n =? 16 then inr EVP_aes_128_ecb
           else if n =? 24 then inr EVP_aes_192_ecb
           else if n =? 32 then inr EVP_aes_256_ecb else inl (- EINVAL))
      else inl (- ENOTSUP)
    else inl (- ENOTSUP).
Proof.
  unfold crypt_cipher_init_type, known_mode.
  rewrite !strcmp_eqb by reflexivity.
  destruct (bool_decide (c_str name = "aes"%string)); simpl; last done.
  rewrite !bool_decide_string.
  destruct (String.eqb (c_str mode) "xts"); simpl;
    first by repeat (destruct (Z.eqb n _); simpl).
  destruct (String.eqb (c_str mode) "cbc"); simpl;
    first by repeat (destruct (Z.eqb n _); simpl).
  destruct (String.eqb (c_str mode) "ecb"); simpl;
    first by repeat (destruct (Z.eqb n _); simpl).
  done.
Qed.

Lemma crypt_cipher_init_early `{B : openssl} ctx name mode key key_length w r :
  crypt_cipher_init_type name mode key_length = inl r ->
  crypt_cipher_init ctx name mode key key_length w = Some (r, w).
Proof. unfold crypt_cipher_init. by intros ->. Qed.

(** What the early part returns for the cipher name "aes". *)
Lemma crypt_cipher_init_type_aes name mode key_length :
  c_str name = "aes"%string ->
  match crypt_cipher_init_type name mode key_length with
  | inr t => valid_key_length (c_str mode) key_length = true
             /\ EVP_CIPHER_key_length t = key_length
  | inl r => if known_mode (c_str mode)
             then valid_key_length (c_str mode) key_length = false /\ r = - EINVAL
             else r = - ENOTSUP
  end.
Proof.
  intros Hn. rewrite crypt_cipher_init_type_cases, Hn.
  rewrite bool_decide_eq_true_2 by done.
  destruct (known_mode (c_str mode)) eqn:Hk; last done.
  apply known_mode_cases in Hk as [Hm | [Hm | Hm]]; rewrite Hm; simpl.
  - rewrite valid_key_length_xts.
      repeat match goal with
        | |- context [key_length =? ?k] =>
            destruct (Z.eqb_spec key_length k) as [->|]; [split; reflexivity|]
        end.
      simpl. split; reflexivity.
  - rewrite valid_key_length_cbc_ecb by auto.
      repeat match goal with
        | |- context [key_length =? ?k] =>
            destruct (Z.eqb_spec key_length k) as [->|]; [split; reflexivity|]
        end.
      simpl. split; reflexivity.
  - rewrite valid_key_length_cbc_ecb by auto.
      repeat match goal with
        | |- context [key_length =? ?k] =>
            destruct (Z.eqb_spec key_length k) as [->|]; [split; reflexivity|]
        end.
      simpl. split; reflexivity.
Qed.

Lemma crypt_cipher_init_type_resolved name mode key_length t :
  crypt_cipher_init_type name mode key_length = inr t ->
  c_str name = "aes"%string
  /\ valid_key_length (c_str mode) key_length = true
  /\ EVP_CIPHER_key_length t = key_length.
Proof.
  intros Ht. destruct (decide (c_str name = "aes"%string)) as [Hn|Hn].
  - pose proof (crypt_cipher_init_type_aes name mode key_length Hn) as H.
    rewrite Ht in H. tauto.
  - revert Ht. rewrite crypt_cipher_init_type_cases. by rewrite bool_decide_eq_false_2.
Qed.

(** C2, as amended.  The early part of [crypt_cipher_init] resolves a
    construction exactly when the cipher name is "aes" and the mode and key
    length are one of xts:32/64, cbc:16/24/32, ecb:16/24/32, and the
    construction has that key length.  A name other than "aes" returns
    -ENOTSUP; so does "aes" with a mode other than xts, cbc and ecb; "aes"
    with one of these modes and a key length that is not valid for it
    returns -EINVAL.  Each early return leaves the world as it was. *)
Theorem crypt_cipher_init_resolution `{B : openssl} (name mode : string) (key_length : Z) :
  (c_str name ≠ "aes"%string ->
     crypt_cipher_init_type name mode key_length = inl (- ENOTSUP))
  /\ (c_str name = "aes"%string -> known_mode (c_str mode) = false ->
        crypt_cipher_init_type name mode key_length = inl (- ENOTSUP))
  /\ (c_str name = "aes"%string -> known_mode (c_str mode) = true ->
        valid_key_length (c_str mode) key_length = false ->
        crypt_cipher_init_type name mode key_length = inl (- EINVAL))
  /\ (c_str name = "aes"%string -> valid_key_length (c_str mode) key_length = true ->
        exists t, crypt_cipher_init_type name mode key_length = inr t
                  /\ EVP_CIPHER_key_length t = key_length)
  /\ (forall t, crypt_cipher_init_type name mode key_length = inr t ->
        c_str name = "aes"%string /\ valid_key_length (c_str mode) key_length = true)
  /\ (forall ctx key w r,
        crypt_cipher_init_type name mode key_length = inl r ->
        crypt_cipher_init ctx name mode key key_length w = Some (r, w)).
Proof.
  pose proof (crypt_cipher_init_type_aes name mode key_length) as Hvalid.
  repeat split.
  - intros Hn. rewrite crypt_cipher_init_type_cases.
    by rewrite bool_decide_eq_false_2.
  - intros Hn Hk. specialize (Hvalid Hn). rewrite Hk in Hvalid.
    destruct (crypt_cipher_init_type name mode key_length) as [r|t].
    + by rewrite Hvalid.
    + destruct Hvalid as [Hv _]. by rewrite valid_key_length_unknown in Hv.
  - intros Hn Hk Hv. specialize (Hvalid Hn). rewrite Hk in Hvalid.
    destruct (crypt_cipher_init_type name mode key_length) as [r|t].
    + destruct Hvalid as [_ ->]. done.
    + destruct Hvalid as [Hv' _]. congruence.
  - intros Hn Hv. specialize (Hvalid Hn).
    destruct (crypt_cipher_init_type name mode key_length) as [r|t].
    + destruct (known_mode (c_str mode)) eqn:Hk.
      * destruct Hvalid. congruence.
      * by rewrite valid_key_length_unknown in Hv.
    + exists t. by destruct Hvalid.
  - revert H. rewrite crypt_cipher_init_type_cases. by case_bool_decide.
  - destruct (decide (c_str name = "aes"%string)) as [Hn|Hn].
    + specialize (Hvalid Hn). rewrite H in Hvalid. tauto.
    + revert H. rewrite crypt_cipher_init_type_cases. by rewrite bool_decide_eq_false_2.
  - intros ctx key w r. apply crypt_cipher_init_early.
Qed.

Lemma crypt_cipher_init_resolution_witness :
  crypt_cipher_init_type "des" "cbc" 16 = inl (- ENOTSUP)
  /\ crypt_cipher_init_type "aes" "ctr" 16 = inl (- ENOTSUP)
  /\ crypt_cipher_init_type "aes" "cbc" 17 = inl (- EINVAL)
  /\ (exists t, crypt_cipher_init_type "aes" "xts" 64 = inr t
                /\ EVP_CIPHER_key_length t = 64).
Proof.
  split; [|split; [|split]].
  - destruct (crypt_cipher_init_resolution (B := Ref.backend false) "des" "cbc" 16)
      as (H & _).
    apply H. vm_compute. discriminate.
  - destruct (crypt_cipher_init_resolution (B := Ref.backend false) "aes" "ctr" 16)
      as (_ & H & _).
    apply H; reflexivity.
  - destruct (crypt_cipher_init_resolution (B := Ref.backend false) "aes" "cbc" 17)
      as (_ & _ & H & _).
    apply H; reflexivity.
  - destruct (crypt_cipher_init_resolution (B := Ref.backend false) "aes" "xts" 64)
      as (_ & _ & _ & H & _).
    apply H; reflexivity.
Defined.

(** C2 as stated fails on the mode: "aes" with the mode "ctr" returns
    -ENOTSUP, the value a cipher name other than "aes" gets, while "aes" in
    cbc with a 17-byte key returns -EINVAL; no choice of the two error
    values makes the statement true. *)
Lemma crypt_cipher_init_resolution_counterexample :
  crypt_cipher_init_type "aes" "ctr" 16 = crypt_cipher_init_type "des" "cbc" 16
  /\ crypt_cipher_init_type "aes" "ctr" 16 ≠ crypt_cipher_init_type "aes" "cbc" 17
  /\ ~ (exists unsupported_algorithm unsupported_parameters,
          resolution_as_stated unsupported_algorithm unsupported_parameters).
Proof.
  split; [reflexivity | split; [discriminate |]].
  intros (ua & up & H).
  destruct (H "aes" "ctr" 16)%string as (_ & _ & H1).
  destruct (H "aes" "cbc" 17)%string as (_ & _ & H2).
  specialize (H1 eq_refl eq_refl). specialize (H2 eq_refl eq_refl).
  vm_compute in H1, H2. congruence.
Qed.

(** ** Key derivation *)

Lemma strcmp_pbkdf2_argon2 kdf :
  c_str kdf = "pbkdf2"%string -> String.prefix "argon2" (c_str kdf) = false.
Proof. by intros ->. Qed.

(** C6, as amended.  [crypt_pbkdf] routes by the family name.  With the C
    string "pbkdf2" it looks the hash name up, returns -EINVAL when OpenSSL
    does not know it, and otherwise runs [PKCS5_PBKDF2_HMAC] on the password,
    the salt, the iteration count and the key length, each converted to
    [int]: a value up to [INT_MAX] is left as it is, an iteration count
    above [INT_MAX] arrives as the negative number 2^32 less.  It returns
    -EINVAL when that fails and 0 otherwise; the memory and parallel costs
    play no part.  With a C string that starts with "argon2" it returns what
    [argon2] returns for the family string, password, salt, key length,
    iterations, memory and parallel cost; the hash name plays no part.  Any
    other family, and a [NULL] one, returns -EINVAL and leaves the key
    buffer alone. *)
Theorem crypt_pbkdf_dispatch `{B : openssl} (kdf hash : string)
    (password : list byte) (password_length : Z) (salt : list byte) (salt_length : Z)
    (key : list byte) (key_length : Z) (iterations memory parallel : Z) :
  (c_str kdf = "pbkdf2"%string ->
     crypt_pbkdf (Some kdf) hash password password_length salt salt_length
                 key key_length iterations memory parallel
     = match EVP_get_digestbyname hash with
       | None => (- EINVAL, key)
       | Some hash_id =>
           let r := PKCS5_PBKDF2_HMAC password (to_int password_length)
                      salt (to_int salt_length) (to_int iterations) hash_id
                      (to_int key_length) key in
           (if r.1 =? 0 then - EINVAL else 0, r.2)
       end)
  /\ (String.prefix "argon2" (c_str kdf) = true ->
        crypt_pbkdf (Some kdf) hash password password_length salt salt_length
                    key key_length iterations memory parallel
        = argon2 kdf password password_length salt salt_length
                 key key_length iterations memory parallel)
  /\ (c_str kdf ≠ "pbkdf2"%string -> String.prefix "argon2" (c_str kdf) = false ->
        crypt_pbkdf (Some kdf) hash password password_length salt salt_length
                    key key_length iterations memory parallel
        = (- EINVAL, key))
  /\ crypt_pbkdf None hash password password_length salt salt_length
                 key key_length iterations memory parallel
     = (- EINVAL, key)
  /\ (0 <= iterations <= INT_MAX -> to_int iterations = iterations)
  /\ (INT_MAX < iterations < 2 ^ 32 -> to_int iterations = iterations - 2 ^ 32).
Proof.
  unfold crypt_pbkdf. rewrite strcmp_eqb by reflexivity.
  pose proof (strncmp_prefix "argon2" kdf eq_refl) as Hargon.
  change (String.length "argon2") with 6%nat in Hargon.
  split; [|split; [|split; [|split; [|split]]]].
  - intros Hk. rewrite bool_decide_eq_true_2 by done.
    destruct (EVP_get_digestbyname hash) as [hash_id|]; last done.
    destruct (PKCS5_PBKDF2_HMAC _ _ _ _ _ _ _ _) as [r key']. simpl.
    by destruct (r =? 0).
  - intros Hp. case_bool_decide as Hk.
    + by rewrite strcmp_pbkdf2_argon2 in Hp.
    + apply Hargon in Hp. by rewrite Hp.
  - intros Hk Hp. rewrite bool_decide_eq_false_2 by done.
    destruct (Z.eqb_spec (strncmp kdf "argon2" 6) 0) as [E|E]; last done.
    apply Hargon in E. congruence.
  - done.
  - intros. apply to_int_id. lia.
  - apply to_int_high.
Qed.

Lemma crypt_pbkdf_dispatch_witness :
  crypt_pbkdf (B := Ref.backend false) (Some "pbkdf2"%string) "sha256"
    [x70; x77] 2 [x73] 1 (replicate 4 x00) 4 1000 0 0
  = (0, replicate 4 x62)
  /\ crypt_pbkdf (B := Ref.backend false) (Some "argon2id"%string) "sha256"
       [x70; x77] 2 [x73] 1 (replicate 4 x00) 4 4 65536 4
     = Ref.argon2_ref false "argon2id" [x70; x77] 2 [x73] 1 (replicate 4 x00) 4 4 65536 4
  /\ crypt_pbkdf (B := Ref.backend false) (Some "unknownkdf"%string) "sha256"
       [x70; x77] 2 [x73] 1 (replicate 4 x00) 4 1000 0 0
     = (- EINVAL, replicate 4 x00)
  /\ to_int 1000 = 1000.
Proof.
  split; [|split; [|split]].
  - destruct (crypt_pbkdf_dispatch (B := Ref.backend false) "pbkdf2" "sha256"
                [x70; x77] 2 [x73] 1 (replicate 4 x00) 4 1000 0 0) as (H & _).
    rewrite H by reflexivity. vm_compute. reflexivity.
  - destruct (crypt_pbkdf_dispatch (B := Ref.backend false) "argon2id" "sha256"
                [x70; x77] 2 [x73] 1 (replicate 4 x00) 4 4 65536 4) as (_ & H & _).
    apply H. reflexivity.
  - destruct (crypt_pbkdf_dispatch (B := Ref.backend false) "unknownkdf" "sha256"
                [x70; x77] 2 [x73] 1 (replicate 4 x00) 4 1000 0 0) as (_ & _ & H & _).
    apply H; [vm_compute; discriminate | reflexivity].
  - destruct (crypt_pbkdf_dispatch (B := Ref.backend false) "pbkdf2" "sha256"
                [x70; x77] 2 [x73] 1 (replicate 4 x00) 4 1000 0 0) as (_ & _ & _ & _ & H & _).
    apply H. unfold INT_MAX. lia.
Defined.

(** The iteration count 2^31, which a [uint32_t] holds: the derivation
    with that count succeeds on the instance, but [crypt_pbkdf] hands
    OpenSSL the count -2^31, the derivation with it fails, and the call
    returns -EINVAL. *)
Lemma crypt_pbkdf_dispatch_counterexample :
  to_int (2 ^ 31) = - 2 ^ 31
  /\ @PKCS5_PBKDF2_HMAC (Ref.backend false) [x70; x77] 2 [x73] 1 (2 ^ 31) Ref.sha256 4
       (replicate 4 x00)
     = (1, replicate 4 x7a)
  /\ @PKCS5_PBKDF2_HMAC (Ref.backend false) [x70; x77] 2 [x73] 1 (- 2 ^ 31) Ref.sha256 4
       (replicate 4 x00)
     = (0, replicate 4 x00)
  /\ crypt_pbkdf (B := Ref.backend false) (Some "pbkdf2"%string) "sha256"
       [x70; x77] 2 [x73] 1 (replicate 4 x00) 4 (2 ^ 31) 0 0
     = (- EINVAL, replicate 4 x00).
Proof. repeat split; vm_compute; reflexivity. Qed.

(** ** Running a computation on a heap *)

Section Heap.
Context {B : openssl}.
Implicit Types (w : world) (l h m : loc) (p : ptr).

Lemma bind_unfold {A A'} (x : M A) (f : A -> M A') w :
  (x ≫= f) w = match x w with Some (a, w') => f a w' | None => None end.
Proof. reflexivity. Qed.

Lemma ret_unfold {A} (a : A) w : (mret a : M A) w = Some (a, w).
Proof. reflexivity. Qed.

(** An allocation either fails, leaving the heap alone, or takes an address
    that was free. *)
Lemma alloc_cases (c : cell) w :
  alloc c w = Some (None, World (heap w) (tail (alloc_plan w)))
  \/ exists l, heap w !! l = None
       /\ alloc c w = Some (Some l, World (<[l:=c]> (heap w)) (tail (alloc_plan w))).
Proof.
  unfold alloc. destruct (alloc_plan w) as [|[] plan]; simpl.
  - right. eexists. split; [apply not_elem_of_dom, is_fresh | reflexivity].
  - right. eexists. split; [apply not_elem_of_dom, is_fresh | reflexivity].
  - by left.
Qed.

Lemma alloc_succeeds (c : cell) w :
  alloc_plan w = [] ->
  exists l, heap w !! l = None /\ alloc c w = Some (Some l, World (<[l:=c]> (heap w)) []).
Proof.
  unfold alloc. intros ->. eexists. split; [apply not_elem_of_dom, is_fresh | reflexivity].
Qed.

Lemma load_eq l w c : heap w !! l = Some c -> load (Some l) w = Some (c, w).
Proof. unfold load. by intros ->. Qed.

Lemma store_eq l w c c0 :
  heap w !! l = Some c0 ->
  store (Some l) c w = Some (tt, World (<[l:=c]> (heap w)) (alloc_plan w)).
Proof. unfold store. by intros ->. Qed.

Lemma free_eq l w c0 :
  heap w !! l = Some c0 ->
  free (Some l) w = Some (tt, World (delete l (heap w)) (alloc_plan w)).
Proof. unfold free. by intros ->. Qed.

Lemma hash_at_eq l w s : heap w !! l = Some (Chash s) -> hash_at (Some l) w = Some (s, w).
Proof. intros H. unfold hash_at. by rewrite bind_unfold, (load_eq _ _ _ H). Qed.

Lemma hmac_at_eq l w s : heap w !! l = Some (Chmac s) -> hmac_at (Some l) w = Some (s, w).
Proof. intros H. unfold hmac_at. by rewrite bind_unfold, (load_eq _ _ _ H). Qed.

Lemma cipher_at_eq l w s : heap w !! l = Some (Ccipher s) -> cipher_at (Some l) w = Some (s, w).
Proof. intros H. unfold cipher_at. by rewrite bind_unfold, (load_eq _ _ _ H). Qed.

Lemma md_at_eq l w c : heap w !! l = Some (Cmd c) -> md_at (Some l) w = Some (c, w).
Proof. intros H. unfold md_at. by rewrite bind_unfold, (load_eq _ _ _ H). Qed.

Lemma mac_at_eq l w c : heap w !! l = Some (Cmac c) -> mac_at (Some l) w = Some (c, w).
Proof. intros H. unfold mac_at. by rewrite bind_unfold, (load_eq _ _ _ H). Qed.

Lemma enc_at_eq l w c : heap w !! l = Some (Cenc c) -> enc_at (Some l) w = Some (c, w).
Proof. intros H. unfold enc_at. by rewrite bind_unfold, (load_eq _ _ _ H). Qed.

Lemma set_slot_eq l w p0 p :
  heap w !! l = Some (Cslot p0) ->
  set_slot (Some l) p w = Some (tt, World (<[l:=Cslot p]> (heap w)) (alloc_plan w)).
Proof.
  intros H. unfold set_slot. rewrite bind_unfold, (load_eq _ _ _ H).
  by rewrite (store_eq _ _ _ _ H).
Qed.

Lemma EVP_MD_CTX_free_eq l w c :
  heap w !! l = Some (Cmd c) ->
  EVP_MD_CTX_free (Some l) w = Some (tt, World (delete l (heap w)) (alloc_plan w)).
Proof.
  intros H. unfold EVP_MD_CTX_free. rewrite bind_unfold, (md_at_eq _ _ _ H).
  by rewrite (free_eq _ _ _ H).
Qed.

Lemma HMAC_CTX_free_eq l w c :
  heap w !! l = Some (Cmac c) ->
  HMAC_CTX_free (Some l) w = Some (tt, World (delete l (heap w)) (alloc_plan w)).
Proof.
  intros H. unfold HMAC_CTX_free. rewrite bind_unfold, (mac_at_eq _ _ _ H).
  by rewrite (free_eq _ _ _ H).
Qed.

Lemma EVP_CIPHER_CTX_free_eq l w c :
  heap w !! l = Some (Cenc c) ->
  EVP_CIPHER_CTX_free (Some l) w = Some (tt, World (delete l (heap w)) (alloc_plan w)).
Proof.
  intros H. unfold EVP_CIPHER_CTX_free. rewrite bind_unfold, (enc_at_eq _ _ _ H).
  by rewrite (free_eq _ _ _ H).
Qed.

Lemma EVP_CIPHER_CTX_free_null w : EVP_CIPHER_CTX_free None w = Some (tt, w).
Proof. reflexivity. Qed.

(** Each primitive on a live context: the state behind the pointer takes
    the step, the result comes back. *)
Lemma EVP_DigestInit_ex_eq l w c type :
  heap w !! l = Some (Cmd c) ->
  EVP_DigestInit_ex (Some l) type w
  = Some ((digest_init c type).1,
          World (<[l:=Cmd (digest_init c type).2]> (heap w)) (alloc_plan w)).
Proof.
  intros H. unfold EVP_DigestInit_ex. rewrite bind_unfold, (md_at_eq _ _ _ H).
  destruct (digest_init c type) as [r c']. by rewrite bind_unfold, (store_eq _ _ _ _ H).
Qed.

Lemma EVP_DigestUpdate_eq l w c d cnt :
  heap w !! l = Some (Cmd c) ->
  EVP_DigestUpdate (Some l) d cnt w
  = Some ((digest_update c d cnt).1,
          World (<[l:=Cmd (digest_update c d cnt).2]> (heap w)) (alloc_plan w)).
Proof.
  intros H. unfold EVP_DigestUpdate. rewrite bind_unfold, (md_at_eq _ _ _ H).
  destruct (digest_update c d cnt) as [r c']. by rewrite bind_unfold, (store_eq _ _ _ _ H).
Qed.

Lemma EVP_DigestFinal_ex_eq l w c out :
  heap w !! l = Some (Cmd c) ->
  EVP_DigestFinal_ex (Some l) out w
  = Some (((digest_final c out).1.1.1, (digest_final c out).1.2, (digest_final c out).2),
          World (<[l:=Cmd (digest_final c out).1.1.2]> (heap w)) (alloc_plan w)).
Proof.
  intros H. unfold EVP_DigestFinal_ex. rewrite bind_unfold, (md_at_eq _ _ _ H).
  destruct (digest_final c out) as [[[r c'] out'] s].
  by rewrite bind_unfold, (store_eq _ _ _ _ H).
Qed.

Lemma HMAC_Init_ex_eq l w c key len type :
  heap w !! l = Some (Cmac c) ->
  HMAC_Init_ex (Some l) key len type w
  = Some ((hmac_init c key len type).1,
          World (<[l:=Cmac (hmac_init c key len type).2]> (heap w)) (alloc_plan w)).
Proof.
  intros H. unfold HMAC_Init_ex. rewrite bind_unfold, (mac_at_eq _ _ _ H).
  destruct (hmac_init c key len type) as [r c'].
  by rewrite bind_unfold, (store_eq _ _ _ _ H).
Qed.

Lemma HMAC_Update_eq l w c d len :
  heap w !! l = Some (Cmac c) ->
  HMAC_Update (Some l) d len w
  = Some ((hmac_update c d len).1,
          World (<[l:=Cmac (hmac_update c d len).2]> (heap w)) (alloc_plan w)).
Proof.
  intros H. unfold HMAC_Update. rewrite bind_unfold, (mac_at_eq _ _ _ H).
  destruct (hmac_update c d len) as [r c']. by rewrite bind_unfold, (store_eq _ _ _ _ H).
Qed.

Lemma HMAC_Final_eq l w c out :
  heap w !! l = Some (Cmac c) ->
  HMAC_Final (Some l) out w
  = Some (((hmac_final c out).1.1.1, (hmac_final c out).1.2, (hmac_final c out).2),
          World (<[l:=Cmac (hmac_final c out).1.1.2]> (heap w)) (alloc_plan w)).
Proof.
  intros H. unfold HMAC_Final. rewrite bind_unfold, (mac_at_eq _ _ _ H).
  destruct (hmac_final c out) as [[[r c'] out'] s].
  by rewrite bind_unfold, (store_eq _ _ _ _ H).
Qed.

Lemma EVP_EncryptInit_ex_eq l w c type key iv :
  heap w !! l = Some (Cenc c) ->
  EVP_EncryptInit_ex (Some l) type key iv w
  = Some ((encrypt_init c type key iv).1,
          World (<[l:=Cenc (encrypt_init c type key iv).2]> (heap w)) (alloc_plan w)).
Proof.
  intros H. unfold EVP_EncryptInit_ex. rewrite bind_unfold, (enc_at_eq _ _ _ H).
  destruct (encrypt_init c type key iv) as [r c'].
  by rewrite bind_unfold, (store_eq _ _ _ _ H).
Qed.

Lemma EVP_DecryptInit_ex_eq l w c type key iv :
  heap w !! l = Some (Cenc c) ->
  EVP_DecryptInit_ex (Some l) type key iv w
  = Some ((decrypt_init c type key iv).1,
          World (<[l:=Cenc (decrypt_init c type key iv).2]> (heap w)) (alloc_plan w)).
Proof.
  intros H. unfold EVP_DecryptInit_ex. rewrite bind_unfold, (enc_at_eq _ _ _ H).
  destruct (decrypt_init c type key iv) as [r c'].
  by rewrite bind_unfold, (store_eq _ _ _ _ H).
Qed.

Lemma EVP_CIPHER_CTX_set_padding_eq l w c pad :
  heap w !! l = Some (Cenc c) ->
  EVP_CIPHER_CTX_set_padding (Some l) pad w
  = Some ((set_padding c pad).1,
          World (<[l:=Cenc (set_padding c pad).2]> (heap w)) (alloc_plan w)).
Proof.
  intros H. unfold EVP_CIPHER_CTX_set_padding. rewrite bind_unfold, (enc_at_eq _ _ _ H).
  destruct (set_padding c pad) as [r c'].
  by rewrite bind_unfold, (store_eq _ _ _ _ H).
Qed.

Lemma EVP_EncryptUpdate_eq l w c out inp inl :
  heap w !! l = Some (Cenc c) ->
  EVP_EncryptUpdate (Some l) out inp inl w
  = Some (((encrypt_update c out inp inl).1.1.1, (encrypt_update c out inp inl).1.2,
           (encrypt_update c out inp inl).2),
          World (<[l:=Cenc (encrypt_update c out inp inl).1.1.2]> (heap w)) (alloc_plan w)).
Proof.
  intros H. unfold EVP_EncryptUpdate. rewrite bind_unfold, (enc_at_eq _ _ _ H).
  destruct (encrypt_update c out inp inl) as [[[r c'] out'] s].
  by rewrite bind_unfold, (store_eq _ _ _ _ H).
Qed.

Lemma EVP_DecryptUpdate_eq l w c out inp inl :
  heap w !! l = Some (Cenc c) ->
  EVP_DecryptUpdate (Some l) out inp inl w
  = Some (((decrypt_update c out inp inl).1.1.1, (decrypt_update c out inp inl).1.2,
           (decrypt_update c out inp inl).2),
          World (<[l:=Cenc (decrypt_update c out inp inl).1.1.2]> (heap w)) (alloc_plan w)).
Proof.
  intros H. unfold EVP_DecryptUpdate. rewrite bind_unfold, (enc_at_eq _ _ _ H).
  destruct (decrypt_update c out inp inl) as [[[r c'] out'] s].
  by rewrite bind_unfold, (store_eq _ _ _ _ H).
Qed.

Lemma EVP_EncryptFinal_eq l w c out off :
  heap w !! l = Some (Cenc c) ->
  0 <= off <= Z.of_nat (List.length out) ->
  EVP_EncryptFinal (Some l) out off w
  = let x := encrypt_final c (drop (Z.to_nat off) out) in
    Some ((x.1.1.1, take (Z.to_nat off) out ++ x.1.2, x.2),
          World (<[l:=Cenc x.1.1.2]> (heap w)) (alloc_plan w)).
Proof.
  intros H Hoff. unfold EVP_EncryptFinal. rewrite bind_unfold, (enc_at_eq _ _ _ H).
  destruct (Z.leb_spec 0 off); [|lia].
  destruct (Z.leb_spec off (Z.of_nat (List.length out))); [|lia]. simpl.
  destruct (encrypt_final c _) as [[[r c'] out'] s].
  by rewrite bind_unfold, (store_eq _ _ _ _ H).
Qed.

Lemma EVP_DecryptFinal_eq l w c out off :
  heap w !! l = Some (Cenc c) ->
  0 <= off <= Z.of_nat (List.length out) ->
  EVP_DecryptFinal (Some l) out off w
  = let x := decrypt_final c (drop (Z.to_nat off) out) in
    Some ((x.1.1.1, take (Z.to_nat off) out ++ x.1.2, x.2),
          World (<[l:=Cenc x.1.1.2]> (heap w)) (alloc_plan w)).
Proof.
  intros H Hoff. unfold EVP_DecryptFinal. rewrite bind_unfold, (enc_at_eq _ _ _ H).
  destruct (Z.leb_spec 0 off); [|lia].
  destruct (Z.leb_spec off (Z.of_nat (List.length out))); [|lia]. simpl.
  destruct (decrypt_final c _) as [[[r c'] out'] s].
  by rewrite bind_unfold, (store_eq _ _ _ _ H).
Qed.

End Heap.

(** Looking an address up in a heap built by updates, from the facts at hand. *)
Ltac heap_lookup :=
  cbn [heap alloc_plan];
  repeat first [ rewrite lookup_insert_eq | rewrite lookup_insert_ne by congruence
               | rewrite lookup_delete_ne by congruence ];
  first [ reflexivity | eassumption ].

(** One step of a computation whose pointers are known to be live. *)
Ltac mstep :=
  repeat first
    [ rewrite bind_unfold
    | rewrite ret_unfold
    | erewrite hash_at_eq by heap_lookup
    | erewrite hmac_at_eq by heap_lookup
    | erewrite cipher_at_eq by heap_lookup
    | erewrite set_slot_eq by heap_lookup
    | erewrite store_eq by heap_lookup
    | erewrite free_eq by heap_lookup
    | erewrite EVP_MD_CTX_free_eq by heap_lookup
    | erewrite HMAC_CTX_free_eq by heap_lookup
    | erewrite EVP_CIPHER_CTX_free_eq by heap_lookup
    | rewrite EVP_CIPHER_CTX_free_null
    | erewrite EVP_DigestInit_ex_eq by heap_lookup
    | erewrite EVP_DigestUpdate_eq by heap_lookup
    | erewrite EVP_DigestFinal_ex_eq by heap_lookup
    | erewrite HMAC_Init_ex_eq by heap_lookup
    | erewrite HMAC_Update_eq by heap_lookup
    | erewrite HMAC_Final_eq by heap_lookup
    | erewrite EVP_EncryptInit_ex_eq by heap_lookup
    | erewrite EVP_DecryptInit_ex_eq by heap_lookup
    | erewrite EVP_CIPHER_CTX_set_padding_eq by heap_lookup
    | erewrite EVP_EncryptUpdate_eq by heap_lookup
    | erewrite EVP_DecryptUpdate_eq by heap_lookup
    | progress change (1 =? 1) with true
    | progress cbn [heap alloc_plan md hash_id hash_len hmac_md hmac_hash_id
                    hmac_hash_len hd_enc hd_dec fst snd negb] ].

(** Two heaps built by updates and deletions agree at every address. *)
Ltac heap_eq :=
  apply map_eq; intros ?;
  repeat first [ rewrite lookup_delete | rewrite lookup_insert ];
  repeat case_decide; subst; congruence.

(** The [NULL] tests on the two context pointers. *)
Ltac null_checks :=
  repeat first [ rewrite bool_decide_eq_true_2 by done
               | rewrite bool_decide_eq_false_2 by done ];
  cbn [orb].

(** What a fresh address tells about the addresses already in the heap. *)
Ltac fresh_facts H :=
  cbn [heap alloc_plan] in H;
  repeat (let Hne := fresh "Hne" in apply lookup_insert_None in H as [H Hne]).

(** ** The hash engine *)

Section Hash.
Context {B : openssl}.
Implicit Types (w : world) (l h m : loc) (p : ptr).

(** [crypt_hash_init] returns on every world in which the out-parameter
    points to a pointer variable.  A failure leaves the heap as it was; a
    success adds the struct and the digest context at two addresses that
    were free and stores the struct's address through the out-parameter. *)
Lemma crypt_hash_init_spec l p0 name w :
  heap w !! l = Some (Cslot p0) ->
  exists r w', crypt_hash_init (Some l) name w = Some (r, w')
    /\ ((r ≠ 0 /\ heap w' = heap w)
        \/ (r = 0 /\ exists h m t,
              EVP_get_digestbyname name = Some t
              /\ (digest_init md_ctx_new (Some t)).1 = 1
              /\ heap w !! h = None /\ heap w !! m = None /\ h ≠ m
              /\ heap w'
                 = <[l:=Cslot (Some h)]>
                     (<[h:=Chash {| md := Some m; hash_id := Some t;
                                    hash_len := EVP_MD_size t |}]>
                        (<[m:=Cmd (digest_init md_ctx_new (Some t)).2]> (heap w))))).
Proof.
  intros Hl. unfold crypt_hash_init, malloc_crypt_hash, EVP_MD_CTX_new.
  rewrite bind_unfold.
  destruct (alloc_cases (Chash {| md := None; hash_id := None; hash_len := 0 |}) w)
    as [-> | (h & Hh & ->)].
  { eexists _, _. split; [reflexivity|]. left. by split. }
  rewrite bind_unfold.
  match goal with |- context [alloc ?c ?w0] =>
    destruct (alloc_cases c w0) as [-> | (m & Hm & ->)] end.
  { unfold set_md. mstep. eexists _, _. split; [reflexivity|]. left.
    split; [done | cbn; heap_eq]. }
  fresh_facts Hm.
  unfold set_md, set_hash_id. mstep.
  destruct (EVP_get_digestbyname name) as [t|].
  2:{ mstep. eexists _, _. split; [reflexivity|]. left.
      split; [done | cbn; heap_eq]. }
  mstep. destruct (Z.eqb_spec (digest_init md_ctx_new (Some t)).1 1) as [E|E]; mstep.
  2:{ eexists _, _. split; [reflexivity|]. left.
      split; [done | cbn; heap_eq]. }
  unfold set_hash_len. mstep.
  assert (l ≠ h) by congruence. assert (l ≠ m) by congruence.
  mstep. eexists _, _. split; [reflexivity|]. right. split; [done|].
  exists h, m, t. repeat split; try done. cbn. heap_eq.
Qed.

Lemma crypt_hash_write_eq w h m s c buffer length :
  hash_ctx w h m s c ->
  crypt_hash_write (Some h) buffer length w
  = Some (if (digest_update c buffer length).1 =? 1 then 0 else - EINVAL,
          World (<[m:=Cmd (digest_update c buffer length).2]> (heap w)) (alloc_plan w)).
Proof.
  intros (Hh & Hm & Hc). unfold crypt_hash_write. mstep. rewrite Hm. mstep.
  by destruct (_ =? 1).
Qed.

Lemma crypt_hash_restart_eq w h m s c :
  hash_ctx w h m s c ->
  crypt_hash_restart (Some h) w
  = Some (if (digest_init c (hash_id s)).1 =? 1 then 0 else - EINVAL,
          World (<[m:=Cmd (digest_init c (hash_id s)).2]> (heap w)) (alloc_plan w)).
Proof.
  intros (Hh & Hm & Hc). unfold crypt_hash_restart. mstep. rewrite Hm. mstep.
  by destruct (_ =? 1).
Qed.

(** [crypt_hash_final] on a live context, path by path. *)
Lemma crypt_hash_final_eq w h m s c buffer length tmp :
  hash_ctx w h m s c ->
  crypt_hash_final (Some h) buffer length tmp w
  = if length >? to_size_t (hash_len s) then Some ((- EINVAL, buffer, tmp), w) else
    let x := digest_final c tmp in
    let w1 := World (<[m:=Cmd x.1.1.2]> (heap w)) (alloc_plan w) in
    if negb (x.1.1.1 =? 1) then Some ((- EINVAL, buffer, x.1.2), w1) else
    match memcpy buffer x.1.2 length with
    | None => None
    | Some buffer' =>
        let zeroed := crypt_backend_memzero x.1.2 (sizeof x.1.2) in
        if x.2 <? length then Some ((- EINVAL, buffer', zeroed), w1) else
        let y := digest_init x.1.1.2 (hash_id s) in
        Some ((if y.1 =? 1 then 0 else - EINVAL, buffer', zeroed),
              World (<[m:=Cmd y.2]> (heap w)) (alloc_plan w))
    end.
Proof.
  intros (Hh & Hm & Hc). unfold crypt_hash_final. mstep.
  destruct (length >? to_size_t (hash_len s)); first done.
  rewrite Hm. mstep.
  destruct (digest_final c tmp) as [[[r c1] tmp1] n]. cbn [fst snd].
  destruct (r =? 1); mstep; last done.
  destruct (memcpy buffer tmp1 length) as [buffer'|]; last done.
  cbn [lift]. mstep.
  destruct (n <? length); first done.
  assert (h ≠ m) by (intros ->; congruence).
  rewrite bind_unfold. erewrite crypt_hash_restart_eq; last first.
  { repeat split; [heap_lookup | done | heap_lookup]. }
  cbn [heap alloc_plan]. rewrite insert_insert_eq.
  by destruct (_ =? 1).
Qed.

End Hash.

(** ** The HMAC engine *)

Section Hmac.
Context {B : openssl}.
Implicit Types (w : world) (l h m : loc) (p : ptr).

Lemma crypt_hmac_init_spec l p0 name key key_length w :
  heap w !! l = Some (Cslot p0) ->
  exists r w', crypt_hmac_init (Some l) name key key_length w = Some (r, w')
    /\ ((r ≠ 0 /\ heap w' = heap w)
        \/ (r = 0 /\ exists h m t,
              EVP_get_digestbyname name = Some t
              /\ heap w !! h = None /\ heap w !! m = None /\ h ≠ m
              /\ heap w'
                 = <[l:=Cslot (Some h)]>
                     (<[h:=Chmac {| hmac_md := Some m; hmac_hash_id := Some t;
                                    hmac_hash_len := EVP_MD_size t |}]>
                        (<[m:=Cmac (hmac_init hmac_ctx_new key (to_int key_length)
                                      (Some t)).2]> (heap w))))).
Proof.
  intros Hl. unfold crypt_hmac_init, malloc_crypt_hmac, HMAC_CTX_new.
  rewrite bind_unfold.
  match goal with |- context [alloc ?c ?w0] =>
    destruct (alloc_cases c w0) as [-> | (h & Hh & ->)] end.
  { eexists _, _. split; [reflexivity|]. left. by split. }
  rewrite bind_unfold.
  match goal with |- context [alloc ?c ?w0] =>
    destruct (alloc_cases c w0) as [-> | (m & Hm & ->)] end.
  { unfold set_hmac_md. mstep. eexists _, _. split; [reflexivity|]. left.
    split; [done | cbn; heap_eq]. }
  fresh_facts Hm.
  unfold set_hmac_md, set_hmac_hash_id. mstep.
  destruct (EVP_get_digestbyname name) as [t|].
  2:{ mstep. eexists _, _. split; [reflexivity|]. left.
      split; [done | cbn; heap_eq]. }
  unfold set_hmac_hash_len. mstep.
  assert (l ≠ h) by congruence. assert (l ≠ m) by congruence.
  mstep. eexists _, _. split; [reflexivity|]. right. split; [done|].
  exists h, m, t. repeat split; try done. cbn. heap_eq.
Qed.

(** Whatever [HMAC_Update] returns, [crypt_hmac_write] returns 0. *)
Lemma crypt_hmac_write_eq w h m s c buffer length :
  hmac_ctx w h m s c ->
  crypt_hmac_write (Some h) buffer length w
  = Some (0, World (<[m:=Cmac (hmac_update c buffer length).2]> (heap w)) (alloc_plan w)).
Proof.
  intros (Hh & Hm & Hc). unfold crypt_hmac_write. mstep. rewrite Hm. by mstep.
Qed.

Lemma crypt_hmac_restart_eq w h m s c :
  hmac_ctx w h m s c ->
  crypt_hmac_restart (Some h) w
  = Some (tt, World (<[m:=Cmac (hmac_init c None 0 (hmac_hash_id s)).2]> (heap w))
                    (alloc_plan w)).
Proof.
  intros (Hh & Hm & Hc). unfold crypt_hmac_restart. mstep. rewrite Hm. by mstep.
Qed.

Lemma crypt_hmac_final_eq w h m s c buffer length tmp :
  hmac_ctx w h m s c ->
  crypt_hmac_final (Some h) buffer length tmp w
  = if length >? to_size_t (hmac_hash_len s) then Some ((- EINVAL, buffer, tmp), w) else
    let x := hmac_final c tmp in
    match memcpy buffer x.1.2 length with
    | None => None
    | Some buffer' =>
        let zeroed := crypt_backend_memzero x.1.2 (sizeof x.1.2) in
        if x.2 <? length
        then Some ((- EINVAL, buffer', zeroed),
                   World (<[m:=Cmac x.1.1.2]> (heap w)) (alloc_plan w))
        else Some ((0, buffer', zeroed),
                   World (<[m:=Cmac (hmac_init x.1.1.2 None 0 (hmac_hash_id s)).2]> (heap w))
                         (alloc_plan w))
    end.
Proof.
  intros (Hh & Hm & Hc). unfold crypt_hmac_final. mstep.
  destruct (length >? to_size_t (hmac_hash_len s)); first done.
  rewrite Hm. mstep.
  destruct (hmac_final c tmp) as [[[r c1] tmp1] n]. cbn [fst snd].
  destruct (memcpy buffer tmp1 length) as [buffer'|]; last done.
  cbn [lift]. mstep.
  destruct (n <? length); first done.
  assert (h ≠ m) by (intros ->; congruence).
  rewrite bind_unfold. erewrite crypt_hmac_restart_eq; last first.
  { repeat split; [heap_lookup | done | heap_lookup]. }
  cbn [heap alloc_plan]. by rewrite insert_insert_eq.
Qed.

End Hmac.

(** ** The cipher engine *)

Section Cipher.
Context {B : openssl}.
Implicit Types (w : world) (l h e d : loc) (p : ptr).

(** Teardown of a session whose two context pointers are each [NULL] or
    live, and distinct when both are live. *)
Lemma crypt_cipher_destroy_eq w h pe pd :
  heap w !! h = Some (Ccipher {| hd_enc := pe; hd_dec := pd |}) ->
  cipher_ctx_or_null w pe -> cipher_ctx_or_null w pd ->
  (pe = None \/ pe ≠ pd) ->
  crypt_cipher_destroy (Some h) w
  = Some (tt, World (delete h (delete_ptr pd (delete_ptr pe (heap w)))) (alloc_plan w)).
Proof.
  intros Hh He Hd Hne. unfold crypt_cipher_destroy. mstep.
  destruct pe as [e|], pd as [d|]; simpl in He, Hd.
  - destruct He as [ce He], Hd as [cd Hd].
    assert (e ≠ d) by (destruct Hne; congruence).
    assert (h ≠ e) by congruence. assert (h ≠ d) by congruence.
    by mstep.
  - destruct He as [ce He]. assert (h ≠ e) by congruence. by mstep.
  - destruct Hd as [cd Hd]. assert (h ≠ d) by congruence. by mstep.
  - by mstep.
Qed.

Lemma crypt_cipher_destroy_null w : crypt_cipher_destroy None w = Some (tt, w).
Proof. reflexivity. Qed.


Lemma crypt_cipher_init_type_error name mode key_length r :
  crypt_cipher_init_type name mode key_length = inl r -> r = - ENOTSUP \/ r = - EINVAL.
Proof.
  rewrite crypt_cipher_init_type_cases.
  repeat case_match; intros [= <-]; auto.
Qed.

(** A failing path of [crypt_cipher_init]: teardown, then the heap is back. *)
Ltac failed_init :=
    rewrite ?bind_unfold;
    erewrite crypt_cipher_destroy_eq;
      [ | heap_lookup
        | first [ exact I | eexists; heap_lookup ]
        | first [ exact I | eexists; heap_lookup ]
        | first [ by left | right; congruence ] ];
    mstep; eexists _, _; (split; [reflexivity|]); left;
    (split; [done | cbn [heap alloc_plan delete_ptr]; heap_eq]).

(** [crypt_cipher_init] returns on every world in which the out-parameter
    points to a pointer variable.  A failure leaves the heap as it was:
    whatever was allocated has been released.  A success adds the session
    and its two contexts, each keyed and with padding set off, at three
    addresses that were free. *)
Lemma crypt_cipher_init_spec l p0 name mode key key_length w :
  heap w !! l = Some (Cslot p0) ->
  exists r w', crypt_cipher_init (Some l) name mode key key_length w = Some (r, w')
    /\ ((r ≠ 0 /\ heap w' = heap w)
        \/ (r = 0 /\ exists h e d t,
              crypt_cipher_init_type name mode key_length = inr t
              /\ heap w !! h = None /\ heap w !! e = None /\ heap w !! d = None
              /\ h ≠ e /\ h ≠ d /\ e ≠ d
              /\ (encrypt_init cipher_ctx_new (Some t) key None).1 = 1
              /\ (decrypt_init cipher_ctx_new (Some t) key None).1 = 1
              /\ (set_padding (encrypt_init cipher_ctx_new (Some t) key None).2 0).1 = 1
              /\ (set_padding (decrypt_init cipher_ctx_new (Some t) key None).2 0).1 = 1
              /\ heap w'
                 = <[l:=Cslot (Some h)]>
                     (<[h:=Ccipher {| hd_enc := Some e; hd_dec := Some d |}]>
                        (<[e:=Cenc (set_padding
                                      (encrypt_init cipher_ctx_new (Some t) key None).2 0).2]>
                           (<[d:=Cenc (set_padding
                                         (decrypt_init cipher_ctx_new (Some t) key None).2
                                         0).2]>
                              (heap w)))))).
Proof.
  intros Hl. unfold crypt_cipher_init.
  destruct (crypt_cipher_init_type name mode key_length) as [r|t] eqn:Et.
  { eexists _, _. split; [reflexivity|]. left. split; [|done].
    apply crypt_cipher_init_type_error in Et as [-> | ->]; done. }
  unfold malloc_crypt_cipher, EVP_CIPHER_CTX_new. rewrite bind_unfold.
  match goal with |- context [alloc ?c ?w0] =>
    destruct (alloc_cases c w0) as [-> | (h & Hh & ->)] end.
  { eexists _, _. split; [reflexivity|]. left. by split. }
  mstep.
  match goal with |- context [alloc ?c ?w0] =>
    destruct (alloc_cases c w0) as [-> | (e & He & ->)] end.
  - (* no encrypt context *)
    unfold set_hd_enc. mstep.
    match goal with |- context [alloc ?c ?w0] =>
      destruct (alloc_cases c w0) as [-> | (d & Hd & ->)] end.
    + unfold set_hd_dec. mstep. null_checks. failed_init.
    + fresh_facts Hd. unfold set_hd_dec. mstep. null_checks. failed_init.
  - fresh_facts He. unfold set_hd_enc. mstep.
    match goal with |- context [alloc ?c ?w0] =>
      destruct (alloc_cases c w0) as [-> | (d & Hd & ->)] end.
    + (* no decrypt context *)
      unfold set_hd_dec. mstep. null_checks. failed_init.
    + fresh_facts Hd. unfold set_hd_dec. mstep. null_checks. mstep.
      destruct (Z.eqb_spec (encrypt_init cipher_ctx_new (Some t) key None).1 1) as [E1|E1];
        mstep; [|failed_init].
      destruct (Z.eqb_spec (decrypt_init cipher_ctx_new (Some t) key None).1 1) as [E2|E2];
        mstep; [|failed_init].
      destruct (Z.eqb_spec
                  (set_padding (encrypt_init cipher_ctx_new (Some t) key None).2 0).1 1)
        as [E3|E3]; mstep; [|failed_init].
      destruct (Z.eqb_spec
                  (set_padding (decrypt_init cipher_ctx_new (Some t) key None).2 0).1 1)
        as [E4|E4]; mstep; [|failed_init].
      assert (l ≠ h) by congruence. assert (l ≠ e) by congruence.
      assert (l ≠ d) by congruence.
      mstep. eexists _, _. split; [reflexivity|]. right. split; [done|].
      exists h, e, d, t. repeat split; try done. cbn. heap_eq.
Qed.

End Cipher.

(** ** Buffers *)

Lemma crypt_backend_memzero_all (buf : list byte) :
  crypt_backend_memzero buf (sizeof buf) = replicate (List.length buf) x00.
Proof.
  unfold crypt_backend_memzero, sizeof. rewrite Nat2Z.id, Nat.min_id.
  by rewrite drop_all, app_nil_r.
Qed.

Lemma crypt_backend_memzero_all_zero (buf : list byte) :
  all_zero (crypt_backend_memzero buf (sizeof buf)).
Proof.
  rewrite crypt_backend_memzero_all. unfold all_zero. by rewrite length_replicate.
Qed.

Lemma memcpy_eq (dst src : list byte) (n : Z) :
  0 <= n -> n <= Z.of_nat (List.length src) -> n <= Z.of_nat (List.length dst) ->
  memcpy dst src n = Some (take (Z.to_nat n) src ++ drop (Z.to_nat n) dst).
Proof.
  intros. unfold memcpy.
  destruct (Z.leb_spec 0 n); [|lia].
  destruct (Z.leb_spec n (Z.of_nat (List.length src))); [|lia].
  destruct (Z.leb_spec n (Z.of_nat (List.length dst))); [|lia]. done.
Qed.

Lemma memcpy_length (dst src dst' : list byte) (n : Z) :
  memcpy dst src n = Some dst' -> List.length dst' = List.length dst.
Proof.
  unfold memcpy.
  destruct (Z.leb_spec 0 n); [|done].
  destruct (Z.leb_spec n (Z.of_nat (List.length src))); [|done].
  destruct (Z.leb_spec n (Z.of_nat (List.length dst))); [|done]. simpl.
  intros [= <-]. rewrite length_app, length_take, length_drop. lia.
Qed.

(** ** The hash engine over a correct OpenSSL *)

Section HashContract.
Context `{DC : digest_contract}.
Implicit Types (w : world) (l h m : loc) (t : EVP_MD).

Lemma digest_size_size_t t : to_size_t (EVP_MD_size t) = EVP_MD_size t.
Proof.
  pose proof (digest_size_range t). unfold EVP_MAX_MD_SIZE in *.
  apply to_size_t_id. lia.
Qed.

Lemma hash_state_ctx w h t msg :
  hash_state w h t msg ->
  exists m, hash_ctx w h m {| md := Some m; hash_id := Some t; hash_len := EVP_MD_size t |}
              (md_absorbed t msg).
Proof. intros (m & Hh & Hm). exists m. by repeat split. Qed.

Lemma crypt_hash_init_ok l name w w' :
  crypt_hash_init (Some l) name w = Some (0, w') ->
  (exists p0, heap w !! l = Some (Cslot p0)) ->
  exists h t, EVP_get_digestbyname name = Some t
    /\ heap w' !! l = Some (Cslot (Some h))
    /\ hash_state w' h t [].
Proof.
  intros Hrun [p0 Hl].
  destruct (crypt_hash_init_spec l p0 name w Hl) as (r & w1 & Hrun' & Hcases).
  rewrite Hrun in Hrun'. injection Hrun' as <- <-.
  destruct Hcases as [[? _] | (_ & h & m & t & Ht & _ & Hh & Hm & Hne & Hw)]; first done.
  assert (l ≠ h) by congruence. assert (l ≠ m) by congruence.
  exists h, t. unfold hash_state. rewrite Hw, digest_init_ok.
  split; [done|]. split; [heap_lookup|]. exists m. split; heap_lookup.
Qed.

Lemma crypt_hash_write_ok w h t msg buffer length :
  hash_state w h t msg ->
  0 <= length <= Z.of_nat (List.length buffer) ->
  exists w', crypt_hash_write (Some h) buffer length w = Some (0, w')
    /\ hash_state w' h t (msg ++ take (Z.to_nat length) buffer).
Proof.
  intros Hs Hlen. destruct (hash_state_ctx _ _ _ _ Hs) as (m & Hctx).
  rewrite (crypt_hash_write_eq _ _ _ _ _ _ _ Hctx), digest_update_ok by done.
  eexists. split; [reflexivity|]. destruct Hctx as (Hh & _ & Hm).
  exists m. assert (h ≠ m) by (intros ->; congruence). split; heap_lookup.
Qed.


Lemma crypt_hash_final_ok w h t msg buffer length tmp :
  hash_state w h t msg ->
  0 <= length <= EVP_MD_size t ->
  length <= Z.of_nat (List.length buffer) ->
  sizeof tmp = EVP_MAX_MD_SIZE ->
  exists w',
    crypt_hash_final (Some h) buffer length tmp w
    = Some ((0, take (Z.to_nat length) (digest_of t msg) ++ drop (Z.to_nat length) buffer,
             replicate (List.length tmp) x00), w')
    /\ hash_state w' h t [].
Proof.
  intros Hs Hlen Hbuf Htmp. destruct (hash_state_ctx _ _ _ _ Hs) as (m & Hctx).
  rewrite (crypt_hash_final_eq _ _ _ _ _ _ _ _ Hctx). cbn [hash_len hash_id].
  rewrite digest_size_size_t. destruct (Z.gtb_spec length (EVP_MD_size t)); [lia|].
  pose proof (digest_size_range t) as Hrange.
  pose proof (digest_of_length t msg) as Hdlen.
  unfold sizeof in Htmp.
  destruct (digest_final_ok t msg tmp) as (c1 & ->); [lia|]. cbn [fst snd negb Z.eqb].
  set (tmp1 := digest_of t msg ++ drop (Z.to_nat (EVP_MD_size t)) tmp).
  assert (Hlen1 : List.length tmp1 = List.length tmp).
  { unfold tmp1. rewrite length_app, length_drop. lia. }
  rewrite memcpy_eq by lia.
  rewrite crypt_backend_memzero_all, Hlen1.
  destruct (Z.ltb_spec (EVP_MD_size t) length); [lia|].
  rewrite digest_init_ok. cbn [fst snd Z.eqb].
  eexists. split.
  - unfold tmp1. rewrite take_app_le by lia. reflexivity.
  - destruct Hctx as (Hh & _ & Hm). exists m.
    assert (h ≠ m) by (intros ->; congruence). split; heap_lookup.
Qed.

(** With every allocation succeeding and a digest name OpenSSL knows,
    [crypt_hash_init] returns 0. *)
Lemma crypt_hash_init_succeeds l p0 name t w :
  heap w !! l = Some (Cslot p0) -> alloc_plan w = [] ->
  EVP_get_digestbyname name = Some t ->
  exists w', crypt_hash_init (Some l) name w = Some (0, w').
Proof.
  intros Hl Hplan Ht. unfold crypt_hash_init, malloc_crypt_hash, EVP_MD_CTX_new.
  rewrite bind_unfold.
  match goal with |- context [alloc ?c ?w0] =>
    destruct (alloc_succeeds c w0 Hplan) as (h & Hh & ->) end.
  rewrite bind_unfold.
  match goal with |- context [alloc ?c ?w0] =>
    destruct (alloc_succeeds c w0 eq_refl) as (m & Hm & ->) end.
  fresh_facts Hm. unfold set_md, set_hash_id. mstep. rewrite Ht. mstep.
  rewrite digest_init_ok. mstep. unfold set_hash_len. mstep.
  assert (l ≠ h) by congruence. assert (l ≠ m) by congruence.
  mstep. eexists. reflexivity.
Qed.

End HashContract.

(** ** The HMAC engine over a correct OpenSSL *)

Section HmacContract.
Context `{HC : hmac_contract}.
Implicit Types (w : world) (l h m : loc) (t : EVP_MD).








Lemma crypt_hmac_init_succeeds l p0 name t key key_length w :
  heap w !! l = Some (Cslot p0) -> alloc_plan w = [] ->
  EVP_get_digestbyname name = Some t ->
  exists w', crypt_hmac_init (Some l) name key key_length w = Some (0, w').
Proof.
  intros Hl Hplan Ht. unfold crypt_hmac_init, malloc_crypt_hmac, HMAC_CTX_new.
  rewrite bind_unfold.
  match goal with |- context [alloc ?c ?w0] =>
    destruct (alloc_succeeds c w0 Hplan) as (h & Hh & ->) end.
  rewrite bind_unfold.
  match goal with |- context [alloc ?c ?w0] =>
    destruct (alloc_succeeds c w0 eq_refl) as (m & Hm & ->) end.
  fresh_facts Hm. unfold set_hmac_md, set_hmac_hash_id. mstep. rewrite Ht. mstep.
  unfold set_hmac_hash_len. mstep.
  assert (l ≠ h) by congruence. assert (l ≠ m) by congruence.
  mstep. eexists. reflexivity.
Qed.

End HmacContract.

(** ** The cipher engine over a correct OpenSSL *)

Section CipherContract.
Context `{CC : cipher_contract}.
Implicit Types (w : world) (l h e d : loc) (t : EVP_CIPHER).

Lemma crypt_cipher_encrypt_ok w h t k inp out length iv iv_length :
  cipher_session w h t k ->
  EVP_CIPHER_iv_length t <= Z.of_nat (List.length iv) ->
  0 <= length <= Z.of_nat (List.length inp) ->
  length <= Z.of_nat (List.length out) ->
  length mod AES_BLOCK_SIZE = 0 -> length <= INT_MAX ->
  exists w',
    crypt_cipher_encrypt (Some h) inp out length (Some iv) iv_length w
    = Some ((0, cipher_enc t k (take (Z.to_nat (EVP_CIPHER_iv_length t)) iv)
                   (take (Z.to_nat length) inp)
                 ++ drop (Z.to_nat length) out), w')
    /\ cipher_session w' h t k.
Proof.
  intros (e & d & ce & cd & Hh & Hne & He & Hd & Ke & Kd) Hiv Hinp Hout Hblk Hint.
  assert (h ≠ e) by (intros ->; congruence).
  assert (h ≠ d) by (intros ->; congruence).
  unfold crypt_cipher_encrypt. mstep.
  destruct (encrypt_init_iv _ _ _ _ Ke Hiv) as (c1 & -> & P1). mstep.
  rewrite to_int_id by (unfold INT_MAX in *; lia).
  destruct (encrypt_update_blocks _ _ _ _ out inp length P1 Hinp Hout Hblk)
    as (c2 & -> & K2).
  mstep. cbn [Z.eqb].
  set (out1 := cipher_enc _ _ _ _ ++ _).
  assert (Hlen1 : List.length out1 = List.length out).
  { unfold out1. rewrite length_app, cipher_enc_length, length_take, length_drop. lia. }
  erewrite EVP_EncryptFinal_eq; [| heap_lookup | lia].
  destruct (encrypt_final_empty _ _ _ (drop (Z.to_nat length) out1) K2) as (c3 & -> & K3).
  cbn zeta. mstep. rewrite take_drop.
  eexists. split; [reflexivity|].
  exists e, d, c3, cd. repeat split; try done; heap_lookup.
Qed.

Lemma crypt_cipher_decrypt_ok w h t k inp out length iv iv_length :
  cipher_session w h t k ->
  EVP_CIPHER_iv_length t <= Z.of_nat (List.length iv) ->
  0 <= length <= Z.of_nat (List.length inp) ->
  length <= Z.of_nat (List.length out) ->
  length mod AES_BLOCK_SIZE = 0 -> length <= INT_MAX ->
  exists w',
    crypt_cipher_decrypt (Some h) inp out length (Some iv) iv_length w
    = Some ((0, cipher_dec t k (take (Z.to_nat (EVP_CIPHER_iv_length t)) iv)
                   (take (Z.to_nat length) inp)
                 ++ drop (Z.to_nat length) out), w')
    /\ cipher_session w' h t k.
Proof.
  intros (e & d & ce & cd & Hh & Hne & He & Hd & Ke & Kd) Hiv Hinp Hout Hblk Hint.
  assert (h ≠ e) by (intros ->; congruence).
  assert (h ≠ d) by (intros ->; congruence).
  unfold crypt_cipher_decrypt. mstep.
  destruct (decrypt_init_iv _ _ _ _ Kd Hiv) as (c1 & -> & P1). mstep.
  rewrite to_int_id by (unfold INT_MAX in *; lia).
  destruct (decrypt_update_blocks _ _ _ _ out inp length P1 Hinp Hout Hblk)
    as (c2 & -> & K2).
  mstep. cbn [Z.eqb].
  set (out1 := cipher_dec _ _ _ _ ++ _).
  assert (Hlen1 : List.length out1 = List.length out).
  { unfold out1. rewrite length_app, cipher_dec_length, length_take, length_drop. lia. }
  erewrite EVP_DecryptFinal_eq; [| heap_lookup | lia].
  destruct (decrypt_final_empty _ _ _ (drop (Z.to_nat length) out1) K2) as (c3 & -> & K3).
  cbn zeta. mstep. rewrite take_drop.
  eexists. split; [reflexivity|].
  exists e, d, ce, c3. repeat split; try done; heap_lookup.
Qed.

End CipherContract.

(** ** The executable instance keeps OpenSSL's promises *)

Module RefFacts.
Import Ref.

Lemma md_size_range t : 0 <= md_size t <= EVP_MAX_MD_SIZE.
Proof. unfold EVP_MAX_MD_SIZE. destruct t; simpl; lia. Qed.

Lemma digest_length t m : Z.of_nat (List.length (digest t m)) = md_size t.
Proof.
  unfold digest. pose proof (md_size_range t).
  rewrite length_take. cbn [List.length]. rewrite length_app, length_replicate. lia.
Qed.

Lemma hmac_length t k m : Z.of_nat (List.length (hmac t k m)) = md_size t.
Proof.
  unfold hmac. pose proof (md_size_range t).
  rewrite length_take. cbn [List.length]. rewrite length_app, length_replicate. lia.
Qed.

Lemma Z_of_byte_range b : 0 <= Z_of_byte b < 256.
Proof. unfold Z_of_byte. pose proof (Byte.to_N_bounded b). lia. Qed.

Lemma byte_of_Z_of_byte b : byte_of_Z (Z_of_byte b) = b.
Proof.
  unfold byte_of_Z. rewrite Z.mod_small by apply Z_of_byte_range.
  unfold Z_of_byte. by rewrite N2Z.id, Byte.of_to_N.
Qed.

Lemma Z_of_byte_of_Z z : Z_of_byte (byte_of_Z z) = z mod 256.
Proof.
  unfold byte_of_Z, Z_of_byte.
  pose proof (Z.mod_pos_bound z 256 eq_refl) as Hz.
  destruct (Byte.of_N (Z.to_N (z mod 256))) as [b|] eqn:E.
  - apply Byte.to_of_N in E. simpl. rewrite E. lia.
  - apply Byte.of_N_None_iff in E. lia.
Qed.

Lemma byte_of_Z_mod z : byte_of_Z (z mod 256) = byte_of_Z z.
Proof. unfold byte_of_Z. by rewrite Z.mod_mod. Qed.

Lemma dec_enc t k iv p : dec t k iv (enc t k iv p) = p.
Proof.
  unfold dec, enc. rewrite <- list_fmap_compose.
  rewrite <- (list_fmap_id p) at 2. apply list_fmap_ext. intros _ b _. simpl.
  rewrite Z_of_byte_of_Z, <- byte_of_Z_mod, Zminus_mod_idemp_l.
  replace (Z_of_byte b + shift t k iv - shift t k iv) with (Z_of_byte b) by lia.
  by rewrite byte_of_Z_mod, byte_of_Z_of_byte.
Qed.

Lemma whole_blocks (n : Z) :
  0 <= n -> n mod AES_BLOCK_SIZE = 0 -> (Z.to_nat n / 16 * 16)%nat = Z.to_nat n.
Proof.
  unfold AES_BLOCK_SIZE. intros Hn Hmod.
  assert (Z.of_nat (Z.to_nat n / 16 * 16) = n); [|lia].
  rewrite Nat2Z.inj_mul, Nat2Z.inj_div, Z2Nat.id by done.
  change (Z.of_nat 16) with 16. pose proof (Z.div_mod n 16). lia.
Qed.

Lemma cipher_update_blocks d t k iv c out inp n :
  primed d t k iv c ->
  0 <= n <= Z.of_nat (List.length inp) -> n <= Z.of_nat (List.length out) ->
  n mod AES_BLOCK_SIZE = 0 ->
  exists c', cipher_update false d c out inp n =
    (1, c', (if d then dec else enc) t k iv (take (Z.to_nat n) inp)
            ++ drop (Z.to_nat n) out, n)
    /\ keyed d t k false c'.
Proof.
  intros ((Ht & Hk & Hd & Hp & Hpend) & Hiv) Hinp Hout Hblk.
  unfold cipher_update. rewrite Ht, Hk, Hd, Hpend, Hiv.
  destruct (Z.ltb_spec n 0); [lia|]. rewrite bool_decide_eq_true_2 by done.
  cbn [orb negb app code].
  assert (List.length (take (Z.to_nat n) inp) = Z.to_nat n) as Hlen
    by (rewrite length_take; lia).
  rewrite Hlen, whole_blocks by lia.
  rewrite take_take, Nat.min_id, (drop_ge (take _ _)), Z2Nat.id by lia.
  eexists. split; [reflexivity|]. by repeat split.
Qed.

Lemma cipher_final_empty d t k c rest :
  keyed d t k false c ->
  exists c', cipher_final false d c rest = (1, c', rest, 0) /\ keyed d t k false c'.
Proof.
  intros (Ht & Hk & Hd & Hp & Hpend). unfold cipher_final.
  rewrite Hp, Hpend, Hd, !bool_decide_eq_true_2 by done.
  exists c. by repeat split.
Qed.

#[global] Instance digest_laws : @digest_contract (backend false).
Proof.
  refine (@Build_digest_contract (backend false) digest md_absorbed _ _ _ _ _).
  - exact md_size_range.
  - exact digest_length.
  - reflexivity.
  - reflexivity.
  - intros. eexists. reflexivity.
Defined.

#[global] Instance hmac_laws : @hmac_contract (backend false).
Proof.
  refine (@Build_hmac_contract (backend false) hmac mac_absorbed _ _ _ _ _).
  - exact md_size_range.
  - exact hmac_length.
  - reflexivity.
  - reflexivity.
  - intros t k m out _. eexists. split; [reflexivity|].
    cbn. unfold mac_init. cbn. by rewrite bool_decide_eq_true_2.
Defined.

#[global] Instance cipher_laws : @cipher_contract (backend false).
Proof.
  refine (@Build_cipher_contract (backend false) enc dec keyed primed
            _ _ _ _ _ _ _ _ _ _ _ _).
  - intros. unfold enc. by rewrite length_map.
  - intros. unfold dec. by rewrite length_map.
  - intros. apply dec_enc.
  - intros. eexists. split; [reflexivity|]. by repeat split.
  - intros. eexists. split; [reflexivity|]. by repeat split.
  - intros d t k pad c (Ht & Hk & Hd & Hp & Hpend).
    eexists. split; [reflexivity|]. by repeat split.
  - intros t k c iv (Ht & Hk & Hd & Hp & Hpend) _. cbn. unfold cipher_init.
    rewrite Ht. eexists. split; [reflexivity|]. by repeat split.
  - intros t k c iv (Ht & Hk & Hd & Hp & Hpend) _. cbn. unfold cipher_init.
    rewrite Ht. eexists. split; [reflexivity|]. by repeat split.
  - intros. by apply (cipher_update_blocks false).
  - intros. by apply (cipher_update_blocks true).
  - intros. by apply (cipher_final_empty false).
  - intros. by apply (cipher_final_empty true).
Defined.

End RefFacts.

(** * Properties of the wrappers *)

(** ** Out-parameters and teardown *)

(** C10.  Each of the three init functions, called with an out-parameter
    that points to a pointer variable, returns; when it returns an error
    the heap is what it was before the call, so the caller's variable still
    holds what it held; when it returns 0 the variable holds the address of
    the new struct, an address that was free before the call. *)
Theorem crypt_init_out_parameter `{B : openssl} (l : loc) (p0 : ptr) (w : world)
    (name mode : string) (key : option (list byte)) (key_length : Z) :
  heap w !! l = Some (Cslot p0) ->
  (exists r w', crypt_hash_init (Some l) name w = Some (r, w')
     /\ (r ≠ 0 -> heap w' !! l = Some (Cslot p0) /\ heap w' = heap w)
     /\ (r = 0 -> exists h, heap w' !! l = Some (Cslot (Some h)) /\ heap w !! h = None))
  /\ (exists r w', crypt_hmac_init (Some l) name key key_length w = Some (r, w')
        /\ (r ≠ 0 -> heap w' !! l = Some (Cslot p0) /\ heap w' = heap w)
        /\ (r = 0 -> exists h, heap w' !! l = Some (Cslot (Some h)) /\ heap w !! h = None))
  /\ (exists r w', crypt_cipher_init (Some l) name mode key key_length w = Some (r, w')
        /\ (r ≠ 0 -> heap w' !! l = Some (Cslot p0) /\ heap w' = heap w)
        /\ (r = 0 -> exists h, heap w' !! l = Some (Cslot (Some h)) /\ heap w !! h = None)).
Proof.
  intros Hl. split; [|split].
  - destruct (crypt_hash_init_spec l p0 name w Hl) as (r & w' & Hrun & Hcases).
    exists r, w'. split; [done|].
    destruct Hcases as [[Hr Hw] | (-> & h & m & t & _ & _ & Hh & _ & _ & Hw)].
    + split; [intros _; by rewrite Hw | done].
    + split; [done | intros _]. exists h. split; [|done]. rewrite Hw. heap_lookup.
  - destruct (crypt_hmac_init_spec l p0 name key key_length w Hl)
      as (r & w' & Hrun & Hcases).
    exists r, w'. split; [done|].
    destruct Hcases as [[Hr Hw] | (-> & h & m & t & _ & Hh & _ & _ & Hw)].
    + split; [intros _; by rewrite Hw | done].
    + split; [done | intros _]. exists h. split; [|done]. rewrite Hw. heap_lookup.
  - destruct (crypt_cipher_init_spec l p0 name mode key key_length w Hl)
      as (r & w' & Hrun & Hcases).
    exists r, w'. split; [done|].
    destruct Hcases as [[Hr Hw] | (-> & h & e & d & t & _ & Hh & Hrest)].
    + split; [intros _; by rewrite Hw | done].
    + split; [done | intros _]. exists h. split; [|done].
      destruct Hrest as (_ & _ & _ & _ & _ & _ & _ & _ & _ & ->). heap_lookup.
Qed.

(** An unknown digest name and an unsupported key length, on a world whose
    only object is the caller's pointer variable. *)
Lemma crypt_init_out_parameter_witness :
  (exists r w', crypt_hash_init (B := Ref.backend false) (Some 1%positive) "md5"
                  (Ref.slot_world false []) = Some (r, w')
     /\ (r ≠ 0 -> heap w' !! 1%positive = Some (Cslot None)
                  /\ heap w' = heap (Ref.slot_world false []))
     /\ (r = 0 -> exists h, heap w' !! 1%positive = Some (Cslot (Some h))
                            /\ heap (Ref.slot_world false []) !! h = None))
  /\ (exists r w', crypt_hmac_init (B := Ref.backend false) (Some 1%positive) "md5"
                     (Some [x6b]) 1 (Ref.slot_world false []) = Some (r, w')
        /\ (r ≠ 0 -> heap w' !! 1%positive = Some (Cslot None)
                     /\ heap w' = heap (Ref.slot_world false []))
        /\ (r = 0 -> exists h, heap w' !! 1%positive = Some (Cslot (Some h))
                               /\ heap (Ref.slot_world false []) !! h = None))
  /\ (exists r w', crypt_cipher_init (B := Ref.backend false) (Some 1%positive) "aes" "cbc"
                     (Some [x6b]) 1 (Ref.slot_world false []) = Some (r, w')
        /\ (r ≠ 0 -> heap w' !! 1%positive = Some (Cslot None)
                     /\ heap w' = heap (Ref.slot_world false []))
        /\ (r = 0 -> exists h, heap w' !! 1%positive = Some (Cslot (Some h))
                               /\ heap (Ref.slot_world false []) !! h = None)).
Proof.
  destruct (crypt_init_out_parameter (B := Ref.backend false) 1%positive None
              (Ref.slot_world false []) "md5" "cbc" (Some [x6b]) 1 eq_refl)
    as (Hhash & Hhmac & _).
  destruct (crypt_init_out_parameter (B := Ref.backend false) 1%positive None
              (Ref.slot_world false []) "aes" "cbc" (Some [x6b]) 1 eq_refl)
    as (_ & _ & Hcipher).
  exact (conj Hhash (conj Hhmac Hcipher)).
Defined.

(** C8.  [crypt_cipher_destroy] on a session whose two context pointers
    are each [NULL] or live (and not the same object) returns without a
    fault, having released every context that is not [NULL] and the session
    itself; on [NULL] it does nothing.  A failed [crypt_cipher_init] leaves
    the heap as it was before the call: nothing stays allocated. *)
Theorem crypt_cipher_destroy_partial `{B : openssl} :
  (forall (w : world) (h : loc) (pe pd : ptr),
     heap w !! h = Some (Ccipher {| hd_enc := pe; hd_dec := pd |}) ->
     cipher_ctx_or_null w pe -> cipher_ctx_or_null w pd ->
     (pe = None \/ pe ≠ pd) ->
     crypt_cipher_destroy (Some h) w
     = Some (tt, World (delete h (delete_ptr pd (delete_ptr pe (heap w)))) (alloc_plan w)))
  /\ (forall w : world, crypt_cipher_destroy None w = Some (tt, w))
  /\ (forall (l : loc) (p0 : ptr) name mode key key_length (w : world),
        heap w !! l = Some (Cslot p0) ->
        exists r w', crypt_cipher_init (Some l) name mode key key_length w = Some (r, w')
          /\ (r ≠ 0 -> heap w' = heap w)).
Proof.
  split; [|split].
  - apply @crypt_cipher_destroy_eq.
  - apply @crypt_cipher_destroy_null.
  - intros l p0 name mode key key_length w Hl.
    destruct (crypt_cipher_init_spec l p0 name mode key key_length w Hl)
      as (r & w' & Hrun & Hcases).
    exists r, w'. split; [done|]. by destruct Hcases as [[_ Hw] | [-> _]].
Qed.

(** The session with an encrypt context and no decrypt context, and an
    init in which the third allocation, the decrypt context, fails. *)
Lemma crypt_cipher_destroy_partial_witness :
  crypt_cipher_destroy (B := Ref.backend false) (Some 2%positive)
    (Ref.partial_session_world false)
  = Some (tt, World ∅ [])
  /\ (exists r w', crypt_cipher_init (B := Ref.backend false) (Some 1%positive) "aes" "cbc"
                     (Some (replicate 16 x6b)) 16 (Ref.slot_world false [true; true; false])
                   = Some (r, w')
        /\ (r ≠ 0 -> heap w' = heap (Ref.slot_world false [true; true; false]))).
Proof.
  destruct (crypt_cipher_destroy_partial (B := Ref.backend false)) as (Hd & _ & Hi).
  split.
  - rewrite (Hd (Ref.partial_session_world false) 2%positive (Some 3%positive) None).
    + reflexivity.
    + reflexivity.
    + eexists. reflexivity.
    + exact I.
    + right. discriminate.
  - apply (Hi 1%positive None). reflexivity.
Defined.

(** The decrypt context cannot be allocated: the init returns -EINVAL and
    the heap holds what it held, the encrypt context and the session
    having been released. *)
Example crypt_cipher_init_no_decrypt_context :
  crypt_cipher_init (B := Ref.backend false) (Some 1%positive) "aes" "cbc"
    (Some (replicate 16 x6b)) 16 (Ref.slot_world false [true; true; false])
  = Some (- EINVAL, Ref.slot_world false []).
Proof. vm_cast_no_check (eq_refl (Some (- EINVAL, Ref.slot_world false []))). Qed.

(** ** Failures of the backend in a write *)

(** C9, evaluated.  [crypt_hmac_init] with a [NULL] key returns 0 although
    [HMAC_Init_ex], having no key, has failed; [HMAC_Update] on the context,
    which was never armed, returns 0, failure, and [crypt_hmac_write] returns
    0, success.  The same with a backend whose primitives do their work and
    then report failure, on a context that has its key.  [crypt_hash_write]
    on a hash context of that backend returns -EINVAL. *)
Theorem crypt_hmac_write_ignores_failure :
  crypt_hmac_init (B := Ref.backend false) (Some 1%positive) "sha1" None 0
    (Ref.slot_world false [])
  = Some (0, Ref.with_slot false (Some 2%positive)
               (Ref.hmac_world_of false (@hmac_ctx_new (Ref.backend false))))
  /\ (@hmac_update (Ref.backend false) (@hmac_ctx_new (Ref.backend false))
        [x61; x62; x63] 3).1 = 0
  /\ fst <$> crypt_hmac_write (B := Ref.backend false) (Some 2%positive) [x61; x62; x63] 3
               (Ref.hmac_world_of false (@hmac_ctx_new (Ref.backend false)))
     = Some 0
  /\ (@hmac_update (Ref.backend true) (Ref.mac_absorbed Ref.sha1 [x6b; x65; x79] [])
        [x61; x62; x63] 3).1 = 0
  /\ fst <$> crypt_hmac_write (B := Ref.backend true) (Some 2%positive) [x61; x62; x63] 3
               (Ref.hmac_world true [x6b; x65; x79] [])
     = Some 0
  /\ fst <$> crypt_hash_write (B := Ref.backend true) (Some 2%positive) [x61; x62; x63] 3
               (Ref.hash_world true [])
     = Some (- EINVAL).
Proof.
  split.
  { vm_cast_no_check
      (eq_refl (Some (0, Ref.with_slot false (Some 2%positive)
                           (Ref.hmac_world_of false (@hmac_ctx_new (Ref.backend false)))))). }
  split; [reflexivity|].
  split; [vm_cast_no_check (eq_refl (Some 0))|].
  split; [reflexivity|].
  split; [vm_cast_no_check (eq_refl (Some 0))|].
  vm_cast_no_check (eq_refl (Some (- EINVAL))).
Qed.

(** ** The scratch array of the finalize functions *)

(** C5, as amended.  [crypt_hash_final] and [crypt_hmac_final], called on a
    live context with a 64-byte scratch array and room in the caller's
    buffer, return.  On the path that returns -EINVAL because the requested
    length exceeds the digest size, the scratch array is never written: it
    holds at the return what it held on entry.  On every path that copies
    out (for the hash, after [EVP_DigestFinal_ex] has reported success; for
    the HMAC, always once the length check has passed), including the error
    paths after the copy, every byte of the scratch array is zero at the
    return. *)
Theorem crypt_final_scratch `{B : openssl} :
  finals_in_place ->
  (forall (w : world) (h m : loc) (s : crypt_hash) (c : EVP_MD_CTX) buffer length tmp,
     hash_ctx w h m s c ->
     sizeof tmp = EVP_MAX_MD_SIZE -> 0 <= hash_len s <= EVP_MAX_MD_SIZE ->
     0 <= length <= sizeof buffer ->
     exists ret buffer' scratch w',
       crypt_hash_final (Some h) buffer length tmp w = Some ((ret, buffer', scratch), w')
       /\ (length > hash_len s -> ret = - EINVAL /\ scratch = tmp /\ w' = w)
       /\ (length <= hash_len s -> (digest_final c tmp).1.1.1 = 1 -> all_zero scratch))
  /\ (forall (w : world) (h m : loc) (s : crypt_hmac) (c : HMAC_CTX) buffer length tmp,
        hmac_ctx w h m s c ->
        sizeof tmp = EVP_MAX_MD_SIZE -> 0 <= hmac_hash_len s <= EVP_MAX_MD_SIZE ->
        0 <= length <= sizeof buffer ->
        exists ret buffer' scratch w',
          crypt_hmac_final (Some h) buffer length tmp w = Some ((ret, buffer', scratch), w')
          /\ (length > hmac_hash_len s -> ret = - EINVAL /\ scratch = tmp /\ w' = w)
          /\ (length <= hmac_hash_len s -> all_zero scratch)).
Proof.
  intros [Hmd Hmac]. split.
  - intros w h m s c buffer length tmp Hctx Htmp Hlen Hbuf.
    rewrite (crypt_hash_final_eq _ _ _ _ _ _ _ _ Hctx).
    rewrite to_size_t_id by (unfold EVP_MAX_MD_SIZE in *; lia).
    destruct (Z.gtb_spec length (hash_len s)) as [Hgt|Hle].
    { eexists _, _, _, _. split; [reflexivity|]. split; [done | intros; lia]. }
    specialize (Hmd c tmp Htmp). unfold sizeof, EVP_MAX_MD_SIZE in *.
    destruct (digest_final c tmp) as [[[r c1] tmp1] n]. cbn [fst snd] in *.
    destruct (Z.eqb_spec r 1) as [->|Hr]; cbn [negb].
    2:{ eexists _, _, _, _. split; [reflexivity|]. split; [lia | done]. }
    rewrite memcpy_eq by lia.
    pose proof (crypt_backend_memzero_all_zero tmp1) as Hzero.
    destruct (n <? length); eexists _, _, _, _; (split; [reflexivity|]);
      (split; [lia | done]).
  - intros w h m s c buffer length tmp Hctx Htmp Hlen Hbuf.
    rewrite (crypt_hmac_final_eq _ _ _ _ _ _ _ _ Hctx).
    rewrite to_size_t_id by (unfold EVP_MAX_MD_SIZE in *; lia).
    destruct (Z.gtb_spec length (hmac_hash_len s)) as [Hgt|Hle].
    { eexists _, _, _, _. split; [reflexivity|]. split; [done | intros; lia]. }
    specialize (Hmac c tmp Htmp). unfold sizeof, EVP_MAX_MD_SIZE in *.
    destruct (hmac_final c tmp) as [[[r c1] tmp1] n]. cbn [fst snd] in *.
    rewrite memcpy_eq by lia.
    pose proof (crypt_backend_memzero_all_zero tmp1) as Hzero.
    destruct (n <? length); eexists _, _, _, _; (split; [reflexivity|]);
      (split; [lia | done]).
Qed.

Lemma Ref_finals_in_place faulty : @finals_in_place (Ref.backend faulty).
Proof.
  split; intros c out Hout; cbn; unfold sizeof, EVP_MAX_MD_SIZE in Hout.
  - unfold Ref.md_final. destruct (Ref.m_md c) as [t|], (Ref.m_data c) as [m|]; try done.
    cbn. pose proof (RefFacts.digest_length t m). pose proof (RefFacts.md_size_range t).
    unfold EVP_MAX_MD_SIZE in *. rewrite length_app, length_drop. lia.
  - unfold Ref.mac_final.
    destruct (Ref.h_md c) as [t|], (Ref.h_key c) as [k|], (Ref.h_data c) as [m|]; try done.
    cbn. pose proof (RefFacts.hmac_length t k m). pose proof (RefFacts.md_size_range t).
    unfold EVP_MAX_MD_SIZE in *. rewrite length_app, length_drop. lia.
Qed.

(** A 5-byte digest prefix asked of a SHA-1 context, and 21 bytes asked of
    it, one more than the digest has. *)
Lemma crypt_final_scratch_witness :
  (exists ret buffer' scratch w',
     crypt_hash_final (B := Ref.backend false) (Some 2%positive) (replicate 32 xff) 5
       (replicate 64 xaa) (Ref.hash_world false [x61])
     = Some ((ret, buffer', scratch), w')
     /\ all_zero scratch)
  /\ (exists ret buffer' scratch w',
        crypt_hmac_final (B := Ref.backend false) (Some 2%positive) (replicate 32 xff) 21
          (replicate 64 xaa) (Ref.hmac_world false [x6b] [x61])
        = Some ((ret, buffer', scratch), w')
        /\ ret = - EINVAL /\ scratch = replicate 64 xaa).
Proof.
  destruct (crypt_final_scratch (B := Ref.backend false) (Ref_finals_in_place false))
    as [Hhash Hhmac].
  split.
  - destruct (Hhash (Ref.hash_world false [x61]) 2%positive 3%positive
                (@Build_crypt_hash (Ref.backend false) (Some 3%positive) (Some Ref.sha1) 20)
                (Ref.md_absorbed Ref.sha1 [x61])
                (replicate 32 xff) 5 (replicate 64 xaa))
      as (ret & buffer' & scratch & w' & Hrun & _ & Hzero).
    + repeat split; reflexivity.
    + reflexivity.
    + simpl. unfold EVP_MAX_MD_SIZE. lia.
    + vm_compute. split; discriminate.
    + exists ret, buffer', scratch, w'. split; [exact Hrun|].
      apply Hzero; [simpl; lia | reflexivity].
  - destruct (Hhmac (Ref.hmac_world false [x6b] [x61]) 2%positive 3%positive
                (@Build_crypt_hmac (Ref.backend false) (Some 3%positive) (Some Ref.sha1) 20)
                (Ref.mac_absorbed Ref.sha1 [x6b] [x61])
                (replicate 32 xff) 21 (replicate 64 xaa))
      as (ret & buffer' & scratch & w' & Hrun & Hlong & _).
    + repeat split; reflexivity.
    + reflexivity.
    + simpl. unfold EVP_MAX_MD_SIZE. lia.
    + vm_compute. split; discriminate.
    + exists ret, buffer', scratch, w'. split; [exact Hrun|].
      destruct Hlong as (-> & -> & _); [simpl; lia | done].
Defined.

(** C5 as stated fails on the paths that return before the copy.  Asked
    for 21 bytes of a 20-byte digest, [crypt_hash_final] returns -EINVAL and
    the scratch array holds the bytes it held on entry, here 0xaa.  With a
    backend whose [EVP_DigestFinal_ex] writes the digest and then reports
    failure, it returns -EINVAL with the digest still in the scratch
    array. *)
Lemma crypt_final_scratch_counterexample :
  crypt_hash_final (B := Ref.backend false) (Some 2%positive) (replicate 32 xff) 21
    (replicate 64 xaa) (Ref.hash_world false [x61])
  = Some ((- EINVAL, replicate 32 xff, replicate 64 xaa), Ref.hash_world false [x61])
  /\ ~ all_zero (replicate 64 xaa)
  /\ crypt_hash_final (B := Ref.backend true) (Some 2%positive) (replicate 32 xff) 20
       (replicate 64 x00) (Ref.hash_world true [x61])
     = Some ((- EINVAL, replicate 32 xff,
              Ref.digest Ref.sha1 [x61] ++ replicate 44 x00),
             Ref.hash_world_of true {| Ref.m_md := Some Ref.sha1; Ref.m_data := None |})
  /\ ~ all_zero (Ref.digest Ref.sha1 [x61] ++ replicate 44 x00).
Proof.
  split.
  { vm_cast_no_check
      (eq_refl (Some ((- EINVAL, replicate 32 xff, replicate 64 xaa),
                      Ref.hash_world false [x61]))). }
  split; [vm_compute; discriminate|].
  split; [|vm_compute; discriminate].
  vm_cast_no_check
    (eq_refl (Some ((- EINVAL, replicate 32 xff,
                     Ref.digest Ref.sha1 [x61] ++ replicate 44 x00),
                    Ref.hash_world_of true
                      {| Ref.m_md := Some Ref.sha1; Ref.m_data := None |}))).
Qed.

(** ** Output length of the finalize functions *)

Lemma Ref_hash_state msg :
  hash_state (Ref.hash_world false msg) 2%positive Ref.sha1 msg.
Proof. exists 3%positive. split; reflexivity. Qed.


(** The init functions on the executable instance: the contexts they leave
    are the ones the runs below start from. *)
Example crypt_hash_init_sha1 :
  crypt_hash_init (B := Ref.backend false) (Some 1%positive) "sha1" (Ref.slot_world false [])
  = Some (0, Ref.with_slot false (Some 2%positive) (Ref.hash_world false [])).
Proof.
  vm_cast_no_check
    (eq_refl (Some (0, Ref.with_slot false (Some 2%positive) (Ref.hash_world false [])))).
Qed.


(** C7, evaluated.  [crypt_hmac_init] with a [NULL] key returns 0 although
    [HMAC_Init_ex], having no key, has failed.  On the context it hands out,
    a [crypt_hmac_final] for the 20 bytes of SHA-1, no more than the digest
    size, does not succeed: [HMAC_Final] fails and writes nothing, the
    first 20 bytes of the scratch array, which hold what they held on entry,
    are copied to the caller's buffer, and the call returns -EINVAL.
    [crypt_hash_init], in the same place, tests what [EVP_DigestInit_ex]
    returns: on a backend whose primitives report failure it returns
    -EINVAL.  On the contexts that [crypt_hash_init] and [crypt_hmac_init]
    with a key make, a finalize for 21 bytes returns -EINVAL with buffer
    and scratch untouched and one for 20 bytes returns 0 with the digest. *)
Theorem crypt_hmac_final_unkeyed :
  crypt_hmac_init (B := Ref.backend false) (Some 1%positive) "sha1" None 0
    (Ref.slot_world false [])
  = Some (0, Ref.with_slot false (Some 2%positive)
               (Ref.hmac_world_of false (@hmac_ctx_new (Ref.backend false))))
  /\ @EVP_MD_size (Ref.backend false) Ref.sha1 = 20
  /\ crypt_hmac_final (B := Ref.backend false) (Some 2%positive) (replicate 20 xff) 20
       (replicate 64 xaa) (Ref.hmac_world_of false (@hmac_ctx_new (Ref.backend false)))
     = Some ((- EINVAL, replicate 20 xaa, replicate 64 x00),
             Ref.hmac_world_of false (@hmac_ctx_new (Ref.backend false)))
  /\ fst <$> crypt_hash_init (B := Ref.backend true) (Some 1%positive) "sha1"
               (Ref.slot_world true [])
     = Some (- EINVAL)
  /\ fst <$> (_ ← crypt_hmac_init (B := Ref.backend false) (Some 1%positive) "sha1"
                    (Some [x6b; x65; x79]) 3;
              crypt_hmac_final (Some 2%positive) (replicate 32 xff) 21 (replicate 64 xaa))
               (Ref.slot_world false [])
     = Some (- EINVAL, replicate 32 xff, replicate 64 xaa)
  /\ fst <$> (_ ← crypt_hmac_init (B := Ref.backend false) (Some 1%positive) "sha1"
                    (Some [x6b; x65; x79]) 3;
              crypt_hmac_final (Some 2%positive) (replicate 32 xff) 20 (replicate 64 xaa))
               (Ref.slot_world false [])
     = Some (0, Ref.hmac Ref.sha1 [x6b; x65; x79] [] ++ replicate 12 xff, replicate 64 x00)
  /\ fst <$> (_ ← crypt_hash_init (B := Ref.backend false) (Some 1%positive) "sha1";
              crypt_hash_final (Some 2%positive) (replicate 32 xff) 21 (replicate 64 xaa))
               (Ref.slot_world false [])
     = Some (- EINVAL, replicate 32 xff, replicate 64 xaa)
  /\ fst <$> (_ ← crypt_hash_init (B := Ref.backend false) (Some 1%positive) "sha1";
              crypt_hash_final (Some 2%positive) (replicate 32 xff) 20 (replicate 64 xaa))
               (Ref.slot_world false [])
     = Some (0, Ref.digest Ref.sha1 [] ++ replicate 12 xff, replicate 64 x00).
Proof.
  split.
  { vm_cast_no_check
      (eq_refl (Some (0, Ref.with_slot false (Some 2%positive)
                           (Ref.hmac_world_of false (@hmac_ctx_new (Ref.backend false)))))). }
  split; [reflexivity|].
  split.
  { vm_cast_no_check
      (eq_refl (Some ((- EINVAL, replicate 20 xaa, replicate 64 x00),
                      Ref.hmac_world_of false (@hmac_ctx_new (Ref.backend false))))). }
  split; [vm_cast_no_check (eq_refl (Some (- EINVAL)))|].
  split.
  { vm_cast_no_check (eq_refl (Some (- EINVAL, replicate 32 xff, replicate 64 xaa))). }
  split.
  { vm_cast_no_check
      (eq_refl (Some (0, Ref.hmac Ref.sha1 [x6b; x65; x79] [] ++ replicate 12 xff,
                      replicate 64 x00))). }
  split.
  { vm_cast_no_check (eq_refl (Some (- EINVAL, replicate 32 xff, replicate 64 xaa))). }
  vm_cast_no_check
    (eq_refl (Some (0, Ref.digest Ref.sha1 [] ++ replicate 12 xff, replicate 64 x00))).
Qed.

(** ** Restart on finalize *)

(** C3.  When [crypt_hash_final] on a live context of digest [t] returns
    0, whatever state the digest context was in, the context is in the state
    of one that has absorbed nothing, the state [crypt_hash_init] leaves a
    new context in; a second [crypt_hash_final] right after returns 0 with
    the digest of the empty message, and leaves that state again. *)
Theorem crypt_hash_final_restart `{B : openssl} `{!digest_contract}
    (w : world) (h m : loc) (s : crypt_hash) (c : EVP_MD_CTX) (t : EVP_MD)
    (buffer : list byte) (length : Z) (tmp buffer' scratch : list byte) (w' : world) :
  hash_ctx w h m s c -> hash_id s = Some t -> hash_len s = EVP_MD_size t ->
  crypt_hash_final (Some h) buffer length tmp w = Some ((0, buffer', scratch), w') ->
  hash_state w' h t []
  /\ (forall buffer2 length2 tmp2,
        0 <= length2 <= EVP_MD_size t -> length2 <= sizeof buffer2 ->
        sizeof tmp2 = EVP_MAX_MD_SIZE ->
        exists w'',
          crypt_hash_final (Some h) buffer2 length2 tmp2 w'
          = Some ((0, take (Z.to_nat length2) (digest_of t [])
                        ++ drop (Z.to_nat length2) buffer2,
                   replicate (List.length tmp2) x00), w'')
          /\ hash_state w'' h t [])
  /\ (forall (l : loc) name (w0 w0' : world),
        crypt_hash_init (Some l) name w0 = Some (0, w0') ->
        (exists p0, heap w0 !! l = Some (Cslot p0)) ->
        EVP_get_digestbyname name = Some t ->
        exists h0, heap w0' !! l = Some (Cslot (Some h0)) /\ hash_state w0' h0 t []).
Proof.
  intros Hctx Hid Hlen Hrun.
  assert (Hs' : hash_state w' h t []).
  { rewrite (crypt_hash_final_eq _ _ _ _ _ _ _ _ Hctx) in Hrun.
    destruct (length >? _); first done.
    destruct (digest_final c tmp) as [[[r c1] tmp1] n]. cbn [fst snd] in Hrun.
    destruct (negb (r =? 1)); first done.
    destruct (memcpy buffer tmp1 length); last done. cbn zeta in Hrun.
    destruct (n <? length); first done.
    rewrite Hid, digest_init_ok in Hrun. cbn [fst snd] in Hrun.
    assert (heap w' = <[m:=Cmd (md_absorbed t [])]> (heap w)) as Hw'
      by (injection Hrun; intros; by subst).
    destruct Hctx as (Hh & Hm & Hc). exists m. rewrite Hw'.
    assert (h ≠ m) by (intros ->; congruence).
    destruct s as [smd sid slen]; simpl in *; subst.
    split; heap_lookup. }
  split; [done|]. split.
  - intros buffer2 length2 tmp2 Hl2 Hb2 Ht2.
    by apply crypt_hash_final_ok.
  - intros l name w0 w0' Hinit Hslot Hname.
    destruct (crypt_hash_init_ok l name w0 w0' Hinit Hslot) as (h0 & t0 & Ht0 & Hl0 & Hs0).
    exists h0. split; [done|]. congruence.
Qed.

(** A SHA-1 context that has absorbed one byte is finalized, and finalized
    again. *)
Lemma crypt_hash_final_restart_witness :
  hash_state (Ref.hash_world false []) 2%positive Ref.sha1 []
  /\ exists w'',
       crypt_hash_final (B := Ref.backend false) (Some 2%positive) (replicate 20 xff) 20
         (replicate 64 xaa) (Ref.hash_world false [])
       = Some ((0, take (Z.to_nat 20) (Ref.digest Ref.sha1 [])
                     ++ drop (Z.to_nat 20) (replicate 20 xff),
                replicate (List.length (replicate 64 xaa)) x00), w'').
Proof.
  destruct (crypt_hash_final_restart (B := Ref.backend false)
              (Ref.hash_world false [x61]) 2%positive 3%positive
              (@Build_crypt_hash (Ref.backend false) (Some 3%positive) (Some Ref.sha1) 20)
              (Ref.md_absorbed Ref.sha1 [x61]) Ref.sha1
              (replicate 20 xff) 20 (replicate 64 xaa)
              (Ref.digest Ref.sha1 [x61]) (replicate 64 x00) (Ref.hash_world false []))
    as (Hstate & Hagain & _).
  - repeat split; reflexivity.
  - reflexivity.
  - reflexivity.
  - vm_cast_no_check
      (eq_refl (Some ((0, Ref.digest Ref.sha1 [x61], replicate 64 x00),
                      Ref.hash_world false []))).
  - split; [exact Hstate|].
    destruct (Hagain (replicate 20 xff) 20 (replicate 64 xaa)) as (w'' & Hrun & _).
    + simpl. lia.
    + vm_compute. discriminate.
    + reflexivity.
    + exists w''. exact Hrun.
Defined.



(** ** The cipher engine over an OpenSSL that accepts the key and the length *)

Section CipherPromise.
Context `{CP : cipher_promise}.
Implicit Types (w : world) (l h e d : loc) (t : EVP_CIPHER).

Lemma crypt_cipher_init_held l name mode key key_length w w' :
  crypt_cipher_init (Some l) name mode (Some key) key_length w = Some (0, w') ->
  (exists p0, heap w !! l = Some (Cslot p0)) ->
  key_length <= Z.of_nat (List.length key) ->
  exists h t, crypt_cipher_init_type name mode key_length = inr t
    /\ heap w' !! l = Some (Cslot (Some h))
    /\ accepted_session w' h t (take (Z.to_nat key_length) key).
Proof.
  intros Hrun [p0 Hl] Hk.
  destruct (crypt_cipher_init_spec l p0 name mode (Some key) key_length w Hl)
    as (r & w1 & Hrun' & Hcases).
  rewrite Hrun in Hrun'. injection Hrun' as <- <-.
  destruct Hcases
    as [[? _] | (_ & h & e & d & t & Ht & Hh & He & Hd & ? & ? & ? & E1 & E2 & _ & _ & Hw)];
    first done.
  assert (l ≠ h) by congruence. assert (l ≠ e) by congruence.
  assert (l ≠ d) by congruence.
  destruct (crypt_cipher_init_type_resolved _ _ _ _ Ht) as (_ & _ & Hkl).
  destruct (encrypt_init cipher_ctx_new (Some t) (Some key) None) as [r1 ce] eqn:Ece.
  destruct (decrypt_init cipher_ctx_new (Some t) (Some key) None) as [r2 cd] eqn:Ecd.
  cbn [fst snd] in E1, E2, Hw. subst r1 r2.
  apply encrypt_key_held in Ece as Kce; [|lia].
  apply decrypt_key_held in Ecd as Kcd; [|lia].
  destruct (padding_off _ _ _ _ _ Kce) as (ce' & Ece' & Kce').
  destruct (padding_off _ _ _ _ _ Kcd) as (cd' & Ecd' & Kcd').
  rewrite Ece', Ecd' in Hw. cbn [fst snd] in Hw. rewrite Hkl in Kce', Kcd'.
  exists h, t. split; [done|]. unfold accepted_session. rewrite Hw. split; [heap_lookup|].
  exists e, d, ce', cd'. repeat split; try done; heap_lookup.
Qed.

Lemma crypt_cipher_init_accepted l p0 name mode key key_length w t :
  heap w !! l = Some (Cslot p0) -> alloc_plan w = [] ->
  crypt_cipher_init_type name mode key_length = inr t ->
  key_length <= sizeof key ->
  key_accepted t (take (Z.to_nat key_length) key) ->
  exists w', crypt_cipher_init (Some l) name mode (Some key) key_length w = Some (0, w').
Proof.
  intros Hl Hplan Ht Hk Hacc. unfold crypt_cipher_init. rewrite Ht.
  destruct (crypt_cipher_init_type_resolved _ _ _ _ Ht) as (_ & _ & Hkl).
  unfold sizeof in Hk. rewrite <- Hkl in Hacc.
  unfold malloc_crypt_cipher, EVP_CIPHER_CTX_new. rewrite bind_unfold.
  match goal with |- context [alloc ?c ?w0] =>
    destruct (alloc_succeeds c w0 Hplan) as (h & Hh & ->) end.
  mstep.
  match goal with |- context [alloc ?c ?w0] =>
    destruct (alloc_succeeds c w0 eq_refl) as (e & He & ->) end.
  fresh_facts He. unfold set_hd_enc. mstep.
  match goal with |- context [alloc ?c ?w0] =>
    destruct (alloc_succeeds c w0 eq_refl) as (d & Hd & ->) end.
  fresh_facts Hd. unfold set_hd_dec. mstep. null_checks. mstep.
  pose proof (encrypt_key_accepted cipher_ctx_new t key ltac:(lia) Hacc) as E1.
  pose proof (decrypt_key_accepted cipher_ctx_new t key ltac:(lia) Hacc) as E2.
  destruct (encrypt_init cipher_ctx_new (Some t) (Some key) None) as [r1 ce] eqn:Ece.
  cbn [fst snd] in E1 |- *. subst r1. mstep.
  destruct (decrypt_init cipher_ctx_new (Some t) (Some key) None) as [r2 cd] eqn:Ecd.
  cbn [fst snd] in E2 |- *. subst r2. mstep.
  apply encrypt_key_held in Ece as Kce; [|lia].
  apply decrypt_key_held in Ecd as Kcd; [|lia].
  destruct (padding_off _ _ _ _ _ Kce) as (ce' & -> & Kce'). mstep.
  destruct (padding_off _ _ _ _ _ Kcd) as (cd' & -> & Kcd'). mstep.
  assert (l ≠ h) by congruence. assert (l ≠ e) by congruence.
  assert (l ≠ d) by congruence.
  mstep. eexists. reflexivity.
Qed.

Lemma crypt_cipher_encrypt_accepted w h t k inp out length iv iv_length :
  accepted_session w h t k ->
  EVP_CIPHER_iv_length t <= Z.of_nat (List.length iv) ->
  0 <= length <= Z.of_nat (List.length inp) ->
  length <= Z.of_nat (List.length out) ->
  length mod AES_BLOCK_SIZE = 0 -> length <= INT_MAX ->
  length_accepted t length ->
  exists w',
    crypt_cipher_encrypt (Some h) inp out length (Some iv) iv_length w
    = Some ((0, enc_of t k (take (Z.to_nat (EVP_CIPHER_iv_length t)) iv)
                   (take (Z.to_nat length) inp)
                 ++ drop (Z.to_nat length) out), w')
    /\ accepted_session w' h t k.
Proof.
  intros (e & d & ce & cd & Hh & Hne & He & Hd & Ke & Kd) Hiv Hinp Hout Hblk Hint Hacc.
  assert (h ≠ e) by (intros ->; congruence).
  assert (h ≠ d) by (intros ->; congruence).
  unfold crypt_cipher_encrypt. mstep.
  destruct (encrypt_iv_held _ _ _ _ Ke Hiv) as (c1 & -> & P1). mstep.
  rewrite to_int_id by (unfold INT_MAX in *; lia).
  destruct (encrypt_blocks _ _ _ _ out inp length P1 Hinp Hout Hblk Hacc)
    as (c2 & -> & K2).
  mstep. cbn [Z.eqb].
  set (out1 := enc_of _ _ _ _ ++ _).
  assert (Hlen1 : List.length out1 = List.length out).
  { unfold out1. rewrite length_app, enc_of_length, length_take, length_drop. lia. }
  erewrite EVP_EncryptFinal_eq; [| heap_lookup | lia].
  destruct (encrypt_final_nothing _ _ _ (drop (Z.to_nat length) out1) K2) as (c3 & -> & K3).
  cbn zeta. mstep. rewrite take_drop.
  eexists. split; [reflexivity|].
  exists e, d, c3, cd. repeat split; try done; heap_lookup.
Qed.

Lemma crypt_cipher_decrypt_accepted w h t k inp out length iv iv_length :
  accepted_session w h t k ->
  EVP_CIPHER_iv_length t <= Z.of_nat (List.length iv) ->
  0 <= length <= Z.of_nat (List.length inp) ->
  length <= Z.of_nat (List.length out) ->
  length mod AES_BLOCK_SIZE = 0 -> length <= INT_MAX ->
  length_accepted t length ->
  exists w',
    crypt_cipher_decrypt (Some h) inp out length (Some iv) iv_length w
    = Some ((0, dec_of t k (take (Z.to_nat (EVP_CIPHER_iv_length t)) iv)
                   (take (Z.to_nat length) inp)
                 ++ drop (Z.to_nat length) out), w')
    /\ accepted_session w' h t k.
Proof.
  intros (e & d & ce & cd & Hh & Hne & He & Hd & Ke & Kd) Hiv Hinp Hout Hblk Hint Hacc.
  assert (h ≠ e) by (intros ->; congruence).
  assert (h ≠ d) by (intros ->; congruence).
  unfold crypt_cipher_decrypt. mstep.
  destruct (decrypt_iv_held _ _ _ _ Kd Hiv) as (c1 & -> & P1). mstep.
  rewrite to_int_id by (unfold INT_MAX in *; lia).
  destruct (decrypt_blocks _ _ _ _ out inp length P1 Hinp Hout Hblk Hacc)
    as (c2 & -> & K2).
  mstep. cbn [Z.eqb].
  set (out1 := dec_of _ _ _ _ ++ _).
  assert (Hlen1 : List.length out1 = List.length out).
  { unfold out1. rewrite length_app, dec_of_length, length_take, length_drop. lia. }
  erewrite EVP_DecryptFinal_eq; [| heap_lookup | lia].
  destruct (decrypt_final_nothing _ _ _ (drop (Z.to_nat length) out1) K2) as (c3 & -> & K3).
  cbn zeta. mstep. rewrite take_drop.
  eexists. split; [reflexivity|].
  exists e, d, ce, c3. repeat split; try done; heap_lookup.
Qed.

End CipherPromise.

(** An OpenSSL that keeps [cipher_contract] is one that accepts every key
    and every length. *)
#[global] Instance cipher_contract_promise `{B : openssl} `{CC : !cipher_contract} :
  cipher_promise.
Proof.
  refine (@Build_cipher_promise B cipher_enc cipher_dec keyed primed
            (fun _ _ => True) (fun _ _ => True)
            cipher_enc_length cipher_dec_length cipher_dec_enc
            _ _ _ _ set_padding_off encrypt_init_iv decrypt_init_iv _ _
            encrypt_final_empty decrypt_final_empty).
  - intros c t k Hk _. by destruct (encrypt_init_key c t k Hk) as (c' & -> & _).
  - intros c t k Hk _. by destruct (decrypt_init_key c t k Hk) as (c' & -> & _).
  - intros c t k c' Hk E. destruct (encrypt_init_key c t k Hk) as (c'' & E' & K).
    congruence.
  - intros c t k c' Hk E. destruct (decrypt_init_key c t k Hk) as (c'' & E' & K).
    congruence.
  - intros t k iv c out inp n P Hn Hout Hblk _. by apply (encrypt_update_blocks t k iv).
  - intros t k iv c out inp n P Hn Hout Hblk _. by apply (decrypt_update_blocks t k iv).
Defined.

(** ** Round trip through a cipher session *)

(** C1, as amended.  Over an OpenSSL that accepts some keys and some
    lengths of a construction and refuses others: for the cipher name "aes"
    with any of the supported modes and key lengths and any key that OpenSSL
    accepts for the construction, [crypt_cipher_init] (its allocations
    succeeding) returns 0, and whenever it returns 0 it leaves a session
    holding, in both directions, the first [key_length] bytes of the key.
    On such a session, at any point of its life, with any IV of at least the
    construction's IV length and any plaintext of a whole number of blocks
    whose length is at most [INT_MAX] and is one that OpenSSL accepts for
    the construction, [crypt_cipher_encrypt] returns 0 with a ciphertext of
    the plaintext's length, and [crypt_cipher_decrypt] of that ciphertext
    with the same IV returns 0 with the plaintext; the session is then as
    usable as before. *)
Theorem crypt_cipher_round_trip `{B : openssl} `{!cipher_promise} :
  (forall (l : loc) name mode key key_length (w : world),
     (exists p0, heap w !! l = Some (Cslot p0)) -> alloc_plan w = [] ->
     c_str name = "aes"%string -> valid_key_length (c_str mode) key_length = true ->
     key_length <= sizeof key ->
     (forall t, crypt_cipher_init_type name mode key_length = inr t ->
                key_accepted t (take (Z.to_nat key_length) key)) ->
     exists w', crypt_cipher_init (Some l) name mode (Some key) key_length w = Some (0, w'))
  /\ (forall (l : loc) name mode key key_length (w w' : world),
        crypt_cipher_init (Some l) name mode (Some key) key_length w = Some (0, w') ->
        (exists p0, heap w !! l = Some (Cslot p0)) ->
        key_length <= sizeof key ->
        exists h t, crypt_cipher_init_type name mode key_length = inr t
          /\ heap w' !! l = Some (Cslot (Some h))
          /\ accepted_session w' h t (take (Z.to_nat key_length) key))
  /\ (forall (w : world) (h : loc) (t : EVP_CIPHER) k plaintext out out' iv iv_length,
        accepted_session w h t k ->
        EVP_CIPHER_iv_length t <= sizeof iv ->
        sizeof plaintext mod AES_BLOCK_SIZE = 0 -> sizeof plaintext <= INT_MAX ->
        length_accepted t (sizeof plaintext) ->
        sizeof out = sizeof plaintext -> sizeof out' = sizeof plaintext ->
        exists ciphertext w1 w2,
          crypt_cipher_encrypt (Some h) plaintext out (sizeof plaintext) (Some iv) iv_length w
          = Some ((0, ciphertext), w1)
          /\ sizeof ciphertext = sizeof plaintext
          /\ crypt_cipher_decrypt (Some h) ciphertext out' (sizeof plaintext) (Some iv)
               iv_length w1
             = Some ((0, plaintext), w2)
          /\ accepted_session w2 h t k).
Proof.
  split; [|split].
  - intros l name mode key key_length w [p0 Hl] Hplan Hn Hv Hk Hacc.
    pose proof (crypt_cipher_init_type_aes name mode key_length Hn) as Hcases.
    destruct (crypt_cipher_init_type name mode key_length) as [r|t] eqn:Ht.
    + destruct (known_mode (c_str mode)) eqn:Hm.
      * destruct Hcases. congruence.
      * by rewrite valid_key_length_unknown in Hv.
    + apply (crypt_cipher_init_accepted l p0 name mode key key_length w t); auto.
  - intros l name mode key key_length w w' Hinit Hslot Hk.
    by apply (crypt_cipher_init_held l name mode key key_length w w').
  - intros w h t k plaintext out out' iv iv_length Hs Hiv Hblk Hint Hacc Hout Hout'.
    unfold sizeof in *.
    destruct (crypt_cipher_encrypt_accepted w h t k plaintext out
                (Z.of_nat (List.length plaintext)) iv iv_length Hs Hiv)
      as (w1 & Henc & Hs1); [clear; lia | by rewrite Hout | done | done | done |].
    rewrite Nat2Z.id, (take_ge plaintext), (drop_ge out), app_nil_r in Henc
      by (clear - Hout; lia).
    pose proof (enc_of_length t k (take (Z.to_nat (EVP_CIPHER_iv_length t)) iv)
                  plaintext) as Hclen.
    destruct (crypt_cipher_decrypt_accepted w1 h t k
                (enc_of t k (take (Z.to_nat (EVP_CIPHER_iv_length t)) iv) plaintext) out'
                (Z.of_nat (List.length plaintext)) iv iv_length Hs1 Hiv)
      as (w2 & Hdec & Hs2);
      [rewrite Hclen; clear; lia | by rewrite Hout' | done | done | done |].
    rewrite Nat2Z.id, (take_ge (enc_of _ _ _ _)), (drop_ge out'), app_nil_r,
      dec_of_enc_of in Hdec by (done || (clear - Hout' Hclen; lia)).
    eexists _, w1, w2. split; [exact Henc|]. split; [by rewrite Hclen|]. by split.
Qed.

Lemma Ref_cipher_session t key :
  cipher_session (Ref.session_world false t key) 2%positive t key.
Proof.
  exists 3%positive, 4%positive. eexists _, _.
  split; [reflexivity|]. split; [discriminate|].
  split; [reflexivity|]. split; [reflexivity|]. by repeat split.
Qed.

Lemma Ref_accepted_session t key :
  accepted_session (Ref.session_world false t key) 2%positive t key.
Proof.
  exists 3%positive, 4%positive. eexists _, _.
  split; [reflexivity|]. split; [discriminate|].
  split; [reflexivity|]. split; [reflexivity|]. by repeat split.
Qed.

(** AES in cbc with a 16-byte key on the instance that accepts every key
    and every length: the init succeeds and gives a session; on such a
    session one block is encrypted and decrypted again. *)
Lemma crypt_cipher_round_trip_witness :
  (exists w', crypt_cipher_init (B := Ref.backend false) (Some 1%positive) "aes" "cbc"
                (Some (replicate 16 x6b)) 16 (Ref.slot_world false []) = Some (0, w'))
  /\ (exists h t, crypt_cipher_init_type "aes" "cbc" 16 = inr t
        /\ heap (Ref.with_slot false (Some 2%positive)
                   (Ref.session_world false EVP_aes_128_cbc (replicate 16 x6b)))
             !! 1%positive = Some (Cslot (Some h))
        /\ accepted_session
             (Ref.with_slot false (Some 2%positive)
                (Ref.session_world false EVP_aes_128_cbc (replicate 16 x6b)))
             h t (take (Z.to_nat 16) (replicate 16 x6b)))
  /\ (exists ciphertext w1 w2,
        crypt_cipher_encrypt (B := Ref.backend false) (Some 2%positive)
          (replicate 16 x70) (replicate 16 x00) (sizeof (replicate 16 x70))
          (Some (replicate 16 x69)) 16
          (Ref.session_world false EVP_aes_128_cbc (replicate 16 x6b))
        = Some ((0, ciphertext), w1)
        /\ sizeof ciphertext = sizeof (replicate 16 x70)
        /\ crypt_cipher_decrypt (Some 2%positive) ciphertext (replicate 16 x00)
             (sizeof (replicate 16 x70)) (Some (replicate 16 x69)) 16 w1
           = Some ((0, replicate 16 x70), w2)
        /\ accepted_session w2 2%positive EVP_aes_128_cbc (replicate 16 x6b)).
Proof.
  destruct (crypt_cipher_round_trip (B := Ref.backend false)) as (Hinit & Hsession & Hround).
  split; [|split].
  - apply Hinit.
    + eexists. reflexivity.
    + reflexivity.
    + reflexivity.
    + reflexivity.
    + vm_compute. discriminate.
    + intros t _. exact I.
  - apply (Hsession 1%positive "aes"%string "cbc"%string (replicate 16 x6b) 16
             (Ref.slot_world false [])).
    + vm_cast_no_check
        (eq_refl (Some (0, Ref.with_slot false (Some 2%positive)
                             (Ref.session_world false EVP_aes_128_cbc
                                (replicate 16 x6b))))).
    + eexists. reflexivity.
    + vm_compute. discriminate.
  - apply Hround.
    + apply Ref_accepted_session.
    + vm_compute. discriminate.
    + reflexivity.
    + vm_compute. discriminate.
    + exact I.
    + reflexivity.
    + reflexivity.
Defined.

(** The ciphertext of the instance is not the plaintext: the round trip
    is not that of two identity functions. *)
Example crypt_cipher_encrypt_changes_block :
  snd <$> (fst <$> crypt_cipher_encrypt (B := Ref.backend false) (Some 2%positive)
                     (replicate 16 x70) (replicate 16 x00) 16
                     (Some (replicate 16 x69)) 16
                     (Ref.session_world false EVP_aes_128_cbc (replicate 16 x6b)))
  = Some (replicate 16 xb1).
Proof. vm_cast_no_check (eq_refl (Some (replicate 16 xb1))). Qed.
(** * Further properties of the wrappers *)

(** ** Return values of the init functions *)

Lemma allocations_succeed_S n plan :
  allocations_succeed (S n) plan
  = allocations_succeed 1 plan && allocations_succeed n (tail plan).
Proof.
  unfold allocations_succeed. destruct plan as [|b plan]; [by destruct n|].
  cbn. by rewrite take_0, andb_true_r.
Qed.

Lemma allocations_succeed_0 plan : allocations_succeed 0 plan = true.
Proof. unfold allocations_succeed. by rewrite take_0. Qed.

(** An allocation follows the plan. *)
Lemma alloc_plan_cases `{B : openssl} (c : cell) (w : world) :
  (allocations_succeed 1 (alloc_plan w) = false
   /\ alloc c w = Some (None, World (heap w) (tail (alloc_plan w))))
  \/ (allocations_succeed 1 (alloc_plan w) = true
      /\ exists l, heap w !! l = None
           /\ alloc c w = Some (Some l, World (<[l:=c]> (heap w)) (tail (alloc_plan w)))).
Proof.
  unfold alloc. destruct (alloc_plan w) as [|[] plan]; cbn.
  - right. split; [done|]. eexists. split; [apply not_elem_of_dom, is_fresh | reflexivity].
  - right. split; [done|]. eexists. split; [apply not_elem_of_dom, is_fresh | reflexivity].
  - left. by split.
Qed.

(** Taking the next allocation of a world according to its plan. *)
Ltac next_alloc Hplan h Hh :=
  match goal with |- context [alloc ?c ?w0] =>
    destruct (alloc_plan_cases c w0) as [[Hplan ->] | (Hplan & h & Hh & ->)];
    cbn [heap alloc_plan] in Hplan; rewrite ?Hplan; cbn [andb negb]
  end.

(** X1.  [crypt_hash_init], called with an out-parameter that points to a
    pointer variable, returns -ENOMEM when the first or the second
    allocation fails, otherwise -EINVAL when OpenSSL does not know the name
    or the first [EVP_DigestInit_ex] does not return 1, otherwise 0. *)
Theorem crypt_hash_init_returns `{B : openssl} (l : loc) (p0 : ptr) (name : string)
    (w : world) :
  heap w !! l = Some (Cslot p0) ->
  exists w', crypt_hash_init (Some l) name w
             = Some (crypt_hash_init_code name (alloc_plan w), w').
Proof.
  intros Hl. unfold crypt_hash_init, malloc_crypt_hash, EVP_MD_CTX_new, crypt_hash_init_code.
  rewrite (allocations_succeed_S 1), (allocations_succeed_S 0), allocations_succeed_0.
  rewrite andb_true_r, bind_unfold.
  next_alloc Hp1 h Hh.
  { eexists. reflexivity. }
  rewrite bind_unfold. next_alloc Hp2 m Hm.
  { unfold set_md. mstep. eexists. reflexivity. }
  fresh_facts Hm.
  unfold set_md, set_hash_id. mstep.
  destruct (EVP_get_digestbyname name) as [t|].
  2:{ mstep. eexists. reflexivity. }
  mstep. destruct (Z.eqb_spec (digest_init md_ctx_new (Some t)).1 1) as [E|E]; mstep.
  2:{ eexists. reflexivity. }
  unfold set_hash_len. mstep.
  assert (l ≠ h) by congruence. assert (l ≠ m) by congruence.
  mstep. eexists. reflexivity.
Qed.

(** The second allocation, of the digest context, fails. *)
Lemma crypt_hash_init_returns_witness :
  crypt_hash_init_code (B := Ref.backend false) "sha1" [true; false] = - ENOMEM
  /\ exists w', crypt_hash_init (B := Ref.backend false) (Some 1%positive) "sha1"
                  (Ref.slot_world false [true; false])
                = Some (crypt_hash_init_code (B := Ref.backend false) "sha1" [true; false], w').
Proof.
  split; [reflexivity|].
  exact (crypt_hash_init_returns (B := Ref.backend false) 1%positive None "sha1"
           (Ref.slot_world false [true; false]) eq_refl).
Defined.

(** X2.  [crypt_hmac_init] returns -ENOMEM when the first or the second
    allocation fails, otherwise -EINVAL when OpenSSL does not know the
    name, otherwise 0: whatever the key is, [NULL] included, and whatever
    [HMAC_Init_ex] returns. *)
Theorem crypt_hmac_init_returns `{B : openssl} (l : loc) (p0 : ptr) (name : string)
    (key : option (list byte)) (key_length : Z) (w : world) :
  heap w !! l = Some (Cslot p0) ->
  exists w', crypt_hmac_init (Some l) name key key_length w
             = Some (crypt_hmac_init_code name (alloc_plan w), w').
Proof.
  intros Hl. unfold crypt_hmac_init, malloc_crypt_hmac, HMAC_CTX_new, crypt_hmac_init_code.
  rewrite (allocations_succeed_S 1), (allocations_succeed_S 0), allocations_succeed_0.
  rewrite andb_true_r, bind_unfold.
  next_alloc Hp1 h Hh.
  { eexists. reflexivity. }
  rewrite bind_unfold. next_alloc Hp2 m Hm.
  { unfold set_hmac_md. mstep. eexists. reflexivity. }
  fresh_facts Hm.
  unfold set_hmac_md, set_hmac_hash_id. mstep.
  destruct (EVP_get_digestbyname name) as [t|].
  2:{ mstep. eexists. reflexivity. }
  unfold set_hmac_hash_len. mstep.
  assert (l ≠ h) by congruence. assert (l ≠ m) by congruence.
  mstep. eexists. reflexivity.
Qed.

(** No key: [HMAC_Init_ex] fails on the new context, and the init returns 0. *)
Lemma crypt_hmac_init_returns_witness :
  (@hmac_init (Ref.backend false) (@hmac_ctx_new (Ref.backend false)) None 0
     (Some Ref.sha1)).1 = 0
  /\ crypt_hmac_init_code (B := Ref.backend false) "sha1" [] = 0
  /\ exists w', crypt_hmac_init (B := Ref.backend false) (Some 1%positive) "sha1" None 0
                  (Ref.slot_world false [])
                = Some (crypt_hmac_init_code (B := Ref.backend false) "sha1" [], w').
Proof.
  split; [reflexivity|]. split; [reflexivity|].
  exact (crypt_hmac_init_returns (B := Ref.backend false) 1%positive None "sha1" None 0
           (Ref.slot_world false []) eq_refl).
Defined.

(** A failing path of [crypt_cipher_init] ends in a teardown and the
    return. *)
Ltac teardown_returns :=
  rewrite ?bind_unfold;
  erewrite crypt_cipher_destroy_eq;
    [ | heap_lookup
      | first [ exact I | eexists; heap_lookup ]
      | first [ exact I | eexists; heap_lookup ]
      | first [ by left | right; congruence ] ];
  mstep; eexists; reflexivity.

(** X3.  Once the name, the mode and the key length have resolved to a
    construction, [crypt_cipher_init] returns -ENOMEM only when the
    allocation of the session struct fails; when one of the two OpenSSL
    contexts cannot be allocated it returns -EINVAL, as it does when one of
    the two key set-ups or of the two padding settings does not return 1;
    otherwise 0. *)
Theorem crypt_cipher_init_returns `{B : openssl} (l : loc) (p0 : ptr) (name mode : string)
    (key : option (list byte)) (key_length : Z) (t : EVP_CIPHER) (w : world) :
  heap w !! l = Some (Cslot p0) ->
  crypt_cipher_init_type name mode key_length = inr t ->
  exists w', crypt_cipher_init (Some l) name mode key key_length w
             = Some (crypt_cipher_init_code t key (alloc_plan w), w').
Proof.
  intros Hl Ht. unfold crypt_cipher_init, crypt_cipher_init_code. rewrite Ht.
  rewrite (allocations_succeed_S 2), (allocations_succeed_S 1), (allocations_succeed_S 0).
  rewrite allocations_succeed_0, andb_true_r.
  unfold malloc_crypt_cipher, EVP_CIPHER_CTX_new. rewrite bind_unfold.
  next_alloc Hp1 h Hh.
  { eexists. reflexivity. }
  mstep.
  next_alloc Hp2 e He.
  - unfold set_hd_enc. mstep.
    next_alloc Hp3 d Hd.
    + unfold set_hd_dec. mstep. null_checks. teardown_returns.
    + fresh_facts Hd. unfold set_hd_dec. mstep. null_checks. teardown_returns.
  - fresh_facts He. unfold set_hd_enc. mstep.
    next_alloc Hp3 d Hd.
    + unfold set_hd_dec. mstep. null_checks. teardown_returns.
    + fresh_facts Hd. unfold set_hd_dec. mstep. null_checks. mstep.
      destruct (Z.eqb_spec (encrypt_init cipher_ctx_new (Some t) key None).1 1) as [E1|E1];
        mstep; cbn [andb]; [|teardown_returns].
      destruct (Z.eqb_spec (decrypt_init cipher_ctx_new (Some t) key None).1 1) as [E2|E2];
        mstep; cbn [andb]; [|teardown_returns].
      destruct (Z.eqb_spec
                  (set_padding (encrypt_init cipher_ctx_new (Some t) key None).2 0).1 1)
        as [E3|E3]; mstep; cbn [andb]; [|teardown_returns].
      destruct (Z.eqb_spec
                  (set_padding (decrypt_init cipher_ctx_new (Some t) key None).2 0).1 1)
        as [E4|E4]; mstep; cbn [andb]; [|teardown_returns].
      assert (l ≠ h) by congruence. assert (l ≠ e) by congruence.
      assert (l ≠ d) by congruence.
      mstep. eexists. reflexivity.
Qed.

(** The allocation of the decrypt context fails: -EINVAL, not -ENOMEM. *)
Lemma crypt_cipher_init_returns_witness :
  crypt_cipher_init_code (B := Ref.backend false) EVP_aes_128_cbc (Some (replicate 16 x6b))
    [true; true; false] = - EINVAL
  /\ exists w', crypt_cipher_init (B := Ref.backend false) (Some 1%positive) "aes" "cbc"
                  (Some (replicate 16 x6b)) 16 (Ref.slot_world false [true; true; false])
                = Some (crypt_cipher_init_code (B := Ref.backend false) EVP_aes_128_cbc
                          (Some (replicate 16 x6b)) [true; true; false], w').
Proof.
  split; [reflexivity|].
  exact (crypt_cipher_init_returns (B := Ref.backend false) 1%positive None "aes" "cbc"
           (Some (replicate 16 x6b)) 16 EVP_aes_128_cbc
           (Ref.slot_world false [true; true; false]) eq_refl eq_refl).
Defined.

(** ** Backend lifecycle *)

Lemma crypt_backend_init_initialised ctx s :
  crypto_backend_initialised s ≠ 0 -> crypt_backend_init ctx s = (0, s).
Proof.
  intros Hs. unfold crypt_backend_init.
  by destruct (Z.eqb_spec (crypto_backend_initialised s) 0).
Qed.

Lemma crypt_backend_init_iter ctx n s :
  crypto_backend_initialised s ≠ 0 ->
  Nat.iter n (fun s => (crypt_backend_init ctx s).2) s = s.
Proof.
  intros Hs. induction n as [|n IH]; [done|].
  rewrite Nat.iter_succ, IH. by rewrite crypt_backend_init_initialised.
Qed.

(** X4.  [crypt_backend_init] always returns 0.  From a state in which the
    backend is not initialised, any number of calls, one or more, run
    [openssl_backend_init] exactly once and leave the flag at 1; a further
    call changes nothing.  After [crypt_backend_destroy] the next call runs
    [openssl_backend_init] again. *)
Theorem crypt_backend_init_once (ctx : ptr) (n : nat) (s : backend_state) :
  crypto_backend_initialised s = 0 ->
  let s' := Nat.iter (S n) (fun s => (crypt_backend_init ctx s).2) s in
  (forall s0, (crypt_backend_init ctx s0).1 = 0)
  /\ crypto_backend_initialised s' = 1
  /\ openssl_backend_inits s' = S (openssl_backend_inits s)
  /\ crypt_backend_init ctx s' = (0, s')
  /\ crypto_backend_initialised (crypt_backend_destroy s') = 0
  /\ openssl_backend_inits (crypt_backend_init ctx (crypt_backend_destroy s')).2
     = S (S (openssl_backend_inits s)).
Proof.
  intros Hs s'.
  assert (Hs' : s' = {| crypto_backend_initialised := 1;
                        openssl_backend_inits := S (openssl_backend_inits s) |}).
  { unfold s'. rewrite Nat.iter_succ_r.
    unfold crypt_backend_init at 2. rewrite Hs. cbn [Z.eqb negb snd openssl_backend_init
      openssl_backend_inits].
    by rewrite crypt_backend_init_iter. }
  split.
  { intros s0. unfold crypt_backend_init. by destruct (negb _). }
  rewrite Hs'. by repeat split.
Qed.

(** Three calls from the state the program starts in. *)
Lemma crypt_backend_init_once_witness :
  let s' := Nat.iter 3 (fun s => (crypt_backend_init None s).2) backend_state_start in
  (forall s0, (crypt_backend_init None s0).1 = 0)
  /\ crypto_backend_initialised s' = 1
  /\ openssl_backend_inits s' = 1%nat
  /\ crypt_backend_init None s' = (0, s')
  /\ crypto_backend_initialised (crypt_backend_destroy s') = 0
  /\ openssl_backend_inits (crypt_backend_init None (crypt_backend_destroy s')).2 = 2%nat.
Proof. exact (crypt_backend_init_once None 2 backend_state_start eq_refl). Defined.

(** ** Digest sizes *)

(** X5.  The digest size that a successful [crypt_hash_init] or
    [crypt_hmac_init] records in the new struct is what [crypt_hash_size]
    and [crypt_hmac_size] return for the same name.  For a name OpenSSL
    does not know the two size functions return -EINVAL and neither init
    function returns 0. *)
Theorem crypt_hash_size_recorded `{B : openssl} (l : loc) (p0 : ptr) (name : string)
    (w : world) :
  heap w !! l = Some (Cslot p0) ->
  (forall w', crypt_hash_init (Some l) name w = Some (0, w') ->
     exists h s, heap w' !! l = Some (Cslot (Some h)) /\ heap w' !! h = Some (Chash s)
       /\ hash_len s = crypt_hash_size name)
  /\ (forall key key_length w',
        crypt_hmac_init (Some l) name key key_length w = Some (0, w') ->
        exists h s, heap w' !! l = Some (Cslot (Some h)) /\ heap w' !! h = Some (Chmac s)
          /\ hmac_hash_len s = crypt_hmac_size name)
  /\ (EVP_get_digestbyname name = None ->
        crypt_hash_size name = - EINVAL /\ crypt_hmac_size name = - EINVAL
        /\ (forall w', crypt_hash_init (Some l) name w ≠ Some (0, w'))
        /\ (forall key key_length w',
              crypt_hmac_init (Some l) name key key_length w ≠ Some (0, w'))).
Proof.
  intros Hl. unfold crypt_hmac_size, crypt_hash_size. split; [|split].
  - intros w' Hrun.
    destruct (crypt_hash_init_spec l p0 name w Hl) as (r & w1 & Hrun' & Hcases).
    rewrite Hrun in Hrun'. injection Hrun' as <- <-.
    destruct Hcases as [[? _] | (_ & h & m & t & Ht & _ & Hh & Hm & Hne & Hw)]; first done.
    assert (l ≠ h) by congruence.
    eexists h, _. rewrite Hw, Ht. split; [heap_lookup|]. split; [heap_lookup | done].
  - intros key key_length w' Hrun.
    destruct (crypt_hmac_init_spec l p0 name key key_length w Hl)
      as (r & w1 & Hrun' & Hcases).
    rewrite Hrun in Hrun'. injection Hrun' as <- <-.
    destruct Hcases as [[? _] | (_ & h & m & t & Ht & Hh & Hm & Hne & Hw)]; first done.
    assert (l ≠ h) by congruence.
    eexists h, _. rewrite Hw, Ht. split; [heap_lookup|]. split; [heap_lookup | done].
  - intros Hname. rewrite Hname. split; [done|]. split; [done|]. split.
    + intros w' Hrun.
      destruct (crypt_hash_init_spec l p0 name w Hl) as (r & w1 & Hrun' & Hcases).
      rewrite Hrun in Hrun'. injection Hrun' as <- <-.
      destruct Hcases as [[? _] | (_ & h & m & t & Ht & _)]; [done | congruence].
    + intros key key_length w' Hrun.
      destruct (crypt_hmac_init_spec l p0 name key key_length w Hl)
        as (r & w1 & Hrun' & Hcases).
      rewrite Hrun in Hrun'. injection Hrun' as <- <-.
      destruct Hcases as [[? _] | (_ & h & m & t & Ht & _)]; [done | congruence].
Qed.

(** SHA-1 and, for the unknown name, MD5 on the executable instance. *)
Lemma crypt_hash_size_recorded_witness :
  (exists h s, heap (Ref.with_slot false (Some 2%positive) (Ref.hash_world false []))
                 !! 1%positive = Some (Cslot (Some h))
     /\ heap (Ref.with_slot false (Some 2%positive) (Ref.hash_world false [])) !! h
        = Some (Chash s)
     /\ hash_len s = crypt_hash_size (B := Ref.backend false) "sha1")
  /\ crypt_hash_size (B := Ref.backend false) "sha1" = 20
  /\ crypt_hash_size (B := Ref.backend false) "md5" = - EINVAL.
Proof.
  destruct (crypt_hash_size_recorded (B := Ref.backend false) 1%positive None "sha1"
              (Ref.slot_world false []) eq_refl) as (Hhash & _ & _).
  destruct (crypt_hash_size_recorded (B := Ref.backend false) 1%positive None "md5"
              (Ref.slot_world false []) eq_refl) as (_ & _ & Hunknown).
  split; [|split].
  - apply Hhash. exact crypt_hash_init_sha1.
  - reflexivity.
  - apply Hunknown. reflexivity.
Defined.

(** ** Teardown *)

Section Teardown.
Context {B : openssl}.
Implicit Types (w : world) (l h m e d : loc) (p : ptr).

Lemma hash_ctx_ne w h m s c : hash_ctx w h m s c -> h ≠ m.
Proof. intros (Hh & _ & Hm) ->. congruence. Qed.

Lemma hmac_ctx_ne w h m s c : hmac_ctx w h m s c -> h ≠ m.
Proof. intros (Hh & _ & Hm) ->. congruence. Qed.

Lemma crypt_hash_destroy_eq w h m s c :
  hash_ctx w h m s c ->
  crypt_hash_destroy (Some h) w
  = Some (tt, World (delete h (delete m (heap w))) (alloc_plan w)).
Proof.
  intros Hctx. pose proof (hash_ctx_ne _ _ _ _ _ Hctx). destruct Hctx as (Hh & Hm & Hc).
  unfold crypt_hash_destroy. mstep. rewrite Hm. mstep.
  do 2 f_equal. f_equal. heap_eq.
Qed.

Lemma crypt_hmac_destroy_eq w h m s c :
  hmac_ctx w h m s c ->
  crypt_hmac_destroy (Some h) w
  = Some (tt, World (delete h (delete m (heap w))) (alloc_plan w)).
Proof.
  intros Hctx. pose proof (hmac_ctx_ne _ _ _ _ _ Hctx). destruct Hctx as (Hh & Hm & Hc).
  unfold crypt_hmac_destroy. mstep. rewrite Hm. mstep.
  do 2 f_equal. f_equal. heap_eq.
Qed.

(** Reading a struct through a pointer to nothing is a fault. *)
Lemma load_dangling w l : heap w !! l = None -> load (Some l) w = None.
Proof. unfold load. by intros ->. Qed.

Lemma hash_at_dangling w l : heap w !! l = None -> hash_at (Some l) w = None.
Proof. intros H. unfold hash_at. by rewrite bind_unfold, load_dangling. Qed.

Lemma hmac_at_dangling w l : heap w !! l = None -> hmac_at (Some l) w = None.
Proof. intros H. unfold hmac_at. by rewrite bind_unfold, load_dangling. Qed.

Lemma cipher_at_dangling w l : heap w !! l = None -> cipher_at (Some l) w = None.
Proof. intros H. unfold cipher_at. by rewrite bind_unfold, load_dangling. Qed.

End Teardown.

(** X6.  [crypt_hash_destroy] and [crypt_hmac_destroy] on a live context
    release the OpenSSL context and the struct and nothing else.  Called
    with the pointer that a successful init stored, they leave the heap as
    it was before the init, but for the caller's pointer variable, which
    still holds the address of the struct that is gone. *)
Theorem crypt_hash_destroy_releases `{B : openssl} :
  (forall (w : world) (h m : loc) s c, hash_ctx w h m s c ->
     crypt_hash_destroy (Some h) w
     = Some (tt, World (delete h (delete m (heap w))) (alloc_plan w)))
  /\ (forall (w : world) (h m : loc) s c, hmac_ctx w h m s c ->
        crypt_hmac_destroy (Some h) w
        = Some (tt, World (delete h (delete m (heap w))) (alloc_plan w)))
  /\ (forall (l : loc) (p0 : ptr) name (w w1 : world),
        heap w !! l = Some (Cslot p0) ->
        crypt_hash_init (Some l) name w = Some (0, w1) ->
        exists h w2, heap w1 !! l = Some (Cslot (Some h))
          /\ crypt_hash_destroy (Some h) w1 = Some (tt, w2)
          /\ heap w2 = <[l:=Cslot (Some h)]> (heap w))
  /\ (forall (l : loc) (p0 : ptr) name key key_length (w w1 : world),
        heap w !! l = Some (Cslot p0) ->
        crypt_hmac_init (Some l) name key key_length w = Some (0, w1) ->
        exists h w2, heap w1 !! l = Some (Cslot (Some h))
          /\ crypt_hmac_destroy (Some h) w1 = Some (tt, w2)
          /\ heap w2 = <[l:=Cslot (Some h)]> (heap w)).
Proof.
  split; [apply @crypt_hash_destroy_eq|]. split; [apply @crypt_hmac_destroy_eq|]. split.
  - intros l p0 name w w1 Hl Hrun.
    destruct (crypt_hash_init_spec l p0 name w Hl) as (r & w' & Hrun' & Hcases).
    rewrite Hrun in Hrun'. injection Hrun' as <- <-.
    destruct Hcases as [[? _] | (_ & h & m & t & Ht & _ & Hh & Hm & Hne & Hw)]; first done.
    assert (l ≠ h) by congruence. assert (l ≠ m) by congruence.
    eexists h, _. split; [rewrite Hw; heap_lookup|]. split.
    + eapply crypt_hash_destroy_eq. unfold hash_ctx. rewrite Hw.
      repeat split; [heap_lookup | reflexivity | heap_lookup].
    + cbn [heap]. rewrite Hw. heap_eq.
  - intros l p0 name key key_length w w1 Hl Hrun.
    destruct (crypt_hmac_init_spec l p0 name key key_length w Hl)
      as (r & w' & Hrun' & Hcases).
    rewrite Hrun in Hrun'. injection Hrun' as <- <-.
    destruct Hcases as [[? _] | (_ & h & m & t & Ht & Hh & Hm & Hne & Hw)]; first done.
    assert (l ≠ h) by congruence. assert (l ≠ m) by congruence.
    eexists h, _. split; [rewrite Hw; heap_lookup|]. split.
    + eapply crypt_hmac_destroy_eq. unfold hmac_ctx. rewrite Hw.
      repeat split; [heap_lookup | reflexivity | heap_lookup].
    + cbn [heap]. rewrite Hw. heap_eq.
Qed.

(** A SHA-1 context alone on the heap, and one just made by the init. *)
Lemma crypt_hash_destroy_releases_witness :
  crypt_hash_destroy (B := Ref.backend false) (Some 2%positive) (Ref.hash_world false [x61])
  = Some (tt, World (delete 2%positive (delete 3%positive
                       (heap (Ref.hash_world false [x61])))) [])
  /\ exists h w2,
       heap (Ref.with_slot false (Some 2%positive) (Ref.hash_world false [])) !! 1%positive
       = Some (Cslot (Some h))
       /\ crypt_hash_destroy (B := Ref.backend false) (Some h)
            (Ref.with_slot false (Some 2%positive) (Ref.hash_world false []))
          = Some (tt, w2)
       /\ heap w2 = <[1%positive:=Cslot (Some h)]> (heap (Ref.slot_world false [])).
Proof.
  destruct (crypt_hash_destroy_releases (B := Ref.backend false)) as (Hd & _ & Hi & _).
  split.
  - apply (Hd (Ref.hash_world false [x61]) 2%positive 3%positive
             (@Build_crypt_hash (Ref.backend false) (Some 3%positive) (Some Ref.sha1) 20)
             (Ref.md_absorbed Ref.sha1 [x61])).
    repeat split; reflexivity.
  - apply (Hi 1%positive None "sha1" (Ref.slot_world false [])); [reflexivity|].
    exact crypt_hash_init_sha1.
Defined.

(** X7.  [crypt_cipher_destroy], called with the pointer that a successful
    [crypt_cipher_init] stored, releases the two contexts and the session:
    the heap is as it was before the init, but for the caller's pointer
    variable, which still holds the address of the session that is gone. *)
Theorem crypt_cipher_init_destroy `{B : openssl} (l : loc) (p0 : ptr) (name mode : string)
    (key : option (list byte)) (key_length : Z) (w w1 : world) :
  heap w !! l = Some (Cslot p0) ->
  crypt_cipher_init (Some l) name mode key key_length w = Some (0, w1) ->
  exists h w2, heap w1 !! l = Some (Cslot (Some h))
    /\ crypt_cipher_destroy (Some h) w1 = Some (tt, w2)
    /\ heap w2 = <[l:=Cslot (Some h)]> (heap w)
    /\ alloc_plan w2 = alloc_plan w1.
Proof.
  intros Hl Hrun.
  destruct (crypt_cipher_init_spec l p0 name mode key key_length w Hl)
    as (r & w' & Hrun' & Hcases).
  rewrite Hrun in Hrun'. injection Hrun' as <- <-.
  destruct Hcases
    as [[? _] | (_ & h & e & d & t & Ht & Hh & He & Hd & ? & ? & ? & _ & _ & _ & _ & Hw)];
    first done.
  assert (l ≠ h) by congruence. assert (l ≠ e) by congruence. assert (l ≠ d) by congruence.
  eexists h, _. split; [rewrite Hw; heap_lookup|]. split; [|split].
  - eapply (crypt_cipher_destroy_eq w1 h (Some e) (Some d)).
    + rewrite Hw. heap_lookup.
    + eexists. rewrite Hw. heap_lookup.
    + eexists. rewrite Hw. heap_lookup.
    + right. congruence.
  - cbn [heap delete_ptr]. rewrite Hw. heap_eq.
  - reflexivity.
Qed.

(** A session made by the init on the executable instance and torn down. *)
Lemma crypt_cipher_init_destroy_witness :
  exists h w2,
    heap (Ref.with_slot false (Some 2%positive)
            (Ref.session_world false EVP_aes_128_cbc (replicate 16 x6b))) !! 1%positive
    = Some (Cslot (Some h))
    /\ crypt_cipher_destroy (B := Ref.backend false) (Some h)
         (Ref.with_slot false (Some 2%positive)
            (Ref.session_world false EVP_aes_128_cbc (replicate 16 x6b)))
       = Some (tt, w2)
    /\ heap w2 = <[1%positive:=Cslot (Some h)]> (heap (Ref.slot_world false []))
    /\ alloc_plan w2 = [].
Proof.
  apply (crypt_cipher_init_destroy (B := Ref.backend false) 1%positive None "aes" "cbc"
           (Some (replicate 16 x6b)) 16 (Ref.slot_world false [])); [reflexivity|].
  vm_cast_no_check
    (eq_refl (Some (0, Ref.with_slot false (Some 2%positive)
                         (Ref.session_world false EVP_aes_128_cbc (replicate 16 x6b))))).
Defined.

(** X8.  After the destroy function has returned, the pointer it was given
    points to nothing: a write, a finalize, an encryption, a decryption or
    a second destroy through it is undefined behaviour. *)
Theorem crypt_destroy_then_use `{B : openssl} :
  (forall (w : world) (h m : loc) s c buffer length tmp,
     hash_ctx w h m s c ->
     exists w', crypt_hash_destroy (Some h) w = Some (tt, w')
       /\ crypt_hash_write (Some h) buffer length w' = None
       /\ crypt_hash_final (Some h) buffer length tmp w' = None
       /\ crypt_hash_destroy (Some h) w' = None)
  /\ (forall (w : world) (h m : loc) s c buffer length tmp,
        hmac_ctx w h m s c ->
        exists w', crypt_hmac_destroy (Some h) w = Some (tt, w')
          /\ crypt_hmac_write (Some h) buffer length w' = None
          /\ crypt_hmac_final (Some h) buffer length tmp w' = None
          /\ crypt_hmac_destroy (Some h) w' = None)
  /\ (forall (w : world) (h : loc) (pe pd : ptr) inp out length iv iv_length,
        heap w !! h = Some (Ccipher {| hd_enc := pe; hd_dec := pd |}) ->
        cipher_ctx_or_null w pe -> cipher_ctx_or_null w pd ->
        (pe = None \/ pe ≠ pd) ->
        exists w', crypt_cipher_destroy (Some h) w = Some (tt, w')
          /\ crypt_cipher_encrypt (Some h) inp out length iv iv_length w' = None
          /\ crypt_cipher_decrypt (Some h) inp out length iv iv_length w' = None
          /\ crypt_cipher_destroy (Some h) w' = None).
Proof.
  split; [|split].
  - intros w h m s c buffer length tmp Hctx.
    rewrite (crypt_hash_destroy_eq _ _ _ _ _ Hctx). eexists. split; [reflexivity|].
    unfold crypt_hash_write, crypt_hash_final, crypt_hash_destroy.
    rewrite !bind_unfold, !hash_at_dangling; [done|].
    cbn [heap]. apply lookup_delete_eq.
  - intros w h m s c buffer length tmp Hctx.
    rewrite (crypt_hmac_destroy_eq _ _ _ _ _ Hctx). eexists. split; [reflexivity|].
    unfold crypt_hmac_write, crypt_hmac_final, crypt_hmac_destroy.
    rewrite !bind_unfold, !hmac_at_dangling; [done|].
    cbn [heap]. apply lookup_delete_eq.
  - intros w h pe pd inp out length iv iv_length Hh He Hd Hne.
    rewrite (crypt_cipher_destroy_eq _ _ _ _ Hh He Hd Hne). eexists. split; [reflexivity|].
    unfold crypt_cipher_encrypt, crypt_cipher_decrypt, crypt_cipher_destroy.
    rewrite !bind_unfold, !cipher_at_dangling; [done|].
    cbn [heap]. apply lookup_delete_eq.
Qed.

(** A SHA-1 context and a cipher session of the executable instance. *)
Lemma crypt_destroy_then_use_witness :
  (exists w', crypt_hash_destroy (B := Ref.backend false) (Some 2%positive)
                (Ref.hash_world false [x61]) = Some (tt, w')
     /\ crypt_hash_write (Some 2%positive) (replicate 20 xff) 20 w' = None
     /\ crypt_hash_final (Some 2%positive) (replicate 20 xff) 20 (replicate 64 xaa) w' = None
     /\ crypt_hash_destroy (Some 2%positive) w' = None)
  /\ (exists w', crypt_cipher_destroy (B := Ref.backend false) (Some 2%positive)
                   (Ref.session_world false EVP_aes_128_cbc (replicate 16 x6b))
                 = Some (tt, w')
        /\ crypt_cipher_encrypt (Some 2%positive) (replicate 16 x70) (replicate 16 x00) 16
             (Some (replicate 16 x69)) 16 w' = None
        /\ crypt_cipher_decrypt (Some 2%positive) (replicate 16 x70) (replicate 16 x00) 16
             (Some (replicate 16 x69)) 16 w' = None
        /\ crypt_cipher_destroy (Some 2%positive) w' = None).
Proof.
  destruct (crypt_destroy_then_use (B := Ref.backend false)) as (Hhash & _ & Hcipher).
  split.
  - apply (Hhash (Ref.hash_world false [x61]) 2%positive 3%positive
             (@Build_crypt_hash (Ref.backend false) (Some 3%positive) (Some Ref.sha1) 20)
             (Ref.md_absorbed Ref.sha1 [x61])).
    repeat split; reflexivity.
  - apply (Hcipher (Ref.session_world false EVP_aes_128_cbc (replicate 16 x6b)) 2%positive
             (Some 3%positive) (Some 4%positive)).
    + reflexivity.
    + eexists. reflexivity.
    + eexists. reflexivity.
    + right. discriminate.
Defined.

(** ** What a call leaves alone *)

Section Frame.
Context {B : openssl}.
Implicit Types (w : world) (l h m e d : loc) (p : ptr).

Lemma only_changed_refl w m : only_changed w w m.
Proof. by split. Qed.

Lemma only_changed_insert w m (c : cell) :
  only_changed w (World (<[m:=c]> (heap w)) (alloc_plan w)) m.
Proof. split; [done|]. intros i Hi. cbn [heap]. by rewrite lookup_insert_ne. Qed.

Lemma hash_ctx_insert w h m s c c' :
  hash_ctx w h m s c -> hash_ctx (World (<[m:=Cmd c']> (heap w)) (alloc_plan w)) h m s c'.
Proof.
  intros Hctx. pose proof (hash_ctx_ne _ _ _ _ _ Hctx). destruct Hctx as (Hh & Hm & Hc).
  repeat split; [heap_lookup | done | heap_lookup].
Qed.

Lemma hmac_ctx_insert w h m s c c' :
  hmac_ctx w h m s c -> hmac_ctx (World (<[m:=Cmac c']> (heap w)) (alloc_plan w)) h m s c'.
Proof.
  intros Hctx. pose proof (hmac_ctx_ne _ _ _ _ _ Hctx). destruct Hctx as (Hh & Hm & Hc).
  repeat split; [heap_lookup | done | heap_lookup].
Qed.

End Frame.

(** X9.  A write or a finalize on a live hash or HMAC context changes the
    state of the context's own OpenSSL object and nothing else: the struct
    keeps its digest, its recorded size and its pointer, every other object
    on the heap is what it was, nothing is allocated or released.  A write
    on a live context always returns. *)
Theorem crypt_hash_calls_frame `{B : openssl} :
  (forall (w : world) (h m : loc) s c buffer length,
     hash_ctx w h m s c ->
     exists r w' c', crypt_hash_write (Some h) buffer length w = Some (r, w')
       /\ only_changed w w' m /\ hash_ctx w' h m s c')
  /\ (forall (w : world) (h m : loc) s c buffer length tmp res w',
        hash_ctx w h m s c ->
        crypt_hash_final (Some h) buffer length tmp w = Some (res, w') ->
        exists c', only_changed w w' m /\ hash_ctx w' h m s c')
  /\ (forall (w : world) (h m : loc) s c buffer length,
        hmac_ctx w h m s c ->
        exists w' c', crypt_hmac_write (Some h) buffer length w = Some (0, w')
          /\ only_changed w w' m /\ hmac_ctx w' h m s c')
  /\ (forall (w : world) (h m : loc) s c buffer length tmp res w',
        hmac_ctx w h m s c ->
        crypt_hmac_final (Some h) buffer length tmp w = Some (res, w') ->
        exists c', only_changed w w' m /\ hmac_ctx w' h m s c').
Proof.
  split; [|split; [|split]].
  - intros w h m s c buffer length Hctx.
    rewrite (crypt_hash_write_eq _ _ _ _ _ _ _ Hctx).
    eexists _, _, _. split; [reflexivity|].
    split; [apply only_changed_insert | by eapply hash_ctx_insert].
  - intros w h m s c buffer length tmp res w' Hctx Hrun.
    rewrite (crypt_hash_final_eq _ _ _ _ _ _ _ _ Hctx) in Hrun.
    destruct (length >? _).
    { injection Hrun as _ <-. exists c. by split; [apply only_changed_refl|]. }
    cbn zeta in Hrun. destruct (negb _).
    { injection Hrun as _ <-. eexists.
      split; [apply only_changed_insert | by eapply hash_ctx_insert]. }
    destruct (memcpy _ _ _); last done. destruct (_ <? length).
    { injection Hrun as _ <-. eexists.
      split; [apply only_changed_insert | by eapply hash_ctx_insert]. }
    injection Hrun as _ <-. eexists.
    split; [apply only_changed_insert | by eapply hash_ctx_insert].
  - intros w h m s c buffer length Hctx.
    rewrite (crypt_hmac_write_eq _ _ _ _ _ _ _ Hctx).
    eexists _, _. split; [reflexivity|].
    split; [apply only_changed_insert | by eapply hmac_ctx_insert].
  - intros w h m s c buffer length tmp res w' Hctx Hrun.
    rewrite (crypt_hmac_final_eq _ _ _ _ _ _ _ _ Hctx) in Hrun.
    destruct (length >? _).
    { injection Hrun as _ <-. exists c. by split; [apply only_changed_refl|]. }
    cbn zeta in Hrun.
    destruct (memcpy _ _ _); last done. destruct (_ <? length).
    { injection Hrun as _ <-. eexists.
      split; [apply only_changed_insert | by eapply hmac_ctx_insert]. }
    injection Hrun as _ <-. eexists.
    split; [apply only_changed_insert | by eapply hmac_ctx_insert].
Qed.

(** A write of one byte on a SHA-1 context of the executable instance. *)
Lemma crypt_hash_calls_frame_witness :
  exists r w' c',
    crypt_hash_write (B := Ref.backend false) (Some 2%positive) [x62] 1
      (Ref.hash_world false [x61]) = Some (r, w')
    /\ only_changed (Ref.hash_world false [x61]) w' 3%positive
    /\ hash_ctx w' 2%positive 3%positive
         (@Build_crypt_hash (Ref.backend false) (Some 3%positive) (Some Ref.sha1) 20) c'.
Proof.
  destruct (crypt_hash_calls_frame (B := Ref.backend false)) as (Hwrite & _).
  apply (Hwrite (Ref.hash_world false [x61]) 2%positive 3%positive
           (@Build_crypt_hash (Ref.backend false) (Some 3%positive) (Some Ref.sha1) 20)
           (Ref.md_absorbed Ref.sha1 [x61])).
  repeat split; reflexivity.
Defined.

(** ** Failures of the finalize functions *)

(** X10.  [crypt_hash_final] on a live context, asked for no more bytes
    than the recorded digest size.  When [EVP_DigestFinal_ex] does not
    return 1 the call returns -EINVAL with the caller's buffer untouched,
    the scratch array as the primitive left it, not zeroed, and the context
    not restarted.  When the primitive returns 1 but reports fewer bytes
    than were asked for, the call returns -EINVAL after it has overwritten
    the first [length] bytes of the caller's buffer; the scratch array is
    zeroed and the context is not restarted. *)
Theorem crypt_hash_final_failures `{B : openssl} (w : world) (h m : loc) (s : crypt_hash)
    (c : EVP_MD_CTX) (buffer : list byte) (length : Z) (tmp : list byte)
    (r : Z) (c1 : EVP_MD_CTX) (tmp1 : list byte) (n : Z) :
  hash_ctx w h m s c ->
  length <= to_size_t (hash_len s) ->
  digest_final c tmp = (r, c1, tmp1, n) ->
  (r ≠ 1 ->
     crypt_hash_final (Some h) buffer length tmp w
     = Some ((- EINVAL, buffer, tmp1), World (<[m:=Cmd c1]> (heap w)) (alloc_plan w)))
  /\ (r = 1 -> 0 <= length <= sizeof buffer -> length <= sizeof tmp1 -> n < length ->
        crypt_hash_final (Some h) buffer length tmp w
        = Some ((- EINVAL,
                 take (Z.to_nat length) tmp1 ++ drop (Z.to_nat length) buffer,
                 replicate (List.length tmp1) x00),
                World (<[m:=Cmd c1]> (heap w)) (alloc_plan w))).
Proof.
  intros Hctx Hlen Hfinal.
  rewrite (crypt_hash_final_eq _ _ _ _ _ _ _ _ Hctx), Hfinal. cbn [fst snd].
  destruct (Z.gtb_spec length (to_size_t (hash_len s))); [lia|].
  split.
  - intros Hr. by destruct (Z.eqb_spec r 1).
  - intros -> Hbuf Htmp Hn. cbn [Z.eqb negb].
    unfold sizeof in Hbuf, Htmp. rewrite memcpy_eq by lia.
    rewrite crypt_backend_memzero_all.
    by destruct (Z.ltb_spec n length); [|lia].
Qed.

(** A SHA-1 context finalized twice in a row with no restart between, and
    a struct that records 32 bytes over a context that produces 20. *)
Lemma crypt_hash_final_failures_witness :
  crypt_hash_final (B := Ref.backend false) (Some 2%positive) (replicate 20 xff) 20
    (replicate 64 xaa) (Ref.hash_world_of false finalized_md_ctx)
  = Some ((- EINVAL, replicate 20 xff, replicate 64 xaa),
          World (<[3%positive:=@Cmd (Ref.backend false) finalized_md_ctx]>
                   (heap (Ref.hash_world_of false finalized_md_ctx))) [])
  /\ crypt_hash_final (B := Ref.backend false) (Some 2%positive) (replicate 32 xff) 32
       (replicate 64 xaa) short_digest_world
     = Some ((- EINVAL,
              take (Z.to_nat 32) (Ref.digest Ref.sha1 [] ++ replicate 44 xaa)
                ++ drop (Z.to_nat 32) (replicate 32 xff),
              replicate (List.length (Ref.digest Ref.sha1 [] ++ replicate 44 xaa)) x00),
             World (<[3%positive:=@Cmd (Ref.backend false) finalized_md_ctx]>
                      (heap short_digest_world)) []).
Proof.
  split.
  - refine (proj1 (crypt_hash_final_failures (B := Ref.backend false)
                     (Ref.hash_world_of false finalized_md_ctx) 2%positive 3%positive
                     (@Build_crypt_hash (Ref.backend false) (Some 3%positive)
                        (Some Ref.sha1) 20)
                     finalized_md_ctx (replicate 20 xff) 20 (replicate 64 xaa)
                     0 finalized_md_ctx (replicate 64 xaa) 0 _ _ _) _).
    + repeat split; reflexivity.
    + vm_compute. discriminate.
    + reflexivity.
    + discriminate.
  - refine (proj2 (crypt_hash_final_failures (B := Ref.backend false)
                     short_digest_world 2%positive 3%positive
                     (@Build_crypt_hash (Ref.backend false) (Some 3%positive)
                        (Some Ref.sha256) 32)
                     (Ref.md_absorbed Ref.sha1 []) (replicate 32 xff) 32 (replicate 64 xaa)
                     1 finalized_md_ctx (Ref.digest Ref.sha1 [] ++ replicate 44 xaa) 20
                     _ _ _) _ _ _ _).
    + repeat split; reflexivity.
    + vm_compute. discriminate.
    + reflexivity.
    + reflexivity.
    + vm_compute. split; discriminate.
    + vm_compute. discriminate.
    + lia.
Defined.

(** X11.  The return value of [crypt_hmac_final] on a live context is
    decided by the two length tests alone: -EINVAL when more bytes are
    asked for than the recorded digest size or than [HMAC_Final] reports
    to have written, 0 otherwise, whatever [HMAC_Final] returns. *)
Theorem crypt_hmac_final_returns `{B : openssl} (w : world) (h m : loc) (s : crypt_hmac)
    (c : HMAC_CTX) (buffer : list byte) (length : Z) (tmp : list byte) :
  hmac_ctx w h m s c ->
  0 <= length <= sizeof buffer -> length <= sizeof (hmac_final c tmp).1.2 ->
  exists buffer' scratch w',
    crypt_hmac_final (Some h) buffer length tmp w
    = Some ((if (length >? to_size_t (hmac_hash_len s))
                || ((hmac_final c tmp).2 <? length)
             then - EINVAL else 0, buffer', scratch), w').
Proof.
  intros Hctx Hbuf Htmp. rewrite (crypt_hmac_final_eq _ _ _ _ _ _ _ _ Hctx).
  destruct (length >? _); [by eexists _, _, _|]. cbn zeta. cbn [orb].
  unfold sizeof in Hbuf, Htmp. rewrite memcpy_eq by lia.
  destruct (_ <? length); by eexists _, _, _.
Qed.

(** A context that never had a key, asked for no bytes: [HMAC_Final]
    returns 0, the call returns 0. *)
Lemma crypt_hmac_final_returns_witness :
  (@hmac_final (Ref.backend false) (@hmac_ctx_new (Ref.backend false))
     (replicate 64 xaa)).1.1.1 = 0
  /\ exists buffer' scratch w',
       crypt_hmac_final (B := Ref.backend false) (Some 2%positive) (replicate 20 xff) 0
         (replicate 64 xaa) (Ref.hmac_world_of false (@hmac_ctx_new (Ref.backend false)))
       = Some ((0, buffer', scratch), w').
Proof.
  split; [reflexivity|].
  apply (crypt_hmac_final_returns (B := Ref.backend false)
           (Ref.hmac_world_of false (@hmac_ctx_new (Ref.backend false)))
           2%positive 3%positive
           (@Build_crypt_hmac (Ref.backend false) (Some 3%positive) (Some Ref.sha1) 20)
           (@hmac_ctx_new (Ref.backend false)) (replicate 20 xff) 0 (replicate 64 xaa)).
  - repeat split; reflexivity.
  - vm_compute. split; discriminate.
  - vm_compute. discriminate.
Defined.

(** ** The two directions of a cipher session *)

Section Directions.
Context {B : openssl}.
Implicit Types (w : world) (l h m e d : loc) (p : ptr).

(** [crypt_cipher_encrypt] and [crypt_cipher_decrypt] on a session whose
    context for the direction is live, step by step. *)
Lemma crypt_cipher_encrypt_eq w h e pd ce inp out length iv iv_length :
  heap w !! h = Some (Ccipher {| hd_enc := Some e; hd_dec := pd |}) ->
  heap w !! e = Some (Cenc ce) ->
  crypt_cipher_encrypt (Some h) inp out length iv iv_length w
  = let a := encrypt_init ce None None iv in
    if negb (a.1 =? 1)
    then Some ((- EINVAL, out), World (<[e:=Cenc a.2]> (heap w)) (alloc_plan w)) else
    let b := encrypt_update a.2 out inp (to_int length) in
    if negb (b.1.1.1 =? 1)
    then Some ((- EINVAL, b.1.2), World (<[e:=Cenc b.1.1.2]> (heap w)) (alloc_plan w)) else
    if (0 <=? b.2) && (b.2 <=? Z.of_nat (List.length b.1.2)) then
      let f := encrypt_final b.1.1.2 (drop (Z.to_nat b.2) b.1.2) in
      Some ((if f.1.1.1 =? 1 then 0 else - EINVAL, take (Z.to_nat b.2) b.1.2 ++ f.1.2),
            World (<[e:=Cenc f.1.1.2]> (heap w)) (alloc_plan w))
    else None.
Proof.
  intros Hh He. assert (h ≠ e) by (intros ->; congruence).
  unfold crypt_cipher_encrypt. mstep. cbn zeta.
  destruct (encrypt_init ce None None iv) as [r1 c1]. cbn [fst snd].
  destruct (r1 =? 1); mstep; [|done].
  destruct (encrypt_update c1 out inp (to_int length)) as [[[r2 c2] out2] n2].
  cbn [fst snd]. rewrite insert_insert_eq.
  destruct (r2 =? 1); cbn [negb]; [|done].
  unfold EVP_EncryptFinal. rewrite !bind_unfold. erewrite enc_at_eq by heap_lookup.
  destruct ((0 <=? n2) && (n2 <=? Z.of_nat (List.length out2))); [|done].
  destruct (encrypt_final c2 (drop (Z.to_nat n2) out2)) as [[[r3 c3] rest] n3].
  mstep. rewrite insert_insert_eq. by destruct (r3 =? 1).
Qed.

Lemma crypt_cipher_decrypt_eq w h pe d cd inp out length iv iv_length :
  heap w !! h = Some (Ccipher {| hd_enc := pe; hd_dec := Some d |}) ->
  heap w !! d = Some (Cenc cd) ->
  crypt_cipher_decrypt (Some h) inp out length iv iv_length w
  = let a := decrypt_init cd None None iv in
    if negb (a.1 =? 1)
    then Some ((- EINVAL, out), World (<[d:=Cenc a.2]> (heap w)) (alloc_plan w)) else
    let b := decrypt_update a.2 out inp (to_int length) in
    if negb (b.1.1.1 =? 1)
    then Some ((- EINVAL, b.1.2), World (<[d:=Cenc b.1.1.2]> (heap w)) (alloc_plan w)) else
    if (0 <=? b.2) && (b.2 <=? Z.of_nat (List.length b.1.2)) then
      let f := decrypt_final b.1.1.2 (drop (Z.to_nat b.2) b.1.2) in
      Some ((if f.1.1.1 =? 1 then 0 else - EINVAL, take (Z.to_nat b.2) b.1.2 ++ f.1.2),
            World (<[d:=Cenc f.1.1.2]> (heap w)) (alloc_plan w))
    else None.
Proof.
  intros Hh Hd. assert (h ≠ d) by (intros ->; congruence).
  unfold crypt_cipher_decrypt. mstep. cbn zeta.
  destruct (decrypt_init cd None None iv) as [r1 c1]. cbn [fst snd].
  destruct (r1 =? 1); mstep; [|done].
  destruct (decrypt_update c1 out inp (to_int length)) as [[[r2 c2] out2] n2].
  cbn [fst snd]. rewrite insert_insert_eq.
  destruct (r2 =? 1); cbn [negb]; [|done].
  unfold EVP_DecryptFinal. rewrite !bind_unfold. erewrite enc_at_eq by heap_lookup.
  destruct ((0 <=? n2) && (n2 <=? Z.of_nat (List.length out2))); [|done].
  destruct (decrypt_final c2 (drop (Z.to_nat n2) out2)) as [[[r3 c3] rest] n3].
  mstep. rewrite insert_insert_eq. by destruct (r3 =? 1).
Qed.

End Directions.

(** X12.  On a session with two live contexts, [crypt_cipher_encrypt]
    changes the state of the encrypt context and nothing else, and
    [crypt_cipher_decrypt] that of the decrypt context and nothing else: the
    context of the other direction, the session struct and every other
    object are what they were.  Either call returns 0 or -EINVAL; it
    returns 0 only if its setting of the IV returned 1, and when that step
    fails the output buffer is untouched. *)
Theorem crypt_cipher_calls_frame `{B : openssl} (w : world) (h e d : loc)
    (ce cd : EVP_CIPHER_CTX) (inp out : list byte) (length : Z) (iv : option (list byte))
    (iv_length : Z) :
  heap w !! h = Some (Ccipher {| hd_enc := Some e; hd_dec := Some d |}) ->
  heap w !! e = Some (Cenc ce) -> heap w !! d = Some (Cenc cd) ->
  (forall r out' w',
     crypt_cipher_encrypt (Some h) inp out length iv iv_length w = Some ((r, out'), w') ->
     only_changed w w' e
     /\ (r = 0 \/ r = - EINVAL)
     /\ (r = 0 -> (encrypt_init ce None None iv).1 = 1)
     /\ ((encrypt_init ce None None iv).1 ≠ 1 -> out' = out))
  /\ (forall r out' w',
        crypt_cipher_decrypt (Some h) inp out length iv iv_length w = Some ((r, out'), w') ->
        only_changed w w' d
        /\ (r = 0 \/ r = - EINVAL)
        /\ (r = 0 -> (decrypt_init cd None None iv).1 = 1)
        /\ ((decrypt_init cd None None iv).1 ≠ 1 -> out' = out)).
Proof.
  intros Hh He Hd. split.
  - intros r out' w' Hrun.
    rewrite (crypt_cipher_encrypt_eq _ _ _ _ _ _ _ _ _ _ Hh He) in Hrun. cbn zeta in Hrun.
    destruct (Z.eqb_spec (encrypt_init ce None None iv).1 1) as [E1|E1]; cbn [negb] in Hrun.
    2:{ injection Hrun as <- <- <-. split; [apply only_changed_insert|].
        split; [by right|]. by split. }
    destruct (negb _).
    { injection Hrun as <- <- <-. split; [apply only_changed_insert|].
      split; [by right|]. by split. }
    destruct (_ && _); [|done].
    injection Hrun as <- <- <-. split; [apply only_changed_insert|].
    split; [destruct (_ =? 1); auto|]. by split.
  - intros r out' w' Hrun.
    rewrite (crypt_cipher_decrypt_eq _ _ _ _ _ _ _ _ _ _ Hh Hd) in Hrun. cbn zeta in Hrun.
    destruct (Z.eqb_spec (decrypt_init cd None None iv).1 1) as [E1|E1]; cbn [negb] in Hrun.
    2:{ injection Hrun as <- <- <-. split; [apply only_changed_insert|].
        split; [by right|]. by split. }
    destruct (negb _).
    { injection Hrun as <- <- <-. split; [apply only_changed_insert|].
      split; [by right|]. by split. }
    destruct (_ && _); [|done].
    injection Hrun as <- <- <-. split; [apply only_changed_insert|].
    split; [destruct (_ =? 1); auto|]. by split.
Qed.

(** One block encrypted on a session of the executable instance: the call
    has set the IV in the encrypt context at address 3. *)
Lemma crypt_cipher_calls_frame_witness :
  let w := Ref.session_world false EVP_aes_128_cbc (replicate 16 x6b) in
  let w' := World (<[3%positive := @Cenc (Ref.backend false)
                       {| Ref.c_type := Some EVP_aes_128_cbc;
                          Ref.c_key := Some (replicate 16 x6b);
                          Ref.c_iv := replicate 16 x69; Ref.c_dec := false;
                          Ref.c_pad := false; Ref.c_pending := [] |}]> (heap w)) [] in
  crypt_cipher_encrypt (B := Ref.backend false) (Some 2%positive) (replicate 16 x70)
    (replicate 16 x00) 16 (Some (replicate 16 x69)) 16 w
  = Some ((0, replicate 16 xb1), w')
  /\ only_changed w w' 3%positive
  /\ heap w' !! 4%positive = heap w !! 4%positive.
Proof.
  intros w w'.
  assert (Hrun : crypt_cipher_encrypt (B := Ref.backend false) (Some 2%positive)
                   (replicate 16 x70) (replicate 16 x00) 16 (Some (replicate 16 x69)) 16 w
                 = Some ((0, replicate 16 xb1), w')).
  { vm_cast_no_check (eq_refl (Some ((0, replicate 16 xb1), w'))). }
  destruct (crypt_cipher_calls_frame (B := Ref.backend false) w 2%positive 3%positive
              4%positive
              {| Ref.c_type := Some EVP_aes_128_cbc; Ref.c_key := Some (replicate 16 x6b);
                 Ref.c_iv := []; Ref.c_dec := false; Ref.c_pad := false;
                 Ref.c_pending := [] |}
              {| Ref.c_type := Some EVP_aes_128_cbc; Ref.c_key := Some (replicate 16 x6b);
                 Ref.c_iv := []; Ref.c_dec := true; Ref.c_pad := false;
                 Ref.c_pending := [] |}
              (replicate 16 x70) (replicate 16 x00) 16 (Some (replicate 16 x69)) 16
              eq_refl eq_refl eq_refl) as (Henc & _).
  destruct (Henc _ _ _ Hrun) as (Hframe & _).
  split; [exact Hrun|]. split; [exact Hframe|].
  apply Hframe. discriminate.
Defined.

(** ** A message in pieces *)

Section Pieces.
Context `{DC : digest_contract}.
Implicit Types (w : world) (l h m : loc) (t : EVP_MD).

Lemma crypt_hash_writes_ok chunks w h t msg :
  hash_state w h t msg ->
  exists w', crypt_hash_writes (Some h) chunks w = Some (0, w')
    /\ hash_state w' h t (msg ++ concat chunks).
Proof.
  revert w msg. induction chunks as [|d chunks IH]; intros w msg Hs.
  - exists w. split; [reflexivity|]. by rewrite app_nil_r.
  - destruct (crypt_hash_write_ok w h t msg d (sizeof d) Hs) as (w1 & Hw & Hs1).
    { unfold sizeof. lia. }
    cbn [crypt_hash_writes concat]. rewrite bind_unfold, Hw. cbn [Z.eqb].
    unfold sizeof in Hs1. rewrite Nat2Z.id, firstn_all in Hs1.
    destruct (IH _ _ Hs1) as (w2 & Hw2 & Hs2).
    exists w2. split; [done|]. by rewrite (assoc_L (++)).
Qed.

End Pieces.

(** X13.  Over an OpenSSL that keeps its promises, on a hash context of
    digest [t] that has absorbed [msg]: any sequence of [crypt_hash_write]
    calls returns 0 each time, and a [crypt_hash_final] after them returns 0
    with the digest of [msg] followed by the pieces in order, cut to the
    length asked for.  The digest depends on the concatenation alone, not on
    where the message was cut. *)
Theorem crypt_hash_writes_concat `{B : openssl} `{!digest_contract} (w : world) (h : loc)
    (t : EVP_MD) (msg : list byte) (chunks : list (list byte)) (buffer : list byte)
    (length : Z) (tmp : list byte) :
  hash_state w h t msg ->
  0 <= length <= EVP_MD_size t -> length <= sizeof buffer ->
  sizeof tmp = EVP_MAX_MD_SIZE ->
  exists w1 w2,
    crypt_hash_writes (Some h) chunks w = Some (0, w1)
    /\ crypt_hash_final (Some h) buffer length tmp w1
       = Some ((0, take (Z.to_nat length) (digest_of t (msg ++ concat chunks))
                     ++ drop (Z.to_nat length) buffer,
                replicate (List.length tmp) x00), w2)
    /\ hash_state w2 h t [].
Proof.
  intros Hs Hlen Hbuf Htmp.
  destruct (crypt_hash_writes_ok chunks w h t msg Hs) as (w1 & Hw & Hs1).
  destruct (crypt_hash_final_ok w1 h t _ buffer length tmp Hs1 Hlen Hbuf Htmp)
    as (w2 & Hf & Hs2).
  by exists w1, w2.
Qed.

(** "abc" written as "a" and "bc" to a SHA-1 context of the executable
    instance. *)
Lemma crypt_hash_writes_concat_witness :
  exists w1 w2,
    crypt_hash_writes (B := Ref.backend false) (Some 2%positive) [[x61]; [x62; x63]]
      (Ref.hash_world false []) = Some (0, w1)
    /\ crypt_hash_final (Some 2%positive) (replicate 20 xff) 20 (replicate 64 xaa) w1
       = Some ((0, take (Z.to_nat 20) (Ref.digest Ref.sha1 ([] ++ concat [[x61]; [x62; x63]]))
                     ++ drop (Z.to_nat 20) (replicate 20 xff),
                replicate (List.length (replicate 64 xaa)) x00), w2)
    /\ hash_state w2 2%positive Ref.sha1 [].
Proof.
  apply (crypt_hash_writes_concat (B := Ref.backend false) (Ref.hash_world false [])
           2%positive Ref.sha1 [] [[x61]; [x62; x63]] (replicate 20 xff) 20
           (replicate 64 xaa) (Ref_hash_state [])).
  - simpl. lia.
  - vm_compute. discriminate.
  - reflexivity.
Defined.

(** ** Calls on one session *)

(** X14.  Over an OpenSSL that keeps its promises, what an encryption
    returns on a session does not depend on the calls made on the session
    before: after an earlier encryption or an earlier decryption, of other
    data under another IV, it returns what it returns on the session as the
    init left it.  No IV and no chaining state is carried from call to
    call. *)
Theorem crypt_cipher_calls_independent `{B : openssl} `{!cipher_contract} (w : world)
    (h : loc) (t : EVP_CIPHER) (k : list byte)
    (inp0 out0 : list byte) (length0 : Z) (iv0 : list byte) (iv_length0 : Z)
    (inp out : list byte) (length : Z) (iv : list byte) (iv_length : Z) :
  cipher_session w h t k ->
  EVP_CIPHER_iv_length t <= sizeof iv0 ->
  0 <= length0 <= sizeof inp0 -> length0 <= sizeof out0 ->
  length0 mod AES_BLOCK_SIZE = 0 -> length0 <= INT_MAX ->
  EVP_CIPHER_iv_length t <= sizeof iv ->
  0 <= length <= sizeof inp -> length <= sizeof out ->
  length mod AES_BLOCK_SIZE = 0 -> length <= INT_MAX ->
  exists res r0 r0' w0 w0',
    crypt_cipher_encrypt (Some h) inp0 out0 length0 (Some iv0) iv_length0 w = Some (r0, w0)
    /\ crypt_cipher_decrypt (Some h) inp0 out0 length0 (Some iv0) iv_length0 w
       = Some (r0', w0')
    /\ fst <$> crypt_cipher_encrypt (Some h) inp out length (Some iv) iv_length w = Some res
    /\ fst <$> crypt_cipher_encrypt (Some h) inp out length (Some iv) iv_length w0 = Some res
    /\ fst <$> crypt_cipher_encrypt (Some h) inp out length (Some iv) iv_length w0'
       = Some res.
Proof.
  unfold sizeof. intros Hs Hiv0 Hinp0 Hout0 Hblk0 Hint0 Hiv Hinp Hout Hblk Hint.
  destruct (crypt_cipher_encrypt_ok w h t k inp0 out0 length0 iv0 iv_length0
              Hs Hiv0 Hinp0 Hout0 Hblk0 Hint0) as (w0 & He0 & Hs0).
  destruct (crypt_cipher_decrypt_ok w h t k inp0 out0 length0 iv0 iv_length0
              Hs Hiv0 Hinp0 Hout0 Hblk0 Hint0) as (w0' & Hd0 & Hs0').
  destruct (crypt_cipher_encrypt_ok w h t k inp out length iv iv_length
              Hs Hiv Hinp Hout Hblk Hint) as (w1 & He1 & _).
  destruct (crypt_cipher_encrypt_ok w0 h t k inp out length iv iv_length
              Hs0 Hiv Hinp Hout Hblk Hint) as (w2 & He2 & _).
  destruct (crypt_cipher_encrypt_ok w0' h t k inp out length iv iv_length
              Hs0' Hiv Hinp Hout Hblk Hint) as (w3 & He3 & _).
  eexists _, _, _, w0, w0'. rewrite He0, Hd0, He1, He2, He3. by repeat split.
Qed.

(** A block under one IV, then another block under another IV. *)
Lemma crypt_cipher_calls_independent_witness :
  exists res r0 r0' w0 w0',
    crypt_cipher_encrypt (B := Ref.backend false) (Some 2%positive) (replicate 16 x71)
      (replicate 16 x00) 16 (Some (replicate 16 x6a)) 16
      (Ref.session_world false EVP_aes_128_cbc (replicate 16 x6b)) = Some (r0, w0)
    /\ crypt_cipher_decrypt (B := Ref.backend false) (Some 2%positive) (replicate 16 x71)
         (replicate 16 x00) 16 (Some (replicate 16 x6a)) 16
         (Ref.session_world false EVP_aes_128_cbc (replicate 16 x6b)) = Some (r0', w0')
    /\ fst <$> crypt_cipher_encrypt (B := Ref.backend false) (Some 2%positive)
                 (replicate 16 x70) (replicate 16 x00) 16 (Some (replicate 16 x69)) 16
                 (Ref.session_world false EVP_aes_128_cbc (replicate 16 x6b)) = Some res
    /\ fst <$> crypt_cipher_encrypt (Some 2%positive) (replicate 16 x70) (replicate 16 x00)
                 16 (Some (replicate 16 x69)) 16 w0 = Some res
    /\ fst <$> crypt_cipher_encrypt (Some 2%positive) (replicate 16 x70) (replicate 16 x00)
                 16 (Some (replicate 16 x69)) 16 w0' = Some res.
Proof.
  apply (crypt_cipher_calls_independent (B := Ref.backend false)
           (Ref.session_world false EVP_aes_128_cbc (replicate 16 x6b)) 2%positive
           EVP_aes_128_cbc (replicate 16 x6b)
           (replicate 16 x71) (replicate 16 x00) 16 (replicate 16 x6a) 16
           (replicate 16 x70) (replicate 16 x00) 16 (replicate 16 x69) 16).
  - apply Ref_cipher_session.
  - vm_compute. discriminate.
  - vm_compute. split; discriminate.
  - vm_compute. discriminate.
  - reflexivity.
  - vm_compute. discriminate.
  - vm_compute. discriminate.
  - vm_compute. split; discriminate.
  - vm_compute. discriminate.
  - reflexivity.
  - vm_compute. discriminate.
Defined.

(** ** Conversions to [int] in the key derivation *)

(** X15.  On the PBKDF2 path the three lengths and the iteration count
    reach [PKCS5_PBKDF2_HMAC] converted to [int].  A length that differs
    by a multiple of 2^32 gives the same call and so the same result: a
    request for 2^32 + n key bytes derives n bytes and returns what the
    request for n bytes returns.  An iteration count above [INT_MAX] reaches
    OpenSSL as the negative number 2^32 less. *)
Theorem crypt_pbkdf_int_conversions `{B : openssl} (kdf hash : string)
    (password : list byte) (password_length : Z) (salt : list byte) (salt_length : Z)
    (key : list byte) (key_length : Z) (iterations memory parallel : Z) :
  c_str kdf = "pbkdf2"%string ->
  (forall a b c : Z,
     crypt_pbkdf (Some kdf) hash password (password_length + 2 ^ 32 * a)
       salt (salt_length + 2 ^ 32 * b) key (key_length + 2 ^ 32 * c)
       iterations memory parallel
     = crypt_pbkdf (Some kdf) hash password password_length salt salt_length
         key key_length iterations memory parallel)
  /\ (INT_MAX < iterations < 2 ^ 32 ->
        iterations - 2 ^ 32 < 0
        /\ crypt_pbkdf (Some kdf) hash password password_length salt salt_length
             key key_length iterations memory parallel
           = match EVP_get_digestbyname hash with
             | None => (- EINVAL, key)
             | Some hash_id =>
                 let r := PKCS5_PBKDF2_HMAC password (to_int password_length)
                            salt (to_int salt_length) (iterations - 2 ^ 32) hash_id
                            (to_int key_length) key in
                 (if r.1 =? 0 then - EINVAL else 0, r.2)
             end).
Proof.
  intros Hk. unfold crypt_pbkdf. rewrite strcmp_eqb by reflexivity.
  rewrite bool_decide_eq_true_2 by done. split.
  - intros a b c. by rewrite !to_int_period.
  - intros Hit. split; [lia|]. rewrite (to_int_high iterations Hit).
    destruct (EVP_get_digestbyname hash) as [hash_id|]; last done.
    destruct (PKCS5_PBKDF2_HMAC _ _ _ _ _ _ _ _) as [r key']. simpl.
    by destruct (r =? 0).
Qed.

(** 2^32 + 4 key bytes asked for, 4 derived; 2^31 iterations refused. *)
Lemma crypt_pbkdf_int_conversions_witness :
  crypt_pbkdf (B := Ref.backend false) (Some "pbkdf2"%string) "sha256"
    [x70; x77] (2 + 2 ^ 32 * 0) [x73] (1 + 2 ^ 32 * 0) (replicate 8 x00) (4 + 2 ^ 32 * 1)
    1000 0 0
  = (0, replicate 4 x62 ++ replicate 4 x00)
  /\ crypt_pbkdf (B := Ref.backend false) (Some "pbkdf2"%string) "sha256"
       [x70; x77] 2 [x73] 1 (replicate 8 x00) 4 (2 ^ 31) 0 0
     = (- EINVAL, replicate 8 x00).
Proof.
  destruct (crypt_pbkdf_int_conversions (B := Ref.backend false) "pbkdf2" "sha256"
              [x70; x77] 2 [x73] 1 (replicate 8 x00) 4 1000 0 0 eq_refl) as (Hlen & _).
  destruct (crypt_pbkdf_int_conversions (B := Ref.backend false) "pbkdf2" "sha256"
              [x70; x77] 2 [x73] 1 (replicate 8 x00) 4 (2 ^ 31) 0 0 eq_refl) as (_ & Hit).
  split.
  - rewrite (Hlen 0 0 1). vm_compute. reflexivity.
  - destruct Hit as (_ & ->); [unfold INT_MAX; lia|]. vm_compute. reflexivity.
Defined.

(** ** The table of constructions *)

Lemma crypt_cipher_init_type_row name mode key_length t :
  crypt_cipher_init_type name mode key_length = inr t ->
  c_str mode = mode_of t /\ key_length = EVP_CIPHER_key_length t.
Proof.
  rewrite crypt_cipher_init_type_cases. unfold known_mode.
  destruct (bool_decide (c_str name = "aes"%string)); [|done].
  destruct (String.eqb_spec (c_str mode) "xts") as [Ex|Ex]; cbn [orb].
  { repeat match goal with
           | |- context [key_length =? ?k] => destruct (Z.eqb_spec key_length k) as [->|]
           end; by intros [= <-]. }
  destruct (String.eqb_spec (c_str mode) "cbc") as [Ec|Ec]; cbn [orb].
  { repeat match goal with
           | |- context [key_length =? ?k] => destruct (Z.eqb_spec key_length k) as [->|]
           end; by intros [= <-]. }
  destruct (String.eqb_spec (c_str mode) "ecb") as [Ee|Ee]; [|done].
  repeat match goal with
         | |- context [key_length =? ?k] => destruct (Z.eqb_spec key_length k) as [->|]
         end; by intros [= <-].
Qed.

(** X16.  Whenever the resolution in [crypt_cipher_init] yields a
    construction, the key size of that construction is the [key_length] the
    caller gave, so that OpenSSL, which is handed the key without a length,
    reads exactly [key_length] bytes of it; and no construction stands for
    two rows of the table: the mode and the key length can be read back
    from it. *)
Theorem crypt_cipher_init_key_length (name mode : string) (key_length : Z)
    (t : EVP_CIPHER) :
  crypt_cipher_init_type name mode key_length = inr t ->
  EVP_CIPHER_key_length t = key_length
  /\ c_str mode = mode_of t
  /\ (forall name' mode' key_length',
        crypt_cipher_init_type name' mode' key_length' = inr t ->
        c_str mode' = c_str mode /\ key_length' = key_length).
Proof.
  intros Ht. destruct (crypt_cipher_init_type_row _ _ _ _ Ht) as [Hm Hk].
  split; [done|]. split; [done|].
  intros name' mode' key_length' Ht'.
  destruct (crypt_cipher_init_type_row _ _ _ _ Ht') as [Hm' Hk']. split; congruence.
Qed.

(** AES-256 in xts mode takes a key of 64 bytes. *)
Lemma crypt_cipher_init_key_length_witness :
  EVP_CIPHER_key_length EVP_aes_256_xts = 64
  /\ c_str "xts" = mode_of EVP_aes_256_xts
  /\ (forall name' mode' key_length',
        crypt_cipher_init_type name' mode' key_length' = inr EVP_aes_256_xts ->
        c_str mode' = c_str "xts" /\ key_length' = 64).
Proof. exact (crypt_cipher_init_key_length "aes" "xts" 64 EVP_aes_256_xts eq_refl). Defined.

(** ** Lengths beyond [int] and what OpenSSL refuses *)

(** With a length that an [int] does not hold the update is handed a
    negative number, which the instance refuses as OpenSSL does. *)
Lemma Ref_encrypt_negative_length (inp out : list byte) (length : Z) (iv : list byte)
    (t : EVP_CIPHER) (key : list byte) :
  to_int length < 0 ->
  fst <$> crypt_cipher_encrypt (B := Ref.backend false) (Some 2%positive) inp out length
            (Some iv) 16 (Ref.session_world false t key)
  = Some (- EINVAL, out).
Proof.
  intros Hneg.
  rewrite (crypt_cipher_encrypt_eq (B := Ref.backend false) _ 2%positive 3%positive
             (Some 4%positive)
             {| Ref.c_type := Some t; Ref.c_key := Some key; Ref.c_iv := [];
                Ref.c_dec := false; Ref.c_pad := false; Ref.c_pending := [] |})
    by reflexivity.
  cbn [encrypt_init encrypt_update Ref.backend Ref.cipher_init Ref.cipher_update Ref.code
       Ref.c_type Ref.c_key Ref.c_dec fst snd Z.eqb negb Pos.eqb].
  destruct (Z.ltb_spec (to_int length) 0) as [_|?]; [|lia]. reflexivity.
Qed.

(** The claim as it was stated is false of a plaintext of 2^31 bytes, a
    whole number of blocks: the encryption returns -EINVAL and leaves the
    output as it was.  It is false as well of what OpenSSL refuses of the
    xts constructions: on the instance that refuses the same, the init with
    a 32-byte key whose halves are equal returns -EINVAL, and on a session
    with a key it accepts the encryption of the empty plaintext returns
    -EINVAL, where that of one block returns 0. *)
Lemma crypt_cipher_round_trip_counterexample :
  sizeof (replicate (Z.to_nat (2 ^ 31)) x70) mod AES_BLOCK_SIZE = 0
  /\ fst <$> crypt_cipher_encrypt (B := Ref.backend false) (Some 2%positive)
               (replicate (Z.to_nat (2 ^ 31)) x70) (replicate (Z.to_nat (2 ^ 31)) x00)
               (2 ^ 31) (Some (replicate 16 x69)) 16
               (Ref.session_world false EVP_aes_128_cbc (replicate 16 x6b))
     = Some (- EINVAL, replicate (Z.to_nat (2 ^ 31)) x00)
  /\ fst <$> crypt_cipher_init (B := xts_strict) (Some 1%positive) "aes" "xts"
               (Some (replicate 32 x6b)) 32 (World (<[1%positive := Cslot None]> ∅) [])
     = Some (- EINVAL)
  /\ fst <$> (_ ← crypt_cipher_init (B := xts_strict) (Some 1%positive) "aes" "xts"
                    (Some (replicate 16 x6b ++ replicate 16 x6c)) 32;
              crypt_cipher_encrypt (Some 2%positive) [] [] 0 (Some (replicate 16 x69)) 16)
               (World (<[1%positive := Cslot None]> ∅) [])
     = Some (- EINVAL, [])
  /\ fst <$> (_ ← crypt_cipher_init (B := xts_strict) (Some 1%positive) "aes" "xts"
                    (Some (replicate 16 x6b ++ replicate 16 x6c)) 32;
              r ← crypt_cipher_encrypt (Some 2%positive) (replicate 16 x70)
                    (replicate 16 x00) 16 (Some (replicate 16 x69)) 16;
              mret r.1)
               (World (<[1%positive := Cslot None]> ∅) [])
     = Some 0.
Proof.
  split.
  { unfold sizeof. rewrite length_replicate, Z2Nat.id by lia. reflexivity. }
  split.
  { apply Ref_encrypt_negative_length. vm_compute. reflexivity. }
  split.
  { vm_cast_no_check (eq_refl (Some (- EINVAL))). }
  split.
  { vm_cast_no_check (eq_refl (Some (- EINVAL, @nil byte))). }
  vm_cast_no_check (eq_refl (Some 0)).
Qed.

(** ** Finalize on the contexts the init functions make *)


